(** * Sign-language data pipeline: frame extraction and model training

    A shallow embedding of the two scripts of the repository,
    [extract_frames.py] and [train_improved_model.py].

    Both scripts are straight-line glue code around a file system and two
    external libraries (OpenCV and Keras/TensorFlow).  The file system is
    modelled as a tree that the scripts read and update; the libraries are
    interfaces (type classes) whose methods the scripts call; everything the
    scripts themselves decide (which frame is kept, which path is written,
    which arguments a library call receives, when the script stops) is
    modelled as executable code over those interfaces. *)

From Stdlib Require Import List String Ascii Arith PeanoNat Lia Bool.
From Stdlib Require Import QArith Qminmax.
From Stdlib Require Decimal DecimalString DecimalNat DecimalFacts Finite.
From Stdlib Require Sorted Permutation NArith.
Import ListNotations.

Local Open Scope string_scope.
Local Open Scope nat_scope.
Local Open Scope list_scope.

Set Implicit Arguments.

(* ================================================================== *)
(** * The file system *)
(* ================================================================== *)

(** A directory tree whose files carry a content of type [C].  A directory
    lists its entries in the order in which the operating system enumerates
    them; a path is the list of its components below the working
    directory.  Matching of names is the POSIX one: case sensitive. *)
Module FS.

Definition Path := list string.

Section Tree.
Variable C : Type.

#[warnings="-register-all"]
Inductive Node : Type :=
| File (content : C)
| Dir (entries : list (string * Node)).

Definition is_dir (n : Node) : bool :=
  match n with Dir _ => true | File _ => false end.

Fixpoint assoc (k : string) (es : list (string * Node)) : option Node :=
  match es with
  | [] => None
  | (k', n) :: es' => if String.eqb k' k then Some n else assoc k es'
  end.

(** Replace the entry named [k], or add it after the existing entries. *)
Fixpoint set (k : string) (v : Node) (es : list (string * Node))
  : list (string * Node) :=
  match es with
  | [] => [(k, v)]
  | (k', n) :: es' =>
      if String.eqb k' k then (k', v) :: es' else (k', n) :: set k v es'
  end.

Fixpoint lookup (p : Path) (n : Node) : option Node :=
  match p with
  | [] => Some n
  | c :: p' =>
      match n with
      | File _ => None
      | Dir es =>
          match assoc c es with
          | Some m => lookup p' m
          | None => None
          end
      end
  end.

(** [os.path.exists] *)
Definition exists_ (p : Path) (n : Node) : bool :=
  match lookup p n with Some _ => true | None => false end.

(** The entries of the directory at [p]; [None] when [p] is not a
    directory ([Path.iterdir] raises there). *)
Definition iterdir (p : Path) (n : Node) : option (list (string * Node)) :=
  match lookup p n with
  | Some (Dir es) => Some es
  | _ => None
  end.

(** [str.endswith] *)
Definition ends_with (s suffix : string) : bool :=
  let n := String.length s in
  let m := String.length suffix in
  (m <=? n) && String.eqb (substring (n - m) m s) suffix.

(** [Path(p).glob("*" + suffix)]: the entries of the directory at [p]
    whose name ends with [suffix], in directory order; nothing when [p]
    is not a directory. *)
Definition glob (p : Path) (suffix : string) (n : Node)
  : list (string * Node) :=
  match iterdir p n with
  | Some es => filter (fun e => ends_with (fst e) suffix) es
  | None => []
  end.

(** [os.makedirs(p, exist_ok=True)]: creates the missing directories
    along [p]; [None] when a component exists and is not a directory
    (the call raises). *)
Fixpoint makedirs (p : Path) (n : Node) : option Node :=
  match n with
  | File _ => None
  | Dir es =>
      match p with
      | [] => Some n
      | c :: p' =>
          let below :=
            match assoc c es with
            | Some m => m
            | None => Dir []
            end in
          match makedirs p' below with
          | Some m' => Some (Dir (set c m' es))
          | None => None
          end
      end
  end.

(** Create or overwrite the file at [p]; [None] when the parent is not an
    existing directory or [p] names a directory. *)
Fixpoint write_file (p : Path) (c : C) (n : Node) : option Node :=
  match n with
  | File _ => None
  | Dir es =>
      match p with
      | [] => None
      | name :: p' =>
          match p' with
          | [] =>
              match assoc name es with
              | Some (Dir _) => None
              | _ => Some (Dir (set name (File c) es))
              end
          | _ :: _ =>
              match assoc name es with
              | Some m =>
                  match write_file p' c m with
                  | Some m' => Some (Dir (set name m' es))
                  | None => None
                  end
              | None => None
              end
          end
      end
  end.

(** The content of the regular file at [p]. *)
Definition read_file (p : Path) (n : Node) : option C :=
  match lookup p n with
  | Some (File c) => Some c
  | _ => None
  end.

(** Two paths diverge when they differ at a component that both have:
    neither lies on the way to the other. *)
Fixpoint diverge (p q : Path) : bool :=
  match p, q with
  | a :: p', b :: q' => if String.eqb a b then diverge p' q' else true
  | _, _ => false
  end.

End Tree.

Arguments File {C} content.
Arguments Dir {C} entries.

End FS.

(* ================================================================== *)
(** * Script control flow *)
(* ================================================================== *)

(** A script threads a state of type [S] and ends a step normally, by
    [exit(status)], or by an exception nobody catches. *)
Module Py.

Inductive Exn : Type :=
| FileExistsError
| NotADirectoryError
| OSError
| IndexError
| LibraryError (what : string).

Inductive Res (A : Type) : Type :=
| Ok (a : A)
| Exit (status : nat)
| Raise (e : Exn).

Arguments Ok {A} a.
Arguments Exit {A} status.
Arguments Raise {A} e.

Definition M (S A : Type) : Type := S -> Res A * S.

Definition ret {S A} (a : A) : M S A := fun s => (Ok a, s).

Definition bind {S A B} (m : M S A) (k : A -> M S B) : M S B :=
  fun s =>
    match m s with
    | (Ok a, s') => k a s'
    | (Exit c, s') => (Exit c, s')
    | (Raise e, s') => (Raise e, s')
    end.

Definition exit {S A} (status : nat) : M S A := fun s => (Exit status, s).
Definition raise {S A} (e : Exn) : M S A := fun s => (Raise e, s).

(** The outcome of a library call: its value, or the exception it
    raised. *)
Definition call {S A} (r : Exn + A) : M S A :=
  fun s =>
    match r with
    | inr a => (Ok a, s)
    | inl e => (Raise e, s)
    end.

Definition get {S} : M S S := fun s => (Ok s, s).
Definition modify {S} (f : S -> S) : M S unit := fun s => (Ok tt, f s).

(** [try: m  except Exception: h]; [exit] raises [SystemExit], which is
    not an [Exception], and passes through. *)
Definition try_except {S A} (m : M S A) (h : Exn -> M S A) : M S A :=
  fun s =>
    match m s with
    | (Raise e, s') => h e s'
    | r => r
    end.

(** The status with which the interpreter process ends. *)
Definition exit_status {A} (r : Res A) : nat :=
  match r with
  | Ok _ => 0
  | Exit c => c
  | Raise _ => 1
  end.

End Py.

Declare Scope py_scope.
Delimit Scope py_scope with py.
Notation "x <- c1 ;; c2" := (Py.bind c1 (fun x => c2))
  (at level 61, c1 at next level, right associativity) : py_scope.
Notation "c1 ;; c2" := (Py.bind c1 (fun _ => c2))
  (at level 61, right associativity) : py_scope.

Local Open Scope py_scope.

(** [for x in l: body(x)] *)
Fixpoint for_each {S A} (l : list A) (body : A -> Py.M S unit) : Py.M S unit :=
  match l with
  | [] => Py.ret tt
  | x :: l' => body x ;; for_each l' body
  end.

(* ================================================================== *)
(** * extract_frames.py *)
(* ================================================================== *)

Module Extract.

(** The part of OpenCV the script calls on images.  A frame is a pixel
    array with [shape] (rows, columns); [cv2.resize(frame, (w, h))] returns
    an array of [h] rows and [w] columns. *)
Class OpenCV : Type := {
  Frame : Type;
  shape : Frame -> nat * nat;
  cv2_resize : Frame -> nat * nat -> Frame;
  cv2_resize_shape :
    forall f w h, shape (cv2_resize f (w, h)) = (h, w)
}.

(** A reference implementation of the interface, in which a frame is its
    shape alone. *)
Definition shape_only : OpenCV := {|
  Frame := nat * nat;
  shape := fun f => f;
  cv2_resize := fun _ dsize => (snd dsize, fst dsize);
  cv2_resize_shape := fun _ _ _ => eq_refl
|}.

(** ** Configuration *)

Definition VIDEO_FOLDER : string := "Videos".
Definition OUTPUT_FOLDER : string := "trainingdata".
Definition FRAME_INTERVAL : nat := 5.
Definition IMAGE_SIZE : nat := 224.
Definition VIDEO_EXTENSIONS : list string :=
  [".mp4"; ".avi"; ".mov"; ".mkv"; ".MP4"; ".AVI"; ".MOV"].

(** ** Formatting and ordering *)

Definition str (n : nat) : string :=
  DecimalString.NilZero.string_of_uint (Nat.to_uint n).

Fixpoint zeros (k : nat) : string :=
  match k with
  | 0 => ""
  | S k' => String "0" (zeros k')
  end.

(** [f"{n:04d}"] *)
Definition fmt04d (n : nat) : string :=
  let s := str n in zeros (4 - String.length s) ++ s.

(** The number a string of decimal digits denotes *)
Definition parse (s : string) : option nat :=
  option_map Nat.of_uint (DecimalString.NilEmpty.uint_of_string s).

(** [f"img_{n:04d}.jpg"] *)
Definition img_name (n : nat) : string := "img_" ++ fmt04d n ++ ".jpg".

Fixpoint insert_sorted (x : string) (l : list string) : list string :=
  match l with
  | [] => [x]
  | y :: l' => if String.leb x y then x :: l else y :: insert_sorted x l'
  end.

(** [sorted(l)], a stable sort by the order of the names *)
Definition sorted (l : list string) : list string :=
  fold_right insert_sorted [] l.

(** Whether [Path.glob] matches a name for one of the extensions *)
Definition supported (name : string) : bool :=
  existsb (FS.ends_with name) VIDEO_EXTENSIONS.

Section Script.
Context {cv : OpenCV}.

(** What a file holds, as far as the script can tell: a video that
    decodes to a sequence of frames, an image, or anything else. *)
Inductive Content : Type :=
| Video (frames : list Frame)
| Jpeg (img : Frame)
| Other.

Definition Tree : Type := FS.Node Content.

(** The calls with an effect outside the script, in the order made.
    [EvImwrite] also records where the image came from: the video being
    read and the value of [frame_count] at the call. *)
Inductive Event : Type :=
| EvMakedirs (p : FS.Path)
| EvOpen (video_path : FS.Path) (opened : bool)
| EvImwrite (img_path : FS.Path) (img : Frame)
            (video_path : FS.Path) (frame_count : nat).

Record Machine : Type := {
  fs : Tree;
  trace : list Event;
  total_frames : nat;
  total_videos : nat
}.

Definition log (e : Event) (m : Machine) : Machine :=
  {| fs := fs m; trace := trace m ++ [e];
     total_frames := total_frames m; total_videos := total_videos m |}.

Definition with_fs (t : Tree) (m : Machine) : Machine :=
  {| fs := t; trace := trace m;
     total_frames := total_frames m; total_videos := total_videos m |}.

Definition set_totals (f v : nat) (m : Machine) : Machine :=
  {| fs := fs m; trace := trace m; total_frames := f; total_videos := v |}.

Definition M : Type -> Type := Py.M Machine.

(** [os.makedirs(p, exist_ok=True)] *)
Definition os_makedirs (p : FS.Path) : M unit :=
  fun m =>
    match FS.makedirs p (fs m) with
    | Some t => (Py.Ok tt, with_fs t (log (EvMakedirs p) m))
    | None => (Py.Raise Py.FileExistsError, log (EvMakedirs p) m)
    end.

(** [[f for f in Path(p).iterdir() if f.is_dir()]], by name *)
Definition iterdir_dirs (p : FS.Path) : M (list string) :=
  fun m =>
    match FS.iterdir p (fs m) with
    | Some es =>
        (Py.Ok (map fst (filter (fun e => FS.is_dir (snd e)) es)), m)
    | None => (Py.Raise Py.NotADirectoryError, m)
    end.

(** The names matched by [Path(p).glob("*" + ext)] *)
Definition glob (p : FS.Path) (ext : string) : M (list string) :=
  fun m => (Py.Ok (map fst (FS.glob p ext (fs m))), m).

(** [cap = cv2.VideoCapture(p)] with [cap.isOpened()]: the frames that
    [cap.read()] will deliver, or [None] when the capture did not open. *)
Definition VideoCapture (p : FS.Path) : M (option (list Frame)) :=
  fun m =>
    match FS.read_file p (fs m) with
    | Some (Video frames) => (Py.Ok (Some frames), log (EvOpen p true) m)
    | _ => (Py.Ok None, log (EvOpen p false) m)
    end.

(** [cv2.imwrite(p, img)]; the script ignores the boolean it returns. *)
Definition cv2_imwrite (p : FS.Path) (img : Frame)
           (video_path : FS.Path) (frame_count : nat) : M unit :=
  fun m =>
    let m' := log (EvImwrite p img video_path frame_count) m in
    match FS.write_file p (Jpeg img) (fs m) with
    | Some t => (Py.Ok tt, with_fs t m')
    | None => (Py.Ok tt, m')
    end.

(** Lines 97-116: the [while True] loop over the frames of one capture.
    [cap] holds the frames still to be read; the loop returns
    [saved_count]. *)
Fixpoint read_loop (cap : list Frame) (video_path output_dir : FS.Path)
         (existing_count frames_for_letter frame_count saved_count : nat)
  : M nat :=
  match cap with
  | [] => Py.ret saved_count
  | frame :: cap' =>
      if frame_count mod FRAME_INTERVAL =? 0 then
        let resized := cv2_resize frame (IMAGE_SIZE, IMAGE_SIZE) in
        let img_filename :=
          img_name (existing_count + frames_for_letter + saved_count + 1) in
        let img_path := output_dir ++ [img_filename] in
        cv2_imwrite img_path resized video_path frame_count ;;
        read_loop cap' video_path output_dir existing_count
                  frames_for_letter (frame_count + 1) (saved_count + 1)
      else
        read_loop cap' video_path output_dir existing_count
                  frames_for_letter (frame_count + 1) saved_count
  end.

(** Lines 85-122: the body of the loop over the videos of one letter
    folder; returns the new value of [frames_for_letter]. *)
Definition video_body (name : string) (letter_folder output_dir : FS.Path)
           (existing_count frames_for_letter : nat) : M nat :=
  let video_path := letter_folder ++ [name] in
  cap <- VideoCapture video_path ;;
  match cap with
  | None => Py.ret frames_for_letter
  | Some frames =>
      saved_count <- read_loop frames video_path output_dir
                               existing_count frames_for_letter 0 0 ;;
      Py.modify (fun m =>
        set_totals (total_frames m) (total_videos m + 1) m) ;;
      Py.ret (frames_for_letter + saved_count)
  end.

(** Line 84: the loop over the videos; returns [frames_for_letter]. *)
Fixpoint video_loop (video_files : list string)
         (letter_folder output_dir : FS.Path)
         (existing_count frames_for_letter : nat) : M nat :=
  match video_files with
  | [] => Py.ret frames_for_letter
  | name :: rest =>
      frames_for_letter' <- video_body name letter_folder output_dir
                                       existing_count frames_for_letter ;;
      video_loop rest letter_folder output_dir
                 existing_count frames_for_letter'
  end.

(** Lines 65-67: the videos of a letter folder, extension by extension *)
Fixpoint glob_all (letter_folder : FS.Path) (exts : list string)
  : M (list string) :=
  match exts with
  | [] => Py.ret []
  | ext :: exts' =>
      found <- glob letter_folder ext ;;
      more <- glob_all letter_folder exts' ;;
      Py.ret (found ++ more)
  end.

(** Lines 62-127: the body of the loop over the letter folders *)
Definition letter_body (sign_name : string) : M unit :=
  let letter_folder := [VIDEO_FOLDER; sign_name] in
  video_files <- glob_all letter_folder VIDEO_EXTENSIONS ;;
  if List.length video_files =? 0 then Py.ret tt
  else
    let output_dir := [OUTPUT_FOLDER; sign_name] in
    os_makedirs output_dir ;;
    jpgs <- glob output_dir ".jpg" ;;
    let existing_count := List.length jpgs in
    frames_for_letter <- video_loop video_files letter_folder output_dir
                                    existing_count 0 ;;
    Py.modify (fun m =>
      set_totals (total_frames m + frames_for_letter) (total_videos m) m).

(** The script *)
Definition main : M unit :=
  m <- Py.get ;;
  if negb (FS.exists_ [VIDEO_FOLDER] (fs m)) then Py.exit 1
  else
    os_makedirs [OUTPUT_FOLDER] ;;
    letter_folders <- iterdir_dirs [VIDEO_FOLDER] ;;
    if List.length letter_folders =? 0 then Py.exit 1
    else
      Py.modify (set_totals 0 0) ;;
      for_each (sorted letter_folders) letter_body.

(** The machine in which a run starts *)
Definition boot (t : Tree) : Machine :=
  {| fs := t; trace := []; total_frames := 0; total_videos := 0 |}.

Definition run (t : Tree) : Py.Res unit * Machine := main (boot t).

(** ** Vocabulary of the specification *)

(** The machine once the output folder was made, when that turned the
    tree [t] into [t1] *)
Definition prepared (t t1 : Tree) : Machine :=
  with_fs t1 (log (EvMakedirs [OUTPUT_FOLDER]) (boot t)).

(** The frames of a capture that the stride keeps, each with its decode
    index, when the first frame of [cap] has index [frame_count]. *)
Fixpoint picks (frame_count : nat) (cap : list Frame)
  : list (nat * Frame) :=
  match cap with
  | [] => []
  | f :: cap' =>
      if frame_count mod FRAME_INTERVAL =? 0
      then (frame_count, f) :: picks (S frame_count) cap'
      else picks (S frame_count) cap'
  end.

(** The writes that save the kept frames [sel] under the numbers
    [n], [n + 1], ... *)
Fixpoint write_events (video_path output_dir : FS.Path) (n : nat)
         (sel : list (nat * Frame)) : list Event :=
  match sel with
  | [] => []
  | (i, f) :: sel' =>
      EvImwrite (output_dir ++ [img_name n])
                (cv2_resize f (IMAGE_SIZE, IMAGE_SIZE)) video_path i
      :: write_events video_path output_dir (S n) sel'
  end.

(** The paths [cv2.imwrite] was called on, in order *)
Fixpoint imwrite_paths (evs : list Event) : list FS.Path :=
  match evs with
  | [] => []
  | EvImwrite p _ _ _ :: evs' => p :: imwrite_paths evs'
  | _ :: evs' => imwrite_paths evs'
  end.

(** The number of calls of [cv2.imwrite], which is what the script
    counts in [saved_count]: it does not look at what a call returns, so
    a call that wrote nothing is counted too. *)
Definition saved (evs : list Event) : nat :=
  List.length (imwrite_paths evs).

(** The number of captures that opened *)
Fixpoint opened (evs : list Event) : nat :=
  match evs with
  | [] => 0
  | EvOpen _ true :: evs' => S (opened evs')
  | _ :: evs' => opened evs'
  end.

(** The number of entries matching [*.jpg] in the output folder of a
    sign *)
Definition jpg_count (t : Tree) (sign_name : string) : nat :=
  List.length (FS.glob [OUTPUT_FOLDER; sign_name] ".jpg" t).

(** The names of the letter folders *)
Definition letter_dirs (t : Tree) : list string :=
  match FS.iterdir [VIDEO_FOLDER] t with
  | Some es => map fst (filter (fun e => FS.is_dir (snd e)) es)
  | None => []
  end.

(** The names [img_n.jpg] for [count] consecutive numbers from
    [first] on, in the output folder of a sign *)
Definition numbered (sign_name : string) (first count : nat)
  : list FS.Path :=
  map (fun n => [OUTPUT_FOLDER; sign_name; img_name n]) (seq first count).

(** A write made while reading the folder [letter_folder] stores, in
    [output_dir], the resized frame number [frame_count] of one of the
    folder's videos as the tree [t] has it. *)
Definition sampled (letter_folder output_dir : FS.Path) (t : Tree)
           (e : Event) : Prop :=
  match e with
  | EvImwrite p img video_path i =>
      exists file n frames f,
        video_path = letter_folder ++ [file] /\
        p = output_dir ++ [img_name n] /\
        FS.read_file video_path t = Some (Video frames) /\
        nth_error frames i = Some f /\
        img = cv2_resize f (IMAGE_SIZE, IMAGE_SIZE)
  | _ => True
  end.

(** The same, for the folder of some sign and the output folder of that
    sign *)
Definition sampled_from (t : Tree) (e : Event) : Prop :=
  exists sign_name,
    sampled [VIDEO_FOLDER; sign_name] [OUTPUT_FOLDER; sign_name] t e.

(** The number of images due for a capture that opened: one for every
    [FRAME_INTERVAL] frames of the video, rounded up *)
Definition frames_due (t : Tree) (e : Event) : nat :=
  match e with
  | EvOpen video_path true =>
      match FS.read_file video_path t with
      | Some (Video frames) => (List.length frames + 4) / 5
      | _ => 0
      end
  | _ => 0
  end.

(** The sum of the images due over the captures that opened *)
Definition due (t : Tree) (evs : list Event) : nat :=
  list_sum (map (frames_due t) evs).

(** A capture is opened on a path below the video folder. *)
Definition under_videos (e : Event) : Prop :=
  match e with
  | EvOpen (c :: _) _ => c = VIDEO_FOLDER
  | EvOpen [] _ => False
  | _ => True
  end.

(** Every image written is in the file it was written to. *)
Definition landed (t : Tree) (evs : list Event) : Prop :=
  forall p img vp i,
    In (EvImwrite p img vp i) evs -> FS.read_file p t = Some (Jpeg img).

(** No directory sits where an image of the folder [d] would go. *)
Definition free (d : FS.Path) (t : Tree) : Prop :=
  forall n sub, FS.lookup (d ++ [img_name n]) t <> Some (FS.Dir sub).

(** The tree [t'] is [t] wherever a path diverges from [d]. *)
Definition untouched (d : FS.Path) (t t' : Tree) : Prop :=
  forall q, FS.diverge d q = true -> FS.lookup q t' = FS.lookup q t.

(** The name of the directory a path lies in *)
Definition label (p : FS.Path) : option string :=
  match List.rev p with
  | _ :: d :: _ => Some d
  | _ => None
  end.

(** Whether a regular file holds an image *)
Definition is_image (c : option Content) : bool :=
  match c with
  | Some (Jpeg _) => true
  | _ => false
  end.

(** The number of images on disk: the paths that [cv2.imwrite] was
    called on and that are an image file in the tree [t] *)
Definition stored (t : Tree) (evs : list Event) : nat :=
  List.length
    (filter (fun p => is_image (FS.read_file p t)) (imwrite_paths evs)).

(** The tree [t'] is [t] wherever a path diverges from all of [ps]. *)
Definition outside (ps : list FS.Path) (t t' : Tree) : Prop :=
  forall q,
    (forall p, In p ps -> FS.diverge p q = true) ->
    FS.lookup q t' = FS.lookup q t.

(** The tree [t'] is [t] wherever a path diverges from every image of
    the folder [d] with a number above [n]. *)
Definition kept (d : FS.Path) (n : nat) (t t' : Tree) : Prop :=
  forall q,
    (forall k, n < k -> FS.diverge (d ++ [img_name k]) q = true) ->
    FS.lookup q t' = FS.lookup q t.

(** What the loop over the videos [files] of the folder [lf] may log:
    captures and images of these videos, and no directory. *)
Definition loop_event (lf : FS.Path) (files : list string) (e : Event)
  : Prop :=
  match e with
  | EvMakedirs _ => False
  | EvOpen vp _ => exists name, In name files /\ vp = lf ++ [name]
  | EvImwrite _ _ vp _ => exists name, In name files /\ vp = lf ++ [name]
  end.

(** No entry of the folder [d] has the name of an image with a number
    above [n]. *)
Definition vacant (d : FS.Path) (n : nat) (t : Tree) : Prop :=
  forall k, n < k -> FS.lookup (d ++ [img_name k]) t = None.

(** The signs whose output folder was asked for, in order *)
Fixpoint created (evs : list Event) : list string :=
  match evs with
  | [] => []
  | EvMakedirs [_; s] :: evs' => s :: created evs'
  | _ :: evs' => created evs'
  end.

(** The videos of the folder of a sign that the script looks for *)
Definition videos_of (t : Tree) (sign_name : string) : list string :=
  flat_map (fun ext => map fst (FS.glob [VIDEO_FOLDER; sign_name] ext t))
           VIDEO_EXTENSIONS.

End Script.

(** ** Concrete trees, over the reference implementation of OpenCV *)

Definition frame (rows cols : nat) : Frame (OpenCV := shape_only) :=
  (rows, cols).

(** The frames of a clip of [k] frames, told apart by their width *)
Definition reel (k : nat) : list (Frame (OpenCV := shape_only)) :=
  map (fun i => frame 480 (640 + i)) (seq 0 k).

Definition clip (k : nat) : FS.Node (Content (cv := shape_only)) :=
  FS.File (Video (reel k)).

(** Two letter folders with videos, one without, a stray video outside
    the letter folders, and an output folder from an earlier run *)
Definition studio : Tree (cv := shape_only) :=
  FS.Dir
    [("Videos",
      FS.Dir [("B", FS.Dir [("b1.mp4", clip 11); ("notes.txt", FS.File Other);
                            ("b2.MOV", clip 3); ("bad.avi", FS.File Other)]);
              ("A", FS.Dir [("a.mkv", clip 6)]);
              ("C", FS.Dir [("readme", FS.File Other)]);
              ("x.mp4", clip 4)]);
     ("trainingdata",
      FS.Dir [("B", FS.Dir [("img_0001.jpg", FS.File (Jpeg (frame 224 224)));
                            ("old.jpg", FS.File Other);
                            ("z.png", FS.File Other)])])].

(** A working directory without anything *)
Definition empty : Tree (cv := shape_only) := FS.Dir [].

(** A video folder without letter folders *)
Definition bare : Tree (cv := shape_only) :=
  FS.Dir [("Videos", FS.Dir [("x.mp4", clip 4)])].

(** A video that is 224 by 224 already *)
Definition square : Tree (cv := shape_only) :=
  FS.Dir [("Videos",
           FS.Dir [("A", FS.Dir [("a.mp4", FS.File (Video [frame 224 224]))])])].

(** An output folder in which a directory has the name of the next
    image *)
Definition jammed : Tree (cv := shape_only) :=
  FS.Dir
    [("Videos", FS.Dir [("A", FS.Dir [("a.mp4", clip 6)])]);
     ("trainingdata", FS.Dir [("A", FS.Dir [("img_0002.jpg", FS.Dir [])])])].

(** A regular file where the video folder should be *)
Definition misplaced : Tree (cv := shape_only) :=
  FS.Dir [("Videos", FS.File Other)].

(** A letter folder whose only video has its extension in upper case *)
Definition shouting : Tree (cv := shape_only) :=
  FS.Dir [("Videos", FS.Dir [("A", FS.Dir [("a.MKV", clip 6)])])].

End Extract.

(* ================================================================== *)
(** * train_improved_model.py *)
(* ================================================================== *)

Module Train.

(** ** Configuration *)

Definition TRAINING_DATA_DIR : string := "trainingdata".
Definition IMAGE_SIZE : nat := 32.
Definition BATCH_SIZE : nat := 32.
Definition EPOCHS : nat := 50.
Definition LEARNING_RATE : Q := 0.001.

(** ** The arguments of the library calls

    A Python float literal is read as the decimal number it denotes. *)

Record ImageDataGenerator : Type := {
  rescale : Q;
  rotation_range : nat;
  width_shift_range : Q;
  height_shift_range : Q;
  zoom_range : Q;
  horizontal_flip : bool;
  validation_split : Q
}.

Record FlowArgs : Type := {
  directory : string;
  target_size : nat * nat;
  batch_size : nat;
  class_mode : string;
  subset : string;
  shuffle : bool
}.

Inductive Layer : Type :=
| Input (shape : nat * nat * nat)
| Conv2D (filters : nat) (kernel_size : nat * nat)
         (activation padding : string)
| BatchNormalization
| MaxPooling2D (pool_size : nat * nat)
| Dropout (rate : Q)
| Flatten
| Dense (units : nat) (activation : string).

Inductive Optimizer : Type :=
| Adam (learning_rate : Q).

Record CompileArgs : Type := {
  optimizer : Optimizer;
  loss_name : string;
  metrics : list string
}.

Inductive Callback : Type :=
| ReduceLROnPlateau (monitor : string) (factor : Q) (patience verbose : nat)
                    (min_lr : Q)
| EarlyStopping (monitor : string) (patience : nat)
                (restore_best_weights : bool) (verbose : nat).

(** Whether a callback ever sets [model.stop_training]. *)
Definition stops_training (cb : Callback) : bool :=
  match cb with
  | EarlyStopping _ _ _ _ => true
  | ReduceLROnPlateau _ _ _ _ _ => false
  end.

Inductive Optimize : Type :=
| DEFAULT.

(** What [fit] records at the end of one epoch *)
Record Logs : Type := {
  loss : Q;
  accuracy : Q;
  val_loss : Q;
  val_accuracy : Q
}.

(** [history.history], one entry per epoch that was run *)
Definition History : Type := list Logs.

Definition Bytes : Type := list Byte.byte.
Definition Tree : Type := FS.Node Bytes.

(** ** The library

    The part of Keras and TensorFlow Lite the script calls.  A call
    returns its value or the exception it raised.  [stopped_by] tells, of
    a model that [fit] returned, which callback stopped its training, if
    one did (the callback that set [model.stop_training]).  The two laws
    are the documented contract of [Model.fit]: it runs at most [epochs]
    epochs, and it ends before that only when one of its callbacks, one
    that can stop a training, stopped it. *)
Class Keras : Type := {
  Generator : Type;
  class_indices : Generator -> list (string * nat);
  flow_from_directory :
    ImageDataGenerator -> FlowArgs -> Tree -> Py.Exn + Generator;
  Model : Type;
  Sequential : list Layer -> Py.Exn + Model;
  compile : Model -> CompileArgs -> Py.Exn + Model;
  fit : Model -> Generator -> nat -> Generator -> list Callback ->
        Py.Exn + (Model * History);
  convert : Model -> list Optimize -> Py.Exn + Bytes;
  stopped_by : Model -> option Callback;
  fit_at_most :
    forall m x epochs v cbs m' h,
      fit m x epochs v cbs = inr (m', h) -> List.length h <= epochs;
  fit_stopped :
    forall m x epochs v cbs m' h,
      fit m x epochs v cbs = inr (m', h) -> List.length h < epochs ->
      exists cb,
        stopped_by m' = Some cb /\ In cb cbs /\ stops_training cb = true
}.

Section Script.
Context {keras : Keras}.

(** The library and file calls, in the order made *)
Inductive Call : Type :=
| CallFlow (datagen : ImageDataGenerator) (args : FlowArgs)
| CallSequential (layers : list Layer)
| CallCompile (model : Model) (args : CompileArgs)
| CallFit (model : Model) (x : Generator) (epochs : nat)
          (validation_data : Generator) (callbacks : list Callback)
          (verbose : nat)
| CallConvert (model : Model) (optimizations : list Optimize)
| CallWrite (p : FS.Path) (data : Bytes)
| CallCopy (src dst : FS.Path).

Record Machine : Type := {
  fs : Tree;
  calls : list Call
}.

Definition log (c : Call) (m : Machine) : Machine :=
  {| fs := fs m; calls := calls m ++ [c] |}.

Definition with_fs (t : Tree) (m : Machine) : Machine :=
  {| fs := t; calls := calls m |}.

Definition M : Type -> Type := Py.M Machine.

Definition note (c : Call) : M unit := Py.modify (log c).

(** [datagen.flow_from_directory(...)] *)
Definition flow (datagen : ImageDataGenerator) (args : FlowArgs)
  : M Generator :=
  note (CallFlow datagen args) ;;
  m <- Py.get ;;
  Py.call (flow_from_directory datagen args (fs m)).

(** [keras.Sequential(layers)] *)
Definition keras_Sequential (ls : list Layer) : M Model :=
  note (CallSequential ls) ;;
  Py.call (Sequential ls).

(** [model.compile(optimizer=..., loss=..., metrics=...)]; the compiled
    model is the value of the call. *)
Definition model_compile (model : Model) (args : CompileArgs) : M Model :=
  note (CallCompile model args) ;;
  Py.call (compile model args).

(** [model.fit(x, epochs=..., validation_data=..., callbacks=...,
    verbose=...)]: the trained model and [history.history] *)
Definition model_fit (model : Model) (x : Generator) (epochs : nat)
           (validation_data : Generator) (cbs : list Callback)
           (verbose : nat) : M (Model * History) :=
  note (CallFit model x epochs validation_data cbs verbose) ;;
  Py.call (fit model x epochs validation_data cbs).

(** [converter = TFLiteConverter.from_keras_model(model)], with
    [converter.optimizations] set, and [converter.convert()] *)
Definition tflite_convert (model : Model) (optimizations : list Optimize)
  : M Bytes :=
  note (CallConvert model optimizations) ;;
  Py.call (convert model optimizations).

(** [with open(p, 'wb') as f: f.write(data)] *)
Definition open_write (p : FS.Path) (data : Bytes) : M unit :=
  note (CallWrite p data) ;;
  m <- Py.get ;;
  match FS.write_file p data (fs m) with
  | Some t => Py.modify (with_fs t)
  | None => Py.raise Py.OSError
  end.

(** [shutil.copy(src, dst)]: into [dst] when it is a directory *)
Definition shutil_copy (src dst : FS.Path) : M unit :=
  note (CallCopy src dst) ;;
  m <- Py.get ;;
  match FS.read_file src (fs m) with
  | None => Py.raise Py.OSError
  | Some data =>
      let target :=
        match FS.lookup dst (fs m) with
        | Some (FS.Dir _) => dst ++ [last src ""]
        | _ => dst
        end in
      match FS.write_file target data (fs m) with
      | Some t => Py.modify (with_fs t)
      | None => Py.raise Py.OSError
      end
  end.

(** [l[-1]] *)
Definition last_item {A} (l : list A) : M A :=
  match List.rev l with
  | a :: _ => Py.ret a
  | [] => Py.raise Py.IndexError
  end.

Definition datagen : ImageDataGenerator := {|
  rescale := 1 / 255;
  rotation_range := 15;
  width_shift_range := 0.1;
  height_shift_range := 0.1;
  zoom_range := 0.1;
  horizontal_flip := false;
  validation_split := 0.2
|}.

Definition train_args : FlowArgs := {|
  directory := TRAINING_DATA_DIR;
  target_size := (IMAGE_SIZE, IMAGE_SIZE);
  batch_size := BATCH_SIZE;
  class_mode := "sparse";
  subset := "training";
  shuffle := true
|}.

Definition validation_args : FlowArgs := {|
  directory := TRAINING_DATA_DIR;
  target_size := (IMAGE_SIZE, IMAGE_SIZE);
  batch_size := BATCH_SIZE;
  class_mode := "sparse";
  subset := "validation";
  shuffle := false
|}.

(** Lines 73-95 *)
Definition layers (num_classes : nat) : list Layer :=
  [ Input (IMAGE_SIZE, IMAGE_SIZE, 3);
    Conv2D 32 (3, 3) "relu" "same";
    BatchNormalization;
    Conv2D 32 (3, 3) "relu" "same";
    MaxPooling2D (2, 2);
    Dropout 0.25;
    Conv2D 64 (3, 3) "relu" "same";
    BatchNormalization;
    Conv2D 64 (3, 3) "relu" "same";
    MaxPooling2D (2, 2);
    Dropout 0.25;
    Flatten;
    Dense 256 "relu";
    BatchNormalization;
    Dropout 0.5;
    Dense num_classes "softmax" ].

Definition compile_args : CompileArgs := {|
  optimizer := Adam LEARNING_RATE;
  loss_name := "sparse_categorical_crossentropy";
  metrics := ["accuracy"]
|}.

(** Lines 110-124 *)
Definition callbacks : list Callback :=
  [ ReduceLROnPlateau "val_loss" 0.5 3 1 0.00001;
    EarlyStopping "val_accuracy" 5 true 1 ].

Definition output_file : string := "fine_tuned_model.tflite".

(** The script *)
Definition main : M unit :=
  m <- Py.get ;;
  if negb (FS.exists_ [TRAINING_DATA_DIR] (fs m)) then Py.exit 1
  else
    train_generator <- flow datagen train_args ;;
    validation_generator <- flow datagen validation_args ;;
    let num_classes := List.length (class_indices train_generator) in
    model <- keras_Sequential (layers num_classes) ;;
    model <- model_compile model compile_args ;;
    fitted <- model_fit model train_generator EPOCHS validation_generator
                        callbacks 1 ;;
    let model := fst fitted in
    let history := snd fitted in
    final_acc <- last_item (map accuracy history) ;;
    final_val_acc <- last_item (map val_accuracy history) ;;
    tflite_model <- tflite_convert model [DEFAULT] ;;
    open_write [output_file] tflite_model ;;
    Py.try_except (shutil_copy [output_file] ["assets"; "model.tflite"])
                  (fun _ => Py.ret tt).

Definition boot (t : Tree) : Machine := {| fs := t; calls := [] |}.

Definition run (t : Tree) : Py.Res unit * Machine := main (boot t).

End Script.

(** ** A reference implementation of the library

    Small and executable: the classes are the subdirectories of the data
    directory, an epoch reports the logs that [curve] gives for its number,
    and the two callbacks watch their metric as Keras documents them.  It
    shows that the interface can be implemented and lets the script run on
    concrete trees. *)
Module Reference.

Record Gen : Type := {
  gen_args : FlowArgs;
  gen_classes : list string
}.

Record Net : Type := {
  net_layers : list Layer;
  net_compiled : option CompileArgs;
  net_lr : Q;
  net_epochs : nat;
  net_stopped : option Callback
}.

Definition flow_from_directory (g : ImageDataGenerator) (a : FlowArgs)
           (t : Tree) : Py.Exn + Gen :=
  match FS.iterdir [directory a] t with
  | Some es =>
      inr {| gen_args := a;
             gen_classes :=
               Extract.sorted
                 (map fst (filter (fun e => FS.is_dir (snd e)) es)) |}
  | None => inl Py.NotADirectoryError
  end.

Definition class_indices (g : Gen) : list (string * nat) :=
  combine (gen_classes g) (seq 0 (List.length (gen_classes g))).

Definition Sequential (ls : list Layer) : Py.Exn + Net :=
  inr {| net_layers := ls; net_compiled := None;
         net_lr := 0; net_epochs := 0; net_stopped := None |}.

Definition compile (m : Net) (a : CompileArgs) : Py.Exn + Net :=
  inr {| net_layers := net_layers m; net_compiled := Some a;
         net_lr := match optimizer a with Adam lr => lr end;
         net_epochs := net_epochs m;
         net_stopped := net_stopped m |}.

(** What a callback remembers between epochs *)
Record Watch : Type := {
  best : option Q;
  wait : nat
}.

Definition fresh : Watch := {| best := None; wait := 0 |}.

Definition monitor_of (cb : Callback) : string :=
  match cb with
  | ReduceLROnPlateau mon _ _ _ _ => mon
  | EarlyStopping mon _ _ _ => mon
  end.

Definition metric (mon : string) (l : Logs) : Q :=
  if String.eqb mon "val_loss" then val_loss l
  else if String.eqb mon "val_accuracy" then val_accuracy l
  else if String.eqb mon "accuracy" then accuracy l
  else loss l.

(** An accuracy improves upwards, a loss downwards. *)
Definition improves (mon : string) (current previous : Q) : bool :=
  if String.eqb mon "val_accuracy" || String.eqb mon "accuracy"
  then negb (Qle_bool current previous)
  else negb (Qle_bool previous current).

(** [on_epoch_end]: the new memory, the new learning rate, and whether
    the callback asks the training to stop. *)
Definition on_epoch_end (cb : Callback) (w : Watch) (lr : Q) (l : Logs)
  : Watch * Q * bool :=
  let current := metric (monitor_of cb) l in
  let improved :=
    match best w with
    | None => true
    | Some b => improves (monitor_of cb) current b
    end in
  if improved then ({| best := Some current; wait := 0 |}, lr, false)
  else
    let waited := wait w + 1 in
    match cb with
    | EarlyStopping _ patience _ _ =>
        ({| best := best w; wait := waited |}, lr, patience <=? waited)
    | ReduceLROnPlateau _ factor patience _ min_lr =>
        if patience <=? waited
        then ({| best := best w; wait := 0 |},
              Qmax (lr * factor) min_lr, false)
        else ({| best := best w; wait := waited |}, lr, false)
    end.

(** The end of an epoch for all the callbacks, in order; the last
    component is the first callback that asked to stop, if one did. *)
Fixpoint end_of_epoch (cbs : list (Callback * Watch)) (lr : Q) (l : Logs)
  : list (Callback * Watch) * Q * option Callback :=
  match cbs with
  | [] => ([], lr, None)
  | (cb, w) :: rest =>
      let '(w', lr', stop) := on_epoch_end cb w lr l in
      let '(rest', lr'', stopper) := end_of_epoch rest lr' l in
      ((cb, w') :: rest', lr'', if stop then Some cb else stopper)
  end.

Section Curve.
Variable curve : nat -> Logs.

(** The training loop: [todo] epochs remain, [epoch] is the next.  It
    returns the history, the learning rate at the end, and the callback
    that stopped it, if one did. *)
Fixpoint train (todo epoch : nat) (cbs : list (Callback * Watch))
         (lr : Q) : History * Q * option Callback :=
  match todo with
  | 0 => ([], lr, None)
  | S todo' =>
      let l := curve epoch in
      let '(cbs', lr', stopper) := end_of_epoch cbs lr l in
      match stopper with
      | Some cb => ([l], lr', Some cb)
      | None =>
          let '(h, lr'', stopper') := train todo' (S epoch) cbs' lr' in
          (l :: h, lr'', stopper')
      end
  end.

Definition fit (m : Net) (x : Gen) (epochs : nat) (v : Gen)
           (cbs : list Callback) : Py.Exn + (Net * History) :=
  match net_compiled m with
  | None => inl (Py.LibraryError "compile the model before training")
  | Some _ =>
      let '(h, lr, stopper) :=
        train epochs 0 (map (fun cb => (cb, fresh)) cbs) (net_lr m) in
      inr ({| net_layers := net_layers m;
              net_compiled := net_compiled m;
              net_lr := lr;
              net_epochs := net_epochs m + List.length h;
              net_stopped := stopper |}, h)
  end.
End Curve.

(** One byte for each layer and each epoch of training *)
Definition convert (m : Net) (o : list Optimize) : Py.Exn + Bytes :=
  inr (repeat Byte.x01 (List.length (net_layers m))
       ++ repeat Byte.x02 (net_epochs m)).

End Reference.

(** ** A concrete data set and training curve *)

(** Two classes and a stray file *)
Definition dataset : Tree :=
  FS.Dir [("trainingdata",
           FS.Dir [("A", FS.Dir [("img_0001.jpg", FS.File [Byte.xff])]);
                   ("B", FS.Dir [("img_0001.jpg", FS.File [Byte.xd8])]);
                   ("readme", FS.File [])])].

(** A training that never improves after its first epoch *)
Definition plateau (epoch : nat) : Logs :=
  {| loss := 1; accuracy := 0.5; val_loss := 1; val_accuracy := 0.5 |}.

(** The data set inside the checkout of the mobile application, which
    has an [assets] directory with an older model *)
Definition checkout : Tree :=
  FS.Dir [("trainingdata",
           FS.Dir [("A", FS.Dir [("img_0001.jpg", FS.File [Byte.xff])]);
                   ("B", FS.Dir [("img_0001.jpg", FS.File [Byte.xd8])])]);
          ("assets", FS.Dir [("model.tflite", FS.File [Byte.x00]);
                             ("labels.txt", FS.File [Byte.x41])])].

(** A working directory without anything *)
Definition nothing : Tree := FS.Dir [].

(** The data set beside a directory that has the name of the exported
    model *)
Definition blocked : Tree :=
  FS.Dir [("trainingdata",
           FS.Dir [("A", FS.Dir [("img_0001.jpg", FS.File [Byte.xff])])]);
          ("fine_tuned_model.tflite", FS.Dir [])].

End Train.

(* ================================================================== *)
(** * Facts about the file system *)
(* ================================================================== *)

Unset Implicit Arguments.

Module FSFacts.
Import FS.

Section Tree.
Variable C : Type.
Implicit Types (n t : Node C) (es : list (string * Node C)) (p q : Path).

Lemma assoc_set_same k v es : assoc k (set k v es) = Some v.
Proof.
  induction es as [|[k' n] es IH]; simpl.
  - now rewrite String.eqb_refl.
  - destruct (String.eqb k' k) eqn:E; simpl; rewrite E; auto.
Qed.

Lemma assoc_set_other k k' v es :
  k <> k' -> assoc k' (set k v es) = assoc k' es.
Proof.
  intros Hne.
  induction es as [|[k0 n] es IH]; simpl.
  - destruct (String.eqb_spec k k'); congruence.
  - destruct (String.eqb_spec k0 k) as [->|Hk]; simpl.
    + destruct (String.eqb_spec k k'); congruence.
    + now rewrite IH.
Qed.

Lemma set_absent k v es :
  assoc k es = None -> set k v es = es ++ [(k, v)].
Proof.
  induction es as [|[k' n] es IH]; simpl; auto.
  destruct (String.eqb k' k); [discriminate|].
  intros H. now rewrite IH.
Qed.

Lemma set_present k v es : assoc k es = Some v -> set k v es = es.
Proof.
  induction es as [|[k' n] es IH]; simpl; [discriminate|].
  destruct (String.eqb k' k).
  - now intros [= ->].
  - intros H. now rewrite IH.
Qed.

(** Looking up below a directory goes through its entry. *)
Lemma lookup_cons c q es :
  lookup (c :: q) (Dir es) =
  match assoc c es with Some m => lookup q m | None => None end.
Proof. reflexivity. Qed.

Lemma diverge_nil_r p : diverge p [] = false.
Proof. now destruct p. Qed.

Lemma diverge_app_l p q x : diverge p q = true -> diverge (p ++ x) q = true.
Proof.
  revert q. induction p as [|a p IH]; intros [|b q]; simpl; try discriminate.
  destruct (String.eqb a b); auto.
Qed.

Lemma diverge_app_r p q x : diverge p q = true -> diverge p (q ++ x) = true.
Proof.
  revert q. induction p as [|a p IH]; intros [|b q]; simpl; try discriminate.
  destruct (String.eqb a b); auto.
Qed.

(** A write leaves alone whatever lies off its path. *)
Lemma write_file_frame p c t t' q :
  write_file p c t = Some t' -> diverge p q = true ->
  lookup q t' = lookup q t.
Proof.
  revert t t' q.
  induction p as [|name p IH]; intros [x|es] t' q Hw Hd;
    simpl in Hw; try discriminate.
  destruct q as [|b q]; [now rewrite diverge_nil_r in Hd|].
  simpl in Hd.
  destruct (String.eqb_spec name b) as [<-|Hne].
  - destruct p as [|c' p]; [discriminate|].
    destruct (assoc name es) as [m|] eqn:Ha; [|discriminate].
    destruct (write_file (c' :: p) c m) as [m'|] eqn:Hm; [|discriminate].
    injection Hw as <-.
    rewrite !lookup_cons, assoc_set_same, Ha.
    now apply IH.
  - assert (exists v, t' = Dir (set name v es)) as [v ->].
    { destruct p as [|c' p].
      - destruct (assoc name es) as [[x|es']|]; try discriminate;
          injection Hw as <-; eauto.
      - destruct (assoc name es) as [m|]; [|discriminate].
        destruct (write_file (c' :: p) c m); [|discriminate].
        injection Hw as <-; eauto. }
    now rewrite !lookup_cons, assoc_set_other.
Qed.

Lemma lookup_empty_dir q : q <> [] -> lookup q (Dir (C:=C) []) = None.
Proof. destruct q; [congruence|reflexivity]. Qed.

(** So does [makedirs]. *)
Lemma makedirs_frame p t t' q :
  makedirs p t = Some t' -> diverge p q = true ->
  lookup q t' = lookup q t.
Proof.
  revert t t' q.
  induction p as [|c p IH]; intros [x|es] t' q Hm Hd;
    simpl in Hm; try discriminate.
  destruct q as [|b q]; [discriminate|].
  simpl in Hd.
  destruct (makedirs p _) as [m'|] eqn:Hp; [|discriminate].
  injection Hm as <-.
  destruct (String.eqb_spec c b) as [<-|Hne].
  - rewrite !lookup_cons, assoc_set_same.
    rewrite (IH _ _ _ Hp Hd).
    destruct (assoc c es); auto.
    apply lookup_empty_dir. intros ->.
    now rewrite diverge_nil_r in Hd.
  - now rewrite !lookup_cons, assoc_set_other.
Qed.

Lemma glob_lookup p ext t t' :
  lookup p t' = lookup p t -> glob p ext t' = glob p ext t.
Proof. unfold glob, iterdir. now intros ->. Qed.

Lemma glob_cons c q ext es :
  glob (c :: q) ext (Dir es) =
  match assoc c es with Some m => glob q ext m | None => [] end.
Proof.
  unfold glob, iterdir. rewrite lookup_cons.
  now destruct (assoc c es).
Qed.

Lemma glob_empty_dir q ext : glob q ext (Dir (C:=C) []) = [].
Proof. now destruct q. Qed.

(** [makedirs] adds empty directories only: at its path and below, every
    listing is what it was. *)
Lemma makedirs_below p q ext t t' :
  makedirs p t = Some t' -> glob (p ++ q) ext t' = glob (p ++ q) ext t.
Proof.
  revert t t'.
  induction p as [|c p IH]; intros [x|es] t' Hm; simpl in Hm;
    try discriminate.
  - now injection Hm as <-.
  - destruct (makedirs p _) as [m'|] eqn:Hp; [|discriminate].
    injection Hm as <-.
    simpl app. rewrite !glob_cons, assoc_set_same, (IH _ _ Hp).
    destruct (assoc c es); auto using glob_empty_dir.
Qed.

(** What [makedirs] does to a single missing or present name. *)
Lemma makedirs_one c es :
  makedirs [c] (Dir es) =
  match assoc c es with
  | None => Some (Dir (es ++ [(c, Dir [])]))
  | Some (Dir sub) => Some (Dir es)
  | Some (File _) => None
  end.
Proof.
  simpl. destruct (assoc c es) as [[x|sub]|] eqn:Ha; auto.
  - now rewrite set_present.
  - now rewrite set_absent.
Qed.

(** A file holds what was written to it. *)
Lemma read_after_write p c t t' :
  write_file p c t = Some t' -> read_file p t' = Some c.
Proof.
  revert t t'.
  induction p as [|name p IH]; intros [x|es] t' Hw; simpl in Hw;
    try discriminate.
  unfold read_file in *.
  destruct p as [|c' p].
  - assert (t' = Dir (set name (File c) es)) as ->
        by (destruct (assoc name es) as [[?|?]|]; congruence).
    now rewrite lookup_cons, assoc_set_same.
  - destruct (assoc name es) as [m|]; [|discriminate].
    destruct (write_file (c' :: p) c m) as [m'|] eqn:Hm; [|discriminate].
    injection Hw as <-.
    rewrite lookup_cons, assoc_set_same. exact (IH _ _ Hm).
Qed.

Lemma lookup_app p q t :
  lookup (p ++ q) t =
  match lookup p t with Some n => lookup q n | None => None end.
Proof.
  revert t. induction p as [|c p IH]; intros t; [reflexivity|].
  destruct t as [x|es]; [reflexivity|].
  simpl app. rewrite !lookup_cons. destruct (assoc c es); auto.
Qed.

(** Two names in one directory are off each other's path. *)
Lemma diverge_sibling p a b :
  a <> b -> diverge (p ++ [a]) (p ++ [b]) = true.
Proof.
  intros Hne. induction p as [|c p IH]; simpl.
  - now destruct (String.eqb_spec a b).
  - now rewrite String.eqb_refl.
Qed.

(** A write succeeds in an existing directory, on a name that is not a
    directory, and the directory then lists the file. *)
Lemma write_file_ok p name c : forall t es,
  lookup p t = Some (Dir es) ->
  (forall sub, assoc name es <> Some (Dir sub)) ->
  exists t',
    write_file (p ++ [name]) c t = Some t' /\
    lookup p t' = Some (Dir (set name (File c) es)).
Proof.
  induction p as [|a p IH]; intros t es Hl Hfree.
  - simpl in Hl. injection Hl as ->. simpl.
    destruct (assoc name es) as [[x|sub]|] eqn:Ha; eauto.
    now destruct (Hfree sub).
  - destruct t as [x|es0]; [discriminate|].
    rewrite lookup_cons in Hl.
    destruct (assoc a es0) as [m|] eqn:Ha; [|discriminate].
    destruct (IH m es Hl Hfree) as (m' & Hw & Hl').
    exists (Dir (set a m' es0)). split.
    + simpl app. cbn [write_file].
      destruct (p ++ [name]) as [|b r] eqn:E; [now destruct p|].
      now rewrite Ha, Hw.
    + now rewrite lookup_cons, assoc_set_same.
Qed.

(** After [makedirs] its path is a directory. *)
Lemma makedirs_is_dir p : forall t t',
  makedirs p t = Some t' -> exists es, lookup p t' = Some (Dir es).
Proof.
  induction p as [|c p IH]; intros [x|es] t' Hm; simpl in Hm;
    try discriminate.
  - injection Hm as <-. now exists es.
  - destruct (makedirs p _) as [m'|] eqn:Hp; [|discriminate].
    injection Hm as <-.
    rewrite lookup_cons, assoc_set_same. eauto.
Qed.

(** Below its path, [makedirs] changes nothing. *)
Lemma makedirs_lookup_below p q : forall t t',
  makedirs p t = Some t' -> q <> [] ->
  lookup (p ++ q) t' = lookup (p ++ q) t.
Proof.
  induction p as [|c p IH]; intros [x|es] t' Hm Hq; simpl in Hm;
    try discriminate.
  - now injection Hm as <-.
  - destruct (makedirs p _) as [m'|] eqn:Hp; [|discriminate].
    injection Hm as <-.
    simpl app. rewrite !lookup_cons, assoc_set_same, (IH _ _ Hp Hq).
    destruct (assoc c es); auto.
    apply lookup_empty_dir. now destruct p, q.
Qed.

End Tree.
End FSFacts.

(* ================================================================== *)
(** * Facts about the extractor *)
(* ================================================================== *)

Module ExtractFacts.
Import Extract.

(** ** File names *)

Lemma parse_str n : parse (str n) = Some n.
Proof.
  unfold parse, str, DecimalString.NilZero.string_of_uint.
  pose proof (DecimalNat.Unsigned.of_to n) as Hn.
  destruct (Nat.to_uint n) eqn:E;
    try (rewrite <- E at 1; rewrite <- E in Hn;
         rewrite DecimalString.NilEmpty.usu; simpl; now rewrite Hn).
  simpl in *. now rewrite <- Hn.
Qed.

Lemma parse_zeros k s : parse (zeros k ++ s) = parse s.
Proof.
  induction k as [|k IH]; simpl; auto.
  unfold parse in *. simpl.
  destruct (DecimalString.NilEmpty.uint_of_string (zeros k ++ s)) as [d|];
    destruct (DecimalString.NilEmpty.uint_of_string s) as [d'|];
    simpl in *; try congruence.
  unfold Nat.of_uint in *. simpl.
  now change (Nat.tail_mul 10 0) with 0.
Qed.

Lemma parse_fmt04d n : parse (fmt04d n) = Some n.
Proof. unfold fmt04d. now rewrite parse_zeros, parse_str. Qed.

Lemma append_length a b : String.length (a ++ b) = String.length a + String.length b.
Proof. induction a; simpl; auto. Qed.

Lemma append_cancel_r a b c : (a ++ c = b ++ c)%string -> a = b.
Proof.
  revert b. induction a as [|x a IH]; intros [|y b] H; simpl in H; auto.
  - apply (f_equal String.length) in H. simpl in H.
    rewrite append_length in H. lia.
  - apply (f_equal String.length) in H. simpl in H.
    rewrite append_length in H. lia.
  - injection H as -> H. f_equal. now apply IH.
Qed.

Lemma img_name_inj n n' : img_name n = img_name n' -> n = n'.
Proof.
  unfold img_name. intros H. simpl in H.
  injection H as H. apply append_cancel_r in H.
  apply (f_equal parse) in H. rewrite !parse_fmt04d in H. congruence.
Qed.

(** ** Sorting *)

Lemma in_insert_sorted x a l : In x (insert_sorted a l) <-> x = a \/ In x l.
Proof.
  induction l as [|y l IH]; simpl.
  - intuition.
  - destruct (String.leb a y); simpl; rewrite ?IH; intuition.
Qed.

Lemma in_sorted x l : In x (sorted l) <-> In x l.
Proof.
  induction l as [|a l IH]; simpl; [tauto|].
  rewrite in_insert_sorted, IH. intuition.
Qed.

Lemma NoDup_insert_sorted a l :
  ~ In a l -> NoDup l -> NoDup (insert_sorted a l).
Proof.
  induction l as [|y l IH]; simpl; intros Hn Hd.
  - constructor; auto.
  - destruct (String.leb a y).
    + constructor; simpl; auto.
    + inversion Hd; subst. constructor.
      * rewrite in_insert_sorted. intuition.
      * apply IH; intuition.
Qed.

Lemma NoDup_sorted l : NoDup l -> NoDup (sorted l).
Proof.
  induction 1 as [|a l Hn Hd IH]; simpl; [constructor|].
  apply NoDup_insert_sorted; auto. now rewrite in_sorted.
Qed.

(** ** The stride *)

Ltac euclid n :=
  pose proof (Nat.div_mod_eq n 5);
  pose proof (Nat.mod_upper_bound n 5 ltac:(discriminate)).

Section Stride.
Context {cv : OpenCV}.

Lemma picks_cons fc f cap :
  picks fc (f :: cap) =
  if fc mod 5 =? 0 then (fc, f) :: picks (S fc) cap else picks (S fc) cap.
Proof. reflexivity. Qed.

Ltac same_index :=
  match goal with
  | |- Some (_, _) = Some (_, _) =>
      apply f_equal; apply (f_equal2 pair); [lia | reflexivity]
  end.

(** When the next multiple of the interval is [d] frames ahead, the
    [k]-th frame kept is the one [d + 5 k] frames ahead. *)
Lemma picks_nth cap : forall fc d k,
  d < 5 -> (fc + d) mod 5 = 0 ->
  nth_error (picks fc cap) k =
  option_map (fun f => (fc + d + 5 * k, f)) (nth_error cap (d + 5 * k)).
Proof.
  induction cap as [|f cap IH]; intros fc d k Hd Hm.
  - simpl. now destruct k, d.
  - rewrite picks_cons.
    destruct (Nat.eqb_spec (fc mod 5) 0) as [H0|H0].
    + assert (d = 0) as -> by (euclid fc; euclid (fc + d); lia).
      destruct k as [|k].
      * cbn [nth_error Nat.mul Nat.add option_map]. same_index.
      * replace (0 + 5 * S k) with (S (4 + 5 * k)) by lia.
        cbn [nth_error].
        rewrite (IH (S fc) 4 k)
          by (try lia; euclid fc; euclid (S fc + 4); lia).
        destruct (nth_error cap (4 + 5 * k)); cbn [option_map];
          [same_index | reflexivity].
    + destruct d as [|d]; [rewrite Nat.add_0_r in Hm; contradiction|].
      rewrite (IH (S fc) d k)
        by (try lia; replace (S fc + d) with (fc + S d) by lia; auto).
      change (S d + 5 * k) with (S (d + 5 * k)). cbn [nth_error].
      destruct (nth_error cap (d + 5 * k)); cbn [option_map];
        [same_index | reflexivity].
Qed.

Lemma picks_some cap k :
  nth_error (picks 0 cap) k <> None <-> k < (List.length cap + 4) / 5.
Proof.
  rewrite (picks_nth cap 0 0 k) by (auto; lia).
  change (0 + 5 * k) with (5 * k).
  assert (Hn : 5 * k < List.length cap <-> k < (List.length cap + 4) / 5)
    by (euclid (List.length cap + 4); lia).
  rewrite <- Hn, <- nth_error_Some.
  destruct (nth_error cap (5 * k)); simpl; split; congruence.
Qed.

Lemma picks_length cap :
  List.length (picks 0 cap) = (List.length cap + 4) / 5.
Proof.
  pose proof (picks_some cap (List.length (picks 0 cap))) as H1.
  pose proof (picks_some cap ((List.length cap + 4) / 5)) as H2.
  rewrite nth_error_Some in H1, H2.
  destruct H1, H2. lia.
Qed.

End Stride.

(** ** The steps of the script *)

(** Run the first call of a sequence, whose outcome [E] gives. *)
Ltac run_with E := unfold Py.bind at 1; rewrite E.

Section Steps.
Context {cv : OpenCV}.
Implicit Types (m : Machine) (evs : list Event) (t : Tree).

Lemma untouched_refl d t : untouched d t t.
Proof. now intros q _. Qed.

Lemma untouched_trans d t1 t2 t3 :
  untouched d t1 t2 -> untouched d t2 t3 -> untouched d t1 t3.
Proof. intros H1 H2 q Hq. now rewrite H2, H1. Qed.

Lemma untouched_below d x t t' : untouched (d ++ x) t t' -> untouched d t t'.
Proof. intros H q Hq. apply H. now apply FSFacts.diverge_app_l. Qed.

Lemma imwrite_paths_app evs evs' :
  imwrite_paths (evs ++ evs') = imwrite_paths evs ++ imwrite_paths evs'.
Proof.
  induction evs as [|[| |] evs IH]; simpl; auto. now rewrite IH.
Qed.

Lemma saved_app evs evs' : saved (evs ++ evs') = saved evs + saved evs'.
Proof. unfold saved. now rewrite imwrite_paths_app, length_app. Qed.

Lemma opened_app evs evs' : opened (evs ++ evs') = opened evs + opened evs'.
Proof.
  induction evs as [|[?|? []|] evs IH]; simpl; auto.
Qed.

Lemma write_events_paths vp od sel : forall n,
  imwrite_paths (write_events vp od n sel) =
  map (fun k => od ++ [img_name k]) (seq n (List.length sel)).
Proof.
  induction sel as [|[i f] sel IH]; intros n; simpl; auto.
  now rewrite IH.
Qed.

Lemma write_events_saved vp od n sel :
  saved (write_events vp od n sel) = List.length sel.
Proof.
  unfold saved. now rewrite write_events_paths, length_map, length_seq.
Qed.

Lemma write_events_length vp od sel : forall n,
  List.length (write_events vp od n sel) = List.length sel.
Proof. induction sel as [|[i f] sel IH]; intros n; simpl; auto. Qed.

Lemma write_events_opened vp od sel : forall n,
  opened (write_events vp od n sel) = 0.
Proof. induction sel as [|[i f] sel IH]; intros n; simpl; auto. Qed.

Lemma write_events_nth vp od sel : forall n k,
  nth_error (write_events vp od n sel) k =
  option_map (fun s => EvImwrite (od ++ [img_name (n + k)])
                         (cv2_resize (snd s) (IMAGE_SIZE, IMAGE_SIZE))
                         vp (fst s))
             (nth_error sel k).
Proof.
  induction sel as [|[i f] sel IH]; intros n [|k]; simpl; auto.
  - now rewrite Nat.add_0_r.
  - rewrite IH. now replace (S n + k) with (n + S k) by lia.
Qed.

(** [cv2.imwrite] records its call and touches nothing off its path. *)
Lemma imwrite_spec p img vp i m :
  exists m',
    cv2_imwrite p img vp i m = (Py.Ok tt, m') /\
    trace m' = trace m ++ [EvImwrite p img vp i] /\
    total_frames m' = total_frames m /\
    total_videos m' = total_videos m /\
    untouched p (fs m) (fs m').
Proof.
  unfold cv2_imwrite.
  destruct (FS.write_file p (Jpeg img) (fs m)) as [t|] eqn:Hw;
    eexists; (split; [reflexivity|]); simpl; repeat split.
  intros q Hq. eapply FSFacts.write_file_frame; eauto.
Qed.

(** The loop over the frames of one capture *)
Lemma read_loop_spec cap : forall vp od ec ffl fc sc m,
  exists m',
    read_loop cap vp od ec ffl fc sc m
      = (Py.Ok (sc + List.length (picks fc cap)), m') /\
    trace m' = trace m
               ++ write_events vp od (ec + ffl + sc + 1) (picks fc cap) /\
    total_frames m' = total_frames m /\
    total_videos m' = total_videos m /\
    untouched od (fs m) (fs m').
Proof.
  induction cap as [|f cap IH]; intros vp od ec ffl fc sc m.
  - exists m. simpl. unfold Py.ret.
    rewrite Nat.add_0_r, app_nil_r. auto using untouched_refl.
  - cbn [read_loop]. rewrite picks_cons. change FRAME_INTERVAL with 5.
    destruct (fc mod 5 =? 0); cbv zeta.
    + destruct (imwrite_spec
                  (od ++ [img_name (ec + ffl + sc + 1)])
                  (cv2_resize f (IMAGE_SIZE, IMAGE_SIZE)) vp fc m)
        as (m1 & E1 & T1 & F1 & V1 & U1).
      run_with E1.
      destruct (IH vp od ec ffl (fc + 1) (sc + 1) m1)
        as (m' & E & T & F & V & U).
      exists m'. rewrite E, T, T1, F, V, F1, V1.
      replace (fc + 1) with (S fc) by lia.
      replace (ec + ffl + (sc + 1) + 1) with (S (ec + ffl + sc + 1)) by lia.
      cbn [List.length write_events]. rewrite <- app_assoc.
      repeat split; try (f_equal; f_equal; lia).
      eapply untouched_trans; [|exact U].
      eapply untouched_below; eauto.
    + destruct (IH vp od ec ffl (fc + 1) sc m) as (m' & E & T & F & V & U).
      exists m'. rewrite E, T, F, V.
      replace (fc + 1) with (S fc) by lia. auto.
Qed.

(** Every frame kept is the frame of the capture at its index. *)
Lemma picks_in cap i f : In (i, f) (picks 0 cap) -> nth_error cap i = Some f.
Proof.
  intros H. apply In_nth_error in H as [k Hk].
  rewrite (picks_nth cap 0 0 k) in Hk by (auto; lia).
  change (0 + 5 * k) with (5 * k) in Hk.
  destruct (nth_error cap (5 * k)) eqn:E; simpl in Hk; [|discriminate].
  now injection Hk as <- <-.
Qed.

Lemma write_events_sampled lf od t file frames sel :
  FS.read_file (lf ++ [file]) t = Some (Video frames) ->
  (forall i f, In (i, f) sel -> nth_error frames i = Some f) ->
  forall n, Forall (sampled lf od t) (write_events (lf ++ [file]) od n sel).
Proof.
  intros Hr. induction sel as [|[i f] sel IH]; intros Hsel n; simpl.
  - constructor.
  - constructor.
    + exists file, n, frames, f. repeat split; auto. apply Hsel. now left.
    + apply IH. intros i' f' Hin. apply Hsel. now right.
Qed.

Lemma sampled_transfer lf od t t' e :
  (forall file, FS.lookup (lf ++ [file]) t' = FS.lookup (lf ++ [file]) t) ->
  sampled lf od t e -> sampled lf od t' e.
Proof.
  intros Hsame. destruct e as [| |p img vp i]; simpl; auto.
  intros (file & n & frames & f & -> & -> & Hr & Hn & ->).
  exists file, n, frames, f. repeat split; auto.
  unfold FS.read_file in *. now rewrite Hsame.
Qed.

Lemma VideoCapture_spec vp m :
  (exists frames,
      FS.read_file vp (fs m) = Some (Video frames) /\
      VideoCapture vp m = (Py.Ok (Some frames), log (EvOpen vp true) m)) \/
  ((forall frames, FS.read_file vp (fs m) <> Some (Video frames)) /\
   VideoCapture vp m = (Py.Ok None, log (EvOpen vp false) m)).
Proof.
  unfold VideoCapture.
  destruct (FS.read_file vp (fs m)) as [[frames| |]|];
    [left; eauto | right | right | right]; split; auto; congruence.
Qed.

(** The body of the loop over the videos of one letter folder *)
Lemma video_body_spec lf od ec name ffl m :
  FS.diverge od lf = true ->
  exists m' evs,
    video_body name lf od ec ffl m = (Py.Ok (ffl + saved evs), m') /\
    trace m' = trace m ++ evs /\
    total_frames m' = total_frames m /\
    total_videos m' = total_videos m + opened evs /\
    untouched od (fs m) (fs m') /\
    imwrite_paths evs =
      map (fun k => od ++ [img_name k]) (seq (ec + ffl + 1) (saved evs)) /\
    Forall (sampled lf od (fs m)) evs.
Proof.
  intros Hd. unfold video_body. cbv zeta.
  destruct (VideoCapture_spec (lf ++ [name]) m)
    as [(frames & Hr & E)|(Hr & E)]; run_with E.
  - destruct (read_loop_spec frames (lf ++ [name]) od ec ffl 0 0
                             (log (EvOpen (lf ++ [name]) true) m))
      as (m1 & E1 & T1 & F1 & V1 & U1).
    run_with E1. unfold Py.bind, Py.modify, Py.ret.
    exists (set_totals (total_frames m1) (total_videos m1 + 1) m1),
      (EvOpen (lf ++ [name]) true
       :: write_events (lf ++ [name]) od (ec + ffl + 0 + 1) (picks 0 frames)).
    change (saved (EvOpen (lf ++ [name]) true :: ?l)) with (saved l).
    rewrite write_events_saved. simpl in T1, F1, V1, U1 |- *.
    rewrite T1, F1, V1, write_events_opened, write_events_paths,
      <- app_assoc.
    replace (ec + ffl + 0 + 1) with (ec + ffl + 1) by lia.
    repeat split; auto; try lia.
    constructor; [exact I|].
    now apply write_events_sampled with (frames := frames);
      auto using picks_in.
  - exists (log (EvOpen (lf ++ [name]) false) m), [EvOpen (lf ++ [name]) false].
    unfold Py.ret. simpl. rewrite !Nat.add_0_r.
    repeat split; auto using untouched_refl. now repeat constructor.
Qed.

(** The loop over the videos of one letter folder *)
Lemma video_loop_spec lf od ec files : forall ffl m,
  FS.diverge od lf = true ->
  exists m' evs,
    video_loop files lf od ec ffl m = (Py.Ok (ffl + saved evs), m') /\
    trace m' = trace m ++ evs /\
    total_frames m' = total_frames m /\
    total_videos m' = total_videos m + opened evs /\
    untouched od (fs m) (fs m') /\
    imwrite_paths evs =
      map (fun k => od ++ [img_name k]) (seq (ec + ffl + 1) (saved evs)) /\
    Forall (sampled lf od (fs m)) evs.
Proof.
  induction files as [|name rest IH]; intros ffl m Hd.
  - exists m, []. simpl. unfold Py.ret.
    rewrite Nat.add_0_r, app_nil_r. auto 10 using untouched_refl.
  - cbn [video_loop].
    destruct (video_body_spec lf od ec name ffl m Hd)
      as (m1 & evs1 & E1 & T1 & F1 & V1 & U1 & P1 & S1).
    run_with E1.
    destruct (IH (ffl + saved evs1) m1 Hd)
      as (m' & evs2 & E2 & T2 & F2 & V2 & U2 & P2 & S2).
    exists m', (evs1 ++ evs2).
    rewrite E2, T2, T1, F2, F1, V2, V1, saved_app, opened_app,
      imwrite_paths_app, P1, P2, seq_app, map_app, <- app_assoc.
    repeat split; try lia.
    + now rewrite Nat.add_assoc.
    + eapply untouched_trans; eauto.
    + now replace (ec + (ffl + saved evs1) + 1)
        with (ec + ffl + 1 + saved evs1) by lia.
    + apply Forall_app. split; auto.
      eapply Forall_impl; [|exact S2]. intros e.
      apply sampled_transfer. intros file. symmetry.
      apply U1. now apply FSFacts.diverge_app_r.
Qed.

Lemma glob_all_spec lf exts m :
  glob_all lf exts m =
  (Py.Ok (flat_map (fun ext => map fst (FS.glob lf ext (fs m))) exts), m).
Proof.
  induction exts as [|e exts IH]; [reflexivity|].
  cbn [glob_all flat_map]. unfold Py.bind. unfold glob at 1.
  now rewrite IH.
Qed.

(** The folder of one sign is off the path of the folder of another. *)
Lemma other_sign s s' q :
  s <> s' ->
  FS.diverge [OUTPUT_FOLDER; s] (OUTPUT_FOLDER :: s' :: q) = true.
Proof.
  intros H. simpl. now destruct (String.eqb_spec s s').
Qed.

Lemma jpg_count_untouched s s' t t' :
  s <> s' -> untouched [OUTPUT_FOLDER; s] t t' ->
  jpg_count t' s' = jpg_count t s'.
Proof.
  intros Hne U. unfold jpg_count. f_equal.
  apply FSFacts.glob_lookup. apply U. now apply other_sign.
Qed.

(** The body of the loop over the letter folders *)
Lemma letter_body_spec s m :
  exists r m' evs,
    letter_body s m = (r, m') /\
    trace m' = trace m ++ evs /\
    total_frames m' = total_frames m + saved evs /\
    total_videos m' = total_videos m + opened evs /\
    untouched [OUTPUT_FOLDER; s] (fs m) (fs m') /\
    imwrite_paths evs = numbered s (jpg_count (fs m) s + 1) (saved evs) /\
    Forall (sampled [VIDEO_FOLDER; s] [OUTPUT_FOLDER; s] (fs m)) evs.
Proof.
  unfold letter_body. cbv zeta.
  run_with (glob_all_spec [VIDEO_FOLDER; s] VIDEO_EXTENSIONS m).
  set (files := flat_map _ VIDEO_EXTENSIONS).
  destruct (List.length files =? 0).
  { exists (Py.Ok tt), m, []. unfold Py.ret. simpl.
    rewrite app_nil_r, !Nat.add_0_r. auto 10 using untouched_refl. }
  unfold Py.bind at 1, os_makedirs.
  destruct (FS.makedirs [OUTPUT_FOLDER; s] (fs m)) as [t1|] eqn:Hmk.
  - set (m1 := with_fs t1 _).
    unfold Py.bind at 1. unfold glob at 1.
    assert (Hec : List.length
                    (map fst (FS.glob [OUTPUT_FOLDER; s] ".jpg" (fs m1)))
                  = jpg_count (fs m) s).
    { rewrite length_map. unfold jpg_count. f_equal.
      exact (FSFacts.makedirs_below _ [OUTPUT_FOLDER; s] [] ".jpg"
                                    (fs m) t1 Hmk). }
    rewrite Hec.
    destruct (video_loop_spec [VIDEO_FOLDER; s] [OUTPUT_FOLDER; s]
                              (jpg_count (fs m) s) files 0 m1 eq_refl)
      as (m2 & evs & E & T & F & V & U & P & Sm).
    run_with E. unfold Py.modify.
    eexists (Py.Ok tt), _, (EvMakedirs [OUTPUT_FOLDER; s] :: evs).
    split; [reflexivity|]. simpl in T, F, V, U, Sm |- *.
    assert (U1 : untouched [OUTPUT_FOLDER; s] (fs m) t1).
    { intros q Hq. eapply FSFacts.makedirs_frame; eauto. }
    rewrite T, F, V, <- app_assoc. repeat split; auto.
    + eapply untouched_trans; eauto.
    + rewrite P. unfold numbered.
      replace (jpg_count (fs m) s + 0 + 1) with (jpg_count (fs m) s + 1)
        by lia.
      reflexivity.
    + constructor; [exact I|].
      eapply Forall_impl; [|exact Sm]. intros e.
      apply sampled_transfer. intros file. symmetry. now apply U1.
  - eexists (Py.Raise Py.FileExistsError), _, [EvMakedirs [OUTPUT_FOLDER; s]].
    split; [reflexivity|]. simpl.
    rewrite !Nat.add_0_r. repeat split; auto using untouched_refl.
    now repeat constructor.
Qed.

Lemma flat_map_same {A B} (f g : A -> list B) l :
  (forall a, In a l -> f a = g a) -> flat_map f l = flat_map g l.
Proof.
  induction l as [|a l IH]; simpl; intros H; auto.
  rewrite H, IH; auto.
Qed.

Lemma flat_map_none {A B} (f : A -> list B) l :
  (forall a, In a l -> f a = []) -> flat_map f l = [].
Proof.
  induction l as [|a l IH]; simpl; intros H; auto.
  rewrite H, IH; auto.
Qed.

(** The videos are off the path of every output folder. *)
Lemma videos_off s q :
  FS.diverge [OUTPUT_FOLDER; s] (VIDEO_FOLDER :: q) = true.
Proof. reflexivity. Qed.

Lemma sampled_from_transfer t t' e :
  (forall q, FS.lookup (VIDEO_FOLDER :: q) t' = FS.lookup (VIDEO_FOLDER :: q) t) ->
  sampled_from t e -> sampled_from t' e.
Proof.
  intros H [s Hs]. exists s. revert Hs. apply sampled_transfer.
  intros file. apply H.
Qed.

(** The loop over the letter folders: counters and provenance *)
Lemma letters_spec names : forall m,
  exists r m' evs,
    for_each names letter_body m = (r, m') /\
    trace m' = trace m ++ evs /\
    total_frames m' = total_frames m + saved evs /\
    total_videos m' = total_videos m + opened evs /\
    (forall q, FS.lookup (VIDEO_FOLDER :: q) (fs m')
               = FS.lookup (VIDEO_FOLDER :: q) (fs m)) /\
    Forall (sampled_from (fs m)) evs.
Proof.
  induction names as [|s names IH]; intros m.
  - exists (Py.Ok tt), m, []. simpl. unfold Py.ret.
    rewrite app_nil_r, !Nat.add_0_r. auto 10.
  - destruct (letter_body_spec s m)
      as (r1 & m1 & evs1 & E1 & T1 & F1 & V1 & U1 & _ & S1).
    assert (S1' : Forall (sampled_from (fs m)) evs1).
    { eapply Forall_impl; [|exact S1]. intros e He. now exists s. }
    assert (K1 : forall q, FS.lookup (VIDEO_FOLDER :: q) (fs m1)
                           = FS.lookup (VIDEO_FOLDER :: q) (fs m)).
    { intros q. apply U1, videos_off. }
    cbn [for_each]. run_with E1.
    destruct r1 as [[]| |].
    + destruct (IH m1) as (r & m' & evs2 & E2 & T2 & F2 & V2 & K2 & S2).
      exists r, m', (evs1 ++ evs2).
      rewrite E2, T2, T1, F2, F1, V2, V1, saved_app, opened_app, app_assoc.
      repeat split; try lia.
      * intros q. now rewrite K2, K1.
      * apply Forall_app. split; auto.
        eapply Forall_impl; [|exact S2]. intros e.
        apply sampled_from_transfer. intros q. now rewrite K1.
    + exists (Py.Exit status), m1, evs1. auto 10.
    + exists (Py.Raise e), m1, evs1. auto 10.
Qed.

(** The loop over the letter folders: the names written *)
Lemma letters_naming names : forall m,
  NoDup names ->
  exists r m' evs saved_of,
    for_each names letter_body m = (r, m') /\
    trace m' = trace m ++ evs /\
    imwrite_paths evs =
      flat_map (fun s => numbered s (jpg_count (fs m) s + 1) (saved_of s))
               names.
Proof.
  induction names as [|s names IH]; intros m Hnd.
  - exists (Py.Ok tt), m, [], (fun _ => 0). simpl. unfold Py.ret.
    now rewrite app_nil_r.
  - inversion Hnd as [|? ? Hs Hnd']; subst.
    destruct (letter_body_spec s m)
      as (r1 & m1 & evs1 & E1 & T1 & _ & _ & U1 & P1 & _).
    cbn [for_each flat_map]. run_with E1.
    destruct r1 as [[]| |].
    + destruct (IH m1 Hnd') as (r & m' & evs2 & so & E2 & T2 & P2).
      exists r, m', (evs1 ++ evs2),
        (fun x => if String.eqb x s then saved evs1 else so x).
      rewrite E2, T2, T1, imwrite_paths_app, P1, P2, app_assoc,
        String.eqb_refl.
      repeat split. f_equal. apply flat_map_same.
      intros s' Hin. destruct (String.eqb_spec s' s) as [->|Hne];
        [contradiction|].
      now rewrite (jpg_count_untouched s s' (fs m) (fs m1)) by auto.
    + exists (Py.Exit status), m1, evs1,
        (fun x => if String.eqb x s then saved evs1 else 0).
      rewrite String.eqb_refl, P1, flat_map_none, app_nil_r; auto.
      intros s' Hin. destruct (String.eqb_spec s' s) as [->|Hne];
        [contradiction|reflexivity].
    + exists (Py.Raise e), m1, evs1,
        (fun x => if String.eqb x s then saved evs1 else 0).
      rewrite String.eqb_refl, P1, flat_map_none, app_nil_r; auto.
      intros s' Hin. destruct (String.eqb_spec s' s) as [->|Hne];
        [contradiction|reflexivity].
Qed.

(** ** The whole run *)

(** Creating the output folder leaves the videos alone. *)
Lemma makedirs_output_videos t t1 q :
  FS.makedirs [OUTPUT_FOLDER] t = Some t1 ->
  FS.lookup (VIDEO_FOLDER :: q) t1 = FS.lookup (VIDEO_FOLDER :: q) t.
Proof.
  intros H. eapply FSFacts.makedirs_frame; eauto.
Qed.

Lemma run_unfold t :
  run t =
  if negb (FS.exists_ [VIDEO_FOLDER] t) then (Py.Exit 1, boot t)
  else
    match FS.makedirs [OUTPUT_FOLDER] t with
    | None =>
        (Py.Raise Py.FileExistsError,
         log (EvMakedirs [OUTPUT_FOLDER]) (boot t))
    | Some t1 =>
        match FS.iterdir [VIDEO_FOLDER] t with
        | None => (Py.Raise Py.NotADirectoryError, prepared t t1)
        | Some _ =>
            if List.length (letter_dirs t) =? 0
            then (Py.Exit 1, prepared t t1)
            else for_each (sorted (letter_dirs t)) letter_body
                          (set_totals 0 0 (prepared t t1))
        end
    end.
Proof.
  unfold run, main. unfold Py.bind at 1, Py.get. cbn [fs boot].
  destruct (negb (FS.exists_ [VIDEO_FOLDER] t)); [reflexivity|].
  unfold Py.bind at 1, os_makedirs. cbn [fs boot].
  destruct (FS.makedirs [OUTPUT_FOLDER] t) as [t1|] eqn:Hmk; [|reflexivity].
  fold (prepared t t1).
  unfold Py.bind at 1, iterdir_dirs, letter_dirs, FS.iterdir.
  change (fs (prepared t t1)) with t1.
  rewrite (makedirs_output_videos t t1 [] Hmk).
  destruct (FS.lookup [VIDEO_FOLDER] t) as [[c|es]|]; try reflexivity.
  destruct (List.length _ =? 0); reflexivity.
Qed.

Lemma run_totals t :
  total_frames (snd (run t)) = saved (trace (snd (run t))) /\
  total_videos (snd (run t)) = opened (trace (snd (run t))).
Proof.
  rewrite run_unfold.
  destruct (negb _); [now split|].
  destruct (FS.makedirs _ t) as [t1|]; [|now split].
  destruct (FS.iterdir _ t); [|now split].
  destruct (_ =? 0); [now split|].
  destruct (letters_spec (sorted (letter_dirs t))
                         (set_totals 0 0 (prepared t t1)))
    as (r & m' & evs & E & T & F & V & _).
  rewrite E. cbn [snd]. rewrite T, F, V. now split.
Qed.

Lemma run_sampled t : Forall (sampled_from t) (trace (snd (run t))).
Proof.
  rewrite run_unfold.
  destruct (negb _); [constructor|].
  destruct (FS.makedirs _ t) as [t1|] eqn:Hmk;
    [|repeat constructor; now exists ""].
  assert (H0 : Forall (sampled_from t) (trace (prepared t t1)))
    by (repeat constructor; now exists "").
  destruct (FS.iterdir _ t); [|exact H0].
  destruct (_ =? 0); [exact H0|].
  destruct (letters_spec (sorted (letter_dirs t))
                         (set_totals 0 0 (prepared t t1)))
    as (r & m' & evs & E & T & _ & _ & _ & Sm).
  rewrite E. cbn [snd]. rewrite T. apply Forall_app. split; [exact H0|].
  eapply Forall_impl; [|exact Sm]. intros e.
  apply sampled_from_transfer. intros q. symmetry.
  now apply makedirs_output_videos.
Qed.

Lemma run_naming t :
  NoDup (letter_dirs t) ->
  exists saved_of,
    imwrite_paths (trace (snd (run t))) =
    flat_map (fun s => numbered s (jpg_count t s + 1) (saved_of s))
             (sorted (letter_dirs t)).
Proof.
  intros Hnd.
  assert (Hnone : forall l,
             flat_map (fun s => numbered s (jpg_count t s + 1) 0) l = [])
    by (intros l; now apply flat_map_none).
  rewrite run_unfold.
  destruct (negb _); [now exists (fun _ => 0)|].
  destruct (FS.makedirs _ t) as [t1|] eqn:Hmk; [|now exists (fun _ => 0)].
  destruct (FS.iterdir _ t); [|now exists (fun _ => 0)].
  destruct (_ =? 0); [now exists (fun _ => 0)|].
  destruct (letters_naming (sorted (letter_dirs t))
                           (set_totals 0 0 (prepared t t1))
                           (NoDup_sorted _ Hnd))
    as (r & m' & evs & so & E & T & P).
  exists so. rewrite E. cbn [snd]. rewrite T, imwrite_paths_app, P.
  simpl. apply flat_map_same. intros s _. do 2 f_equal.
  unfold jpg_count. f_equal.
  exact (FSFacts.makedirs_below _ [OUTPUT_FOLDER] [s] ".jpg" t t1 Hmk).
Qed.

(** ** The images due *)

Lemma due_app t evs evs' : due t (evs ++ evs') = due t evs + due t evs'.
Proof. unfold due. now rewrite map_app, list_sum_app. Qed.

Lemma due_write_events t vp od sel : forall n,
  due t (write_events vp od n sel) = 0 /\
  Forall under_videos (write_events vp od n sel).
Proof.
  induction sel as [|[i f] sel IH]; intros n; simpl.
  - split; [reflexivity|constructor].
  - destruct (IH (S n)) as [H1 H2]. split; [exact H1|].
    constructor; [exact I|exact H2].
Qed.

Lemma due_transfer t t' evs :
  Forall under_videos evs ->
  (forall q, FS.lookup (VIDEO_FOLDER :: q) t'
             = FS.lookup (VIDEO_FOLDER :: q) t) ->
  due t' evs = due t evs.
Proof.
  intros Hu Hsame. unfold due. f_equal. apply map_ext_in.
  intros e He. rewrite Forall_forall in Hu. specialize (Hu e He).
  destruct e as [|[|c vp] []|]; cbn [frames_due under_videos] in *;
    try easy.
  subst c. unfold FS.read_file. now rewrite Hsame.
Qed.

Lemma video_body_due s ec name ffl m :
  exists m' evs,
    video_body name [VIDEO_FOLDER; s] [OUTPUT_FOLDER; s] ec ffl m
      = (Py.Ok (ffl + saved evs), m') /\
    trace m' = trace m ++ evs /\
    untouched [OUTPUT_FOLDER; s] (fs m) (fs m') /\
    Forall under_videos evs /\
    saved evs = due (fs m) evs.
Proof.
  unfold video_body. cbv zeta.
  set (vp := [VIDEO_FOLDER; s] ++ [name]).
  destruct (VideoCapture_spec vp m) as [(frames & Hr & E)|(Hr & E)];
    run_with E.
  - destruct (read_loop_spec frames vp [OUTPUT_FOLDER; s] ec ffl 0 0
                             (log (EvOpen vp true) m))
      as (m1 & E1 & T1 & F1 & V1 & U1).
    run_with E1. unfold Py.bind, Py.modify, Py.ret.
    set (W := write_events vp [OUTPUT_FOLDER; s] (ec + ffl + 0 + 1)
                           (picks 0 frames)) in *.
    destruct (due_write_events (fs m) vp [OUTPUT_FOLDER; s]
                (picks 0 frames) (ec + ffl + 0 + 1)) as [D0 U0].
    exists (set_totals (total_frames m1) (total_videos m1 + 1) m1),
      (EvOpen vp true :: W).
    change (saved (EvOpen vp true :: W)) with (saved W).
    change (due (fs m) (EvOpen vp true :: W))
      with (frames_due (fs m) (EvOpen vp true) + due (fs m) W).
    fold W in D0, U0. rewrite D0. unfold W at 1 4.
    rewrite write_events_saved, picks_length.
    cbn [frames_due]. rewrite Hr.
    simpl in T1, U1. cbn [trace fs set_totals].
    rewrite T1, <- app_assoc.
    repeat split; auto. now constructor.
  - exists (log (EvOpen vp false) m), [EvOpen vp false].
    unfold Py.ret. cbn. rewrite Nat.add_0_r.
    repeat split; auto using untouched_refl. now repeat constructor.
Qed.

Lemma video_loop_due s ec files : forall ffl m,
  exists m' evs,
    video_loop files [VIDEO_FOLDER; s] [OUTPUT_FOLDER; s] ec ffl m
      = (Py.Ok (ffl + saved evs), m') /\
    trace m' = trace m ++ evs /\
    untouched [OUTPUT_FOLDER; s] (fs m) (fs m') /\
    Forall under_videos evs /\
    saved evs = due (fs m) evs.
Proof.
  induction files as [|name rest IH]; intros ffl m.
  - exists m, []. cbn. unfold Py.ret.
    rewrite Nat.add_0_r, app_nil_r. auto using untouched_refl.
  - cbn [video_loop].
    destruct (video_body_due s ec name ffl m)
      as (m1 & evs1 & E1 & T1 & U1 & O1 & D1).
    run_with E1.
    destruct (IH (ffl + saved evs1) m1)
      as (m' & evs2 & E2 & T2 & U2 & O2 & D2).
    exists m', (evs1 ++ evs2).
    rewrite E2, T2, T1, saved_app, due_app, D1, D2, <- app_assoc.
    rewrite (due_transfer (fs m) (fs m1) evs2 O2)
      by (intros q; apply U1, videos_off).
    repeat split; auto.
    + now rewrite <- D1, Nat.add_assoc.
    + eapply untouched_trans; eauto.
    + now apply Forall_app.
Qed.

Lemma letter_body_due s m :
  exists r m' evs,
    letter_body s m = (r, m') /\
    trace m' = trace m ++ evs /\
    untouched [OUTPUT_FOLDER; s] (fs m) (fs m') /\
    Forall under_videos evs /\
    saved evs = due (fs m) evs.
Proof.
  unfold letter_body. cbv zeta.
  run_with (glob_all_spec [VIDEO_FOLDER; s] VIDEO_EXTENSIONS m).
  set (files := flat_map _ VIDEO_EXTENSIONS).
  destruct (List.length files =? 0).
  { exists (Py.Ok tt), m, []. unfold Py.ret. cbn.
    rewrite app_nil_r. auto using untouched_refl. }
  unfold Py.bind at 1, os_makedirs.
  destruct (FS.makedirs [OUTPUT_FOLDER; s] (fs m)) as [t1|] eqn:Hmk.
  - set (m1 := with_fs t1 _).
    unfold Py.bind at 1. unfold glob at 1.
    destruct (video_loop_due s
                (List.length
                   (map fst (FS.glob [OUTPUT_FOLDER; s] ".jpg" (fs m1))))
                files 0 m1)
      as (m2 & evs & E & T & U & O & D).
    run_with E. unfold Py.modify.
    eexists (Py.Ok tt), _, (EvMakedirs [OUTPUT_FOLDER; s] :: evs).
    split; [reflexivity|].
    assert (U1 : untouched [OUTPUT_FOLDER; s] (fs m) t1).
    { intros q Hq. eapply FSFacts.makedirs_frame; eauto. }
    cbn [trace fs set_totals]. simpl in T, U, D.
    rewrite T, <- app_assoc.
    change (saved (EvMakedirs [OUTPUT_FOLDER; s] :: evs)) with (saved evs).
    change (due (fs m) (EvMakedirs [OUTPUT_FOLDER; s] :: evs))
      with (due (fs m) evs).
    rewrite D, (due_transfer (fs m) t1 evs O)
      by (intros q; apply U1, videos_off).
    repeat split; auto.
    + eapply untouched_trans; eauto.
    + now constructor.
  - eexists (Py.Raise Py.FileExistsError), _, [EvMakedirs [OUTPUT_FOLDER; s]].
    split; [reflexivity|]. cbn.
    repeat split; auto using untouched_refl. now repeat constructor.
Qed.

Lemma letters_due names : forall m,
  exists r m' evs,
    for_each names letter_body m = (r, m') /\
    trace m' = trace m ++ evs /\
    (forall q, FS.lookup (VIDEO_FOLDER :: q) (fs m')
               = FS.lookup (VIDEO_FOLDER :: q) (fs m)) /\
    Forall under_videos evs /\
    saved evs = due (fs m) evs.
Proof.
  induction names as [|s names IH]; intros m.
  - exists (Py.Ok tt), m, []. cbn. unfold Py.ret.
    rewrite app_nil_r. auto.
  - destruct (letter_body_due s m) as (r1 & m1 & evs1 & E1 & T1 & U1 & O1 & D1).
    assert (K1 : forall q, FS.lookup (VIDEO_FOLDER :: q) (fs m1)
                           = FS.lookup (VIDEO_FOLDER :: q) (fs m)).
    { intros q. apply U1, videos_off. }
    cbn [for_each]. run_with E1.
    destruct r1 as [[]| |].
    + destruct (IH m1) as (r & m' & evs2 & E2 & T2 & K2 & O2 & D2).
      exists r, m', (evs1 ++ evs2).
      rewrite E2, T2, T1, saved_app, due_app, D1, D2, app_assoc.
      rewrite (due_transfer (fs m) (fs m1) evs2 O2 K1).
      repeat split; auto.
      * intros q. now rewrite K2, K1.
      * now apply Forall_app.
    + exists (Py.Exit status), m1, evs1. auto.
    + exists (Py.Raise e), m1, evs1. auto.
Qed.

Lemma run_due t :
  saved (trace (snd (run t))) = due t (trace (snd (run t))).
Proof.
  rewrite run_unfold.
  destruct (negb _); [reflexivity|].
  destruct (FS.makedirs _ t) as [t1|] eqn:Hmk; [|reflexivity].
  destruct (FS.iterdir _ t); [|reflexivity].
  destruct (_ =? 0); [reflexivity|].
  destruct (letters_due (sorted (letter_dirs t))
                        (set_totals 0 0 (prepared t t1)))
    as (r & m' & evs & E & T & _ & O & D).
  rewrite E. cbn [snd]. rewrite T. cbn [trace prepared set_totals with_fs log boot app].
  change (saved (EvMakedirs [OUTPUT_FOLDER] :: evs)) with (saved evs).
  change (due t (EvMakedirs [OUTPUT_FOLDER] :: evs)) with (due t evs).
  rewrite D. cbn [fs set_totals prepared with_fs].
  apply due_transfer; auto.
  intros q. now apply makedirs_output_videos.
Qed.

(** ** The images on disk *)

Lemma in_imwrite_paths p img vp i evs :
  In (EvImwrite p img vp i) evs -> In p (imwrite_paths evs).
Proof.
  induction evs as [|e evs IH]; simpl; [tauto|].
  intros [->|H]; [now left|].
  destruct e; simpl; auto.
Qed.

Lemma read_file_lookup p t t' :
  FS.lookup p t' = FS.lookup p t ->
  FS.read_file p t' = FS.read_file (C := Content) p t.
Proof. unfold FS.read_file. now intros ->. Qed.

Lemma imwrite_lands d n img vp i m es :
  FS.lookup d (fs m) = Some (FS.Dir es) -> free d (fs m) ->
  exists m' es',
    cv2_imwrite (d ++ [img_name n]) img vp i m = (Py.Ok tt, m') /\
    FS.read_file (d ++ [img_name n]) (fs m') = Some (Jpeg img) /\
    FS.lookup d (fs m') = Some (FS.Dir es') /\
    free d (fs m') /\
    untouched (d ++ [img_name n]) (fs m) (fs m').
Proof.
  intros Hd Hfree.
  assert (Hname : forall sub, FS.assoc (img_name n) es <> Some (FS.Dir sub)).
  { intros sub Ha. apply (Hfree n sub).
    rewrite FSFacts.lookup_app, Hd, FSFacts.lookup_cons, Ha. reflexivity. }
  destruct (FSFacts.write_file_ok _ d (img_name n) (Jpeg img) (fs m) es
                                  Hd Hname) as (t' & Hw & Hd').
  unfold cv2_imwrite. rewrite Hw.
  pose proof (FSFacts.read_after_write _ _ _ _ _ Hw) as Hr.
  assert (U : untouched (d ++ [img_name n]) (fs m) t').
  { intros q Hq. eapply FSFacts.write_file_frame; eauto. }
  eexists _, _. split; [reflexivity|]. cbn [fs with_fs log].
  repeat split; eauto.
  intros n' sub Hsub.
  destruct (String.string_dec (img_name n) (img_name n')) as [E|E].
  - rewrite <- E in Hsub. unfold FS.read_file in Hr.
    rewrite Hsub in Hr. discriminate.
  - rewrite (U _ (FSFacts.diverge_sibling d _ _ E)) in Hsub.
    now apply (Hfree n' sub).
Qed.

Lemma read_loop_lands cap : forall vp d ec ffl fc sc m es,
  FS.lookup d (fs m) = Some (FS.Dir es) -> free d (fs m) ->
  exists m' es',
    read_loop cap vp d ec ffl fc sc m
      = (Py.Ok (sc + List.length (picks fc cap)), m') /\
    FS.lookup d (fs m') = Some (FS.Dir es') /\
    free d (fs m') /\
    landed (fs m') (write_events vp d (ec + ffl + sc + 1) (picks fc cap)) /\
    (forall k, k < ec + ffl + sc + 1 ->
       FS.lookup (d ++ [img_name k]) (fs m')
       = FS.lookup (d ++ [img_name k]) (fs m)).
Proof.
  induction cap as [|f cap IH]; intros vp d ec ffl fc sc m es Hd Hfree.
  - exists m, es. cbn. unfold Py.ret. rewrite Nat.add_0_r.
    repeat split; auto. intros p img vp' i [].
  - cbn [read_loop]. rewrite picks_cons. change FRAME_INTERVAL with 5.
    destruct (fc mod 5 =? 0); cbv zeta.
    + destruct (imwrite_lands d (ec + ffl + sc + 1)
                  (cv2_resize f (IMAGE_SIZE, IMAGE_SIZE)) vp fc m es Hd Hfree)
        as (m1 & es1 & E1 & R1 & D1 & F1 & U1).
      run_with E1.
      destruct (IH vp d ec ffl (fc + 1) (sc + 1) m1 es1 D1 F1)
        as (m' & es' & E & D & F & L & K).
      exists m', es'. rewrite E.
      replace (fc + 1) with (S fc) in * by lia.
      replace (ec + ffl + (sc + 1) + 1) with (S (ec + ffl + sc + 1)) in *
        by lia.
      cbn [List.length write_events].
      repeat split; auto.
      * f_equal. f_equal. lia.
      * intros p img vp' i [H|H]; [|now apply (L p img vp' i)].
        injection H as <- <- _ _.
        rewrite <- R1. apply read_file_lookup, K. lia.
      * intros k Hk. rewrite K by lia. apply U1.
        apply FSFacts.diverge_sibling. intros Heq.
        apply img_name_inj in Heq. lia.
    + destruct (IH vp d ec ffl (fc + 1) sc m es Hd Hfree)
        as (m' & es' & E & D & F & L & K).
      exists m', es'. rewrite E.
      replace (fc + 1) with (S fc) in * by lia. repeat split; auto.
Qed.

Lemma video_body_lands lf d ec name ffl m es :
  FS.lookup d (fs m) = Some (FS.Dir es) -> free d (fs m) ->
  exists m' evs es',
    video_body name lf d ec ffl m = (Py.Ok (ffl + saved evs), m') /\
    trace m' = trace m ++ evs /\
    FS.lookup d (fs m') = Some (FS.Dir es') /\
    free d (fs m') /\
    landed (fs m') evs /\
    (forall k, k < ec + ffl + 1 ->
       FS.lookup (d ++ [img_name k]) (fs m')
       = FS.lookup (d ++ [img_name k]) (fs m)) /\
    imwrite_paths evs =
      map (fun k => d ++ [img_name k]) (seq (ec + ffl + 1) (saved evs)).
Proof.
  intros Hd Hfree. unfold video_body. cbv zeta.
  destruct (VideoCapture_spec (lf ++ [name]) m)
    as [(frames & Hr & E)|(Hr & E)]; run_with E.
  - destruct (read_loop_spec frames (lf ++ [name]) d ec ffl 0 0
                             (log (EvOpen (lf ++ [name]) true) m))
      as (m1 & E1 & T1 & _).
    destruct (read_loop_lands frames (lf ++ [name]) d ec ffl 0 0
                (log (EvOpen (lf ++ [name]) true) m) es Hd Hfree)
      as (m1' & es' & E1' & D1 & F1 & L1 & K1).
    rewrite E1 in E1'. injection E1' as <-.
    run_with E1. unfold Py.bind, Py.modify, Py.ret.
    exists (set_totals (total_frames m1) (total_videos m1 + 1) m1),
      (EvOpen (lf ++ [name]) true
       :: write_events (lf ++ [name]) d (ec + ffl + 0 + 1) (picks 0 frames)),
      es'.
    change (saved (EvOpen (lf ++ [name]) true :: ?l)) with (saved l).
    rewrite write_events_saved. cbn [trace fs set_totals].
    simpl in T1, K1. rewrite T1, <- app_assoc.
    change (imwrite_paths (EvOpen (lf ++ [name]) true :: ?l))
      with (imwrite_paths l).
    rewrite write_events_paths.
    replace (ec + ffl + 0 + 1) with (ec + ffl + 1) in * by lia.
    repeat split; auto.
    intros p img vp' i [H|H]; [discriminate|]. now apply (L1 p img vp' i).
  - exists (log (EvOpen (lf ++ [name]) false) m),
      [EvOpen (lf ++ [name]) false], es.
    unfold Py.ret. cbn. rewrite Nat.add_0_r.
    repeat split; auto. intros p img vp' i [H|[]]. discriminate.
Qed.

Lemma video_loop_lands lf d ec files : forall ffl m es,
  FS.lookup d (fs m) = Some (FS.Dir es) -> free d (fs m) ->
  exists m' evs,
    video_loop files lf d ec ffl m = (Py.Ok (ffl + saved evs), m') /\
    trace m' = trace m ++ evs /\
    landed (fs m') evs /\
    (forall k, k < ec + ffl + 1 ->
       FS.lookup (d ++ [img_name k]) (fs m')
       = FS.lookup (d ++ [img_name k]) (fs m)).
Proof.
  induction files as [|name rest IH]; intros ffl m es Hd Hfree.
  - exists m, []. cbn. unfold Py.ret. rewrite Nat.add_0_r, app_nil_r.
    repeat split; auto. intros p img vp i [].
  - cbn [video_loop].
    destruct (video_body_lands lf d ec name ffl m es Hd Hfree)
      as (m1 & evs1 & es1 & E1 & T1 & D1 & F1 & L1 & K1 & P1).
    run_with E1.
    destruct (IH (ffl + saved evs1) m1 es1 D1 F1)
      as (m' & evs2 & E2 & T2 & L2 & K2).
    exists m', (evs1 ++ evs2).
    rewrite E2, T2, T1, saved_app, <- app_assoc.
    repeat split; auto.
    + now rewrite Nat.add_assoc.
    + intros p img vp i Hin. apply in_app_or in Hin as [Hin|Hin];
        [|now apply (L2 p img vp i)].
      rewrite <- (L1 p img vp i Hin).
      apply in_imwrite_paths in Hin. rewrite P1 in Hin.
      apply in_map_iff in Hin as (k & <- & Hk). apply in_seq in Hk.
      apply read_file_lookup, K2. lia.
    + intros k Hk. rewrite K2 by lia. now apply K1.
Qed.

Lemma letter_body_lands s m :
  free [OUTPUT_FOLDER; s] (fs m) ->
  exists r m' evs,
    letter_body s m = (r, m') /\
    trace m' = trace m ++ evs /\
    landed (fs m') evs.
Proof.
  intros Hfree. unfold letter_body. cbv zeta.
  run_with (glob_all_spec [VIDEO_FOLDER; s] VIDEO_EXTENSIONS m).
  set (files := flat_map _ VIDEO_EXTENSIONS).
  destruct (List.length files =? 0).
  { exists (Py.Ok tt), m, []. unfold Py.ret. cbn. rewrite app_nil_r.
    repeat split. intros p img vp i []. }
  unfold Py.bind at 1, os_makedirs.
  destruct (FS.makedirs [OUTPUT_FOLDER; s] (fs m)) as [t1|] eqn:Hmk.
  - set (m1 := with_fs t1 _).
    unfold Py.bind at 1. unfold glob at 1.
    destruct (FSFacts.makedirs_is_dir _ _ _ _ Hmk) as [es Hd].
    assert (Hfree1 : free [OUTPUT_FOLDER; s] (fs m1)).
    { intros n sub. cbn [fs m1 with_fs].
      rewrite (FSFacts.makedirs_lookup_below _ [OUTPUT_FOLDER; s]
                 [img_name n] _ _ Hmk) by discriminate.
      apply Hfree. }
    destruct (video_loop_lands [VIDEO_FOLDER; s] [OUTPUT_FOLDER; s]
                (List.length
                   (map fst (FS.glob [OUTPUT_FOLDER; s] ".jpg" (fs m1))))
                files 0 m1 es Hd Hfree1)
      as (m2 & evs & E & T & L & _).
    run_with E. unfold Py.modify.
    eexists (Py.Ok tt), _, (EvMakedirs [OUTPUT_FOLDER; s] :: evs).
    split; [reflexivity|]. cbn [trace fs set_totals]. simpl in T.
    rewrite T, <- app_assoc. split; [reflexivity|].
    intros p img vp i [H|H]; [discriminate|]. now apply (L p img vp i).
  - eexists (Py.Raise Py.FileExistsError), _, [EvMakedirs [OUTPUT_FOLDER; s]].
    split; [reflexivity|]. cbn. split; [reflexivity|].
    intros p img vp i [H|[]]. discriminate.
Qed.

Lemma letters_lands names : forall m,
  NoDup names ->
  (forall s, In s names -> free [OUTPUT_FOLDER; s] (fs m)) ->
  exists r m' evs,
    for_each names letter_body m = (r, m') /\
    trace m' = trace m ++ evs /\
    landed (fs m') evs /\
    (forall s0 q, ~ In s0 names ->
       FS.lookup (OUTPUT_FOLDER :: s0 :: q) (fs m')
       = FS.lookup (OUTPUT_FOLDER :: s0 :: q) (fs m)).
Proof.
  induction names as [|s names IH]; intros m Hnd Hfree.
  - exists (Py.Ok tt), m, []. cbn. unfold Py.ret. rewrite app_nil_r.
    repeat split. intros p img vp i [].
  - inversion Hnd as [|? ? Hs Hnd']; subst.
    destruct (letter_body_spec s m)
      as (r1 & m1 & evs1 & E1 & T1 & _ & _ & U1 & P1 & _).
    destruct (letter_body_lands s m (Hfree s (or_introl eq_refl)))
      as (r1' & m1' & evs1' & E1' & T1' & L1).
    rewrite E1 in E1'. injection E1' as <- <-.
    rewrite T1 in T1'. apply app_inv_head in T1'. subst evs1'.
    assert (K1 : forall s0 q, s0 <> s ->
               FS.lookup (OUTPUT_FOLDER :: s0 :: q) (fs m1)
               = FS.lookup (OUTPUT_FOLDER :: s0 :: q) (fs m)).
    { intros s0 q Hne. apply U1, other_sign. congruence. }
    cbn [for_each]. run_with E1.
    destruct r1 as [[]| |].
    + destruct (IH m1 Hnd') as (r & m' & evs2 & E2 & T2 & L2 & K2).
      { intros s' Hin n sub. cbn [app]. rewrite (K1 s' [img_name n]).
        - apply (Hfree s' (or_intror Hin) n sub).
        - intros ->. contradiction. }
      exists r, m', (evs1 ++ evs2).
      rewrite E2, T2, T1, app_assoc. repeat split; auto.
      * intros p img vp i Hin. apply in_app_or in Hin as [Hin|Hin];
          [|now apply (L2 p img vp i)].
        rewrite <- (L1 p img vp i Hin).
        apply in_imwrite_paths in Hin. rewrite P1 in Hin.
        apply in_map_iff in Hin as (k & <- & _).
        apply read_file_lookup, K2, Hs.
      * intros s0 q Hn. rewrite K2, K1; auto; intros Hin;
          apply Hn; [now left|now right].
    + exists (Py.Exit status), m1, evs1. repeat split; auto.
      intros s0 q Hn. apply K1. intros ->. apply Hn. now left.
    + exists (Py.Raise e), m1, evs1. repeat split; auto.
      intros s0 q Hn. apply K1. intros ->. apply Hn. now left.
Qed.

(** At the end of a run, every image written is on disk under its name:
    when the letter folders have distinct names and no directory sits
    where an image would go. *)
Lemma run_lands t :
  NoDup (letter_dirs t) ->
  (forall s, free [OUTPUT_FOLDER; s] t) ->
  landed (fs (snd (run t))) (trace (snd (run t))).
Proof.
  intros Hnd Hfree. rewrite run_unfold.
  assert (H0 : forall t', landed t' [EvMakedirs [OUTPUT_FOLDER]])
    by (intros t' p img vp i [H|[]]; discriminate).
  destruct (negb _); [intros p img vp i []|].
  destruct (FS.makedirs _ t) as [t1|] eqn:Hmk; [|apply H0].
  destruct (FS.iterdir _ t); [|apply H0].
  destruct (_ =? 0); [apply H0|].
  destruct (letters_lands (sorted (letter_dirs t))
                          (set_totals 0 0 (prepared t t1))
                          (NoDup_sorted _ Hnd))
    as (r & m' & evs & E & T & L & _).
  { intros s _ n sub. cbn [fs set_totals prepared with_fs].
    change ([OUTPUT_FOLDER; s] ++ [img_name n])
      with ([OUTPUT_FOLDER] ++ [s; img_name n]).
    rewrite (FSFacts.makedirs_lookup_below _ [OUTPUT_FOLDER]
               [s; img_name n] _ _ Hmk) by discriminate.
    apply (Hfree s n sub). }
  rewrite E. cbn [snd]. rewrite T.
  intros p img vp i [H|H]; [discriminate|]. now apply (L p img vp i).
Qed.

(** Distinct signs and distinct numbers give distinct names. *)
Lemma numbered_NoDup (first : string -> nat) (count : string -> nat) names :
  NoDup names ->
  NoDup (flat_map (fun s => numbered s (first s) (count s)) names).
Proof.
  induction 1 as [|s names Hs Hnd IH]; simpl; [constructor|].
  apply NoDup_app; auto.
  - unfold numbered. apply Finite.Injective_map_NoDup; [|apply seq_NoDup].
    intros a b H. apply img_name_inj.
    exact (f_equal (fun l => nth 2 l "") H).
  - intros p Hp Hq. unfold numbered in Hp.
    apply in_map_iff in Hp as (n & <- & _).
    apply in_flat_map in Hq as (s' & Hin & Hq).
    apply in_map_iff in Hq as (n' & [= -> _] & _). contradiction.
Qed.

Lemma named_NoDup od first count :
  NoDup (map (fun k => od ++ [img_name k]) (seq first count)).
Proof.
  apply Finite.Injective_map_NoDup; [|apply seq_NoDup].
  intros a b H. apply app_inv_head in H. apply img_name_inj.
  exact (f_equal (fun l => nth 0 l "") H).
Qed.

(** ** What the writes leave alone, and what they leave on disk *)

Lemma outside_refl ps t : outside ps t t.
Proof. now intros q _. Qed.

Lemma outside_trans ps t1 t2 t3 :
  outside ps t1 t2 -> outside ps t2 t3 -> outside ps t1 t3.
Proof. intros H1 H2 q Hq. now rewrite H2, H1. Qed.

Lemma outside_incl ps ps' t t' :
  incl ps ps' -> outside ps t t' -> outside ps' t t'.
Proof. intros Hi H q Hq. apply H. intros p Hp. apply Hq, Hi, Hp. Qed.

Lemma untouched_outside p t t' : untouched p t t' -> outside [p] t t'.
Proof. intros U q Hq. apply U, Hq. now left. Qed.

Lemma read_loop_outside cap : forall vp od ec ffl fc sc m,
  outside
    (imwrite_paths (write_events vp od (ec + ffl + sc + 1) (picks fc cap)))
    (fs m) (fs (snd (read_loop cap vp od ec ffl fc sc m))).
Proof.
  induction cap as [|f cap IH]; intros vp od ec ffl fc sc m.
  - apply outside_refl.
  - cbn [read_loop]. rewrite picks_cons. change FRAME_INTERVAL with 5.
    destruct (fc mod 5 =? 0); cbv zeta.
    + destruct (imwrite_spec
                  (od ++ [img_name (ec + ffl + sc + 1)])
                  (cv2_resize f (IMAGE_SIZE, IMAGE_SIZE)) vp fc m)
        as (m1 & E1 & _ & _ & _ & U1).
      run_with E1. specialize (IH vp od ec ffl (fc + 1) (sc + 1) m1).
      replace (fc + 1) with (S fc) in * by lia.
      replace (ec + ffl + (sc + 1) + 1) with (S (ec + ffl + sc + 1)) in IH
        by lia.
      cbn [write_events imwrite_paths].
      eapply outside_trans.
      * eapply outside_incl; [|apply untouched_outside, U1].
        intros p [<-|[]]. now left.
      * eapply outside_incl; [|exact IH]. intros p Hp. now right.
    + specialize (IH vp od ec ffl (fc + 1) sc m).
      now replace (fc + 1) with (S fc) in * by lia.
Qed.

Lemma landed_tail t e evs : landed t (e :: evs) -> landed t evs.
Proof. intros L p img vp i Hin. apply (L p img vp i). now right. Qed.

(** When every image written is in its file, as many images are on disk
    as calls were made. *)
Lemma stored_landed t evs : landed t evs -> stored t evs = saved evs.
Proof.
  unfold stored, saved.
  induction evs as [|e evs IH]; intros L; [reflexivity|].
  specialize (IH (landed_tail _ _ _ L)).
  destruct e as [p|vp o|p img vp i]; cbn [imwrite_paths filter]; auto.
  rewrite (L p img vp i (or_introl eq_refl)). cbn [is_image List.length].
  now f_equal.
Qed.

End Steps.
End ExtractFacts.

(* ================================================================== *)
(** * The extractor meets its specification *)
(* ================================================================== *)

Module ExtractSpec.
Import Extract ExtractFacts.

Section Claims.
Context {cv : OpenCV}.

(** C1, as amended.  A video that opens and decodes to [N] frames yields
    exactly [ceil(N / 5)] calls of [cv2.imwrite], in decode order: the
    [k]-th is on the resized frame of index [5 k], under the next free
    number; a frame is passed exactly when its index is a multiple of
    [FRAME_INTERVAL]; the count the body adds to [frames_for_letter] is
    that number of calls; and the tree changes at the paths of these
    calls only.  When the output folder is there and no directory sits
    where an image would go, the calls leave exactly [ceil(N / 5)] images
    on disk, under distinct names, each in the file it was written to. *)
Theorem C1_fixed_stride_sampling name lf od ec ffl m frames :
  FS.read_file (lf ++ [name]) (fs m) = Some (Video frames) ->
  let n := (List.length frames + 4) / 5 in
  exists m' evs,
    video_body name lf od ec ffl m = (Py.Ok (ffl + n), m') /\
    trace m' = trace m ++ EvOpen (lf ++ [name]) true :: evs /\
    List.length evs = n /\
    (forall k, k < n ->
       exists f,
         nth_error frames (FRAME_INTERVAL * k) = Some f /\
         nth_error evs k =
           Some (EvImwrite (od ++ [img_name (ec + ffl + k + 1)])
                           (cv2_resize f (IMAGE_SIZE, IMAGE_SIZE))
                           (lf ++ [name]) (FRAME_INTERVAL * k))) /\
    (forall i, i < List.length frames ->
       (exists p img, In (EvImwrite p img (lf ++ [name]) i) evs)
       <-> i mod FRAME_INTERVAL = 0) /\
    outside (imwrite_paths evs) (fs m) (fs m') /\
    (forall es,
       FS.lookup od (fs m) = Some (FS.Dir es) -> free od (fs m) ->
       stored (fs m') evs = n /\
       NoDup (imwrite_paths evs) /\
       landed (fs m') evs).
Proof.
  intros Hr n.
  assert (Hdisk : forall es,
            FS.lookup od (fs m) = Some (FS.Dir es) -> free od (fs m) ->
            exists m2 evs2,
              video_body name lf od ec ffl m = (Py.Ok (ffl + saved evs2), m2) /\
              trace m2 = trace m ++ evs2 /\
              landed (fs m2) evs2 /\
              imwrite_paths evs2 =
                map (fun k => od ++ [img_name k])
                    (seq (ec + ffl + 1) (saved evs2))).
  { intros es Hd Hfree.
    destruct (video_body_lands lf od ec name ffl m es Hd Hfree)
      as (m2 & evs2 & es2 & E2 & T2 & _ & _ & L2 & _ & P2).
    exists m2, evs2. auto. }
  pose proof (read_loop_outside frames (lf ++ [name]) od ec ffl 0 0
                                (log (EvOpen (lf ++ [name]) true) m))
    as O1.
  destruct (read_loop_spec frames (lf ++ [name]) od ec ffl 0 0
                           (log (EvOpen (lf ++ [name]) true) m))
    as (m1 & E1 & T1 & _).
  rewrite E1 in O1. cbn [snd fs log] in O1.
  assert (Emain : video_body name lf od ec ffl m
                  = (Py.Ok (ffl + (0 + List.length (picks 0 frames))),
                     set_totals (total_frames m1) (total_videos m1 + 1) m1)).
  { unfold video_body. cbv zeta.
    unfold Py.bind at 1, VideoCapture. rewrite Hr.
    now run_with E1. }
  rewrite Emain in *.
  set (evs := write_events (lf ++ [name]) od (ec + ffl + 0 + 1)
                           (picks 0 frames)) in *.
  assert (Hnth : forall k, k < n ->
            exists f,
              nth_error frames (5 * k) = Some f /\
              nth_error evs k =
                Some (EvImwrite (od ++ [img_name (ec + ffl + k + 1)])
                                (cv2_resize f (IMAGE_SIZE, IMAGE_SIZE))
                                (lf ++ [name]) (5 * k))).
  { intros k Hk. unfold evs.
    rewrite write_events_nth, (picks_nth frames 0 0 k) by (auto; lia).
    change (0 + 5 * k) with (5 * k).
    destruct (nth_error frames (5 * k)) as [f|] eqn:E.
    - exists f. split; auto. cbn [option_map fst snd].
      now replace (ec + ffl + 0 + 1 + k) with (ec + ffl + k + 1) by lia.
    - apply nth_error_None in E. unfold n in Hk.
      euclid (List.length frames + 4). lia. }
  assert (Hlen : List.length evs = n).
  { unfold evs. now rewrite write_events_length, picks_length. }
  exists (set_totals (total_frames m1) (total_videos m1 + 1) m1), evs.
  rewrite picks_length. fold n. simpl in T1. cbn [trace set_totals].
  rewrite T1, <- app_assoc. change (0 + n) with n.
  split; [reflexivity|]. split; [reflexivity|]. split; [exact Hlen|].
  split; [exact Hnth|]. split; [|split; [exact O1|]].
  2: { intros es Hd Hfree.
       destruct (Hdisk es Hd Hfree) as (m2 & evs2 & E2 & T2 & L2 & P2).
       injection E2 as _ <-. cbn [trace set_totals] in T2.
       rewrite T1, <- app_assoc in T2. apply app_inv_head in T2.
       cbn [app] in T2. subst evs2.
       change (imwrite_paths (EvOpen (lf ++ [name]) true :: evs))
         with (imwrite_paths evs) in P2.
       apply landed_tail in L2. cbn [fs set_totals] in *.
       split; [|split; [|exact L2]].
       - rewrite (stored_landed _ _ L2). unfold evs.
         now rewrite write_events_saved, picks_length.
       - rewrite P2. apply named_NoDup. }
  intros i Hi. split.
  - intros (p & img & Hin).
    apply In_nth_error in Hin as [k Hk].
    assert (k < n) as Hlt
        by (rewrite <- Hlen; apply nth_error_Some; congruence).
    destruct (Hnth k Hlt) as (f & _ & Hev).
    rewrite Hev in Hk. injection Hk as _ _ <-.
    change ((5 * k) mod 5 = 0).
    rewrite Nat.mul_comm. apply Nat.Div0.mod_mul.
  - intros Hmod. change FRAME_INTERVAL with 5 in Hmod.
    assert (Hk : i / 5 < n)
      by (unfold n; euclid i; euclid (List.length frames + 4); lia).
    destruct (Hnth _ Hk) as (f & _ & Hev).
    replace (5 * (i / 5)) with i in Hev by (euclid i; lia).
    apply nth_error_In in Hev. eauto.
Qed.

(** C2. Sequential file naming.  When the letter folders have distinct
    names, the images a run writes are, folder by folder in sorted order,
    [img_%04d.jpg] for consecutive numbers starting one above the number of
    [*.jpg] entries the output folder of the sign held before the run; and
    no path is written twice. *)
Theorem C2_sequential_file_naming t :
  NoDup (letter_dirs t) ->
  exists saved_of : string -> nat,
    imwrite_paths (trace (snd (run t))) =
      flat_map (fun s => numbered s (jpg_count t s + 1) (saved_of s))
               (sorted (letter_dirs t)) /\
    NoDup (imwrite_paths (trace (snd (run t)))).
Proof.
  intros Hnd. destruct (run_naming t Hnd) as [so P].
  exists so. split; [exact P|].
  rewrite P. apply numbered_NoDup. now apply NoDup_sorted.
Qed.

(** C3. Labeled dataset.  Every image of a run is written into the output
    folder named after the letter folder of the video it was taken from:
    the label of the image is the name of the parent folder of the video.
    When the letter folders have distinct names and no directory sits
    where an image would go, the image is in that file at the end of the
    run. *)
Theorem C3_labeled_dataset t p img vp i :
  In (EvImwrite p img vp i) (trace (snd (run t))) ->
  exists sign_name file n frames,
    vp = [VIDEO_FOLDER; sign_name; file] /\
    FS.read_file vp t = Some (Video frames) /\
    p = [OUTPUT_FOLDER; sign_name; img_name n] /\
    label p = Some sign_name /\
    label vp = Some sign_name /\
    (NoDup (letter_dirs t) ->
     (forall s, free [OUTPUT_FOLDER; s] t) ->
     FS.read_file p (fs (snd (run t))) = Some (Jpeg img)).
Proof.
  intros Hin.
  pose proof (run_sampled t) as H. rewrite Forall_forall in H.
  destruct (H _ Hin) as (s & file & n & frames & f & -> & -> & Hr & _).
  exists s, file, n, frames. repeat split; auto.
  intros Hnd Hfree. exact (run_lands t Hnd Hfree _ _ _ _ Hin).
Qed.

(** C4, as amended.  Every image of a run is the result of resizing a
    decoded frame of its video to [IMAGE_SIZE] by [IMAGE_SIZE] = 224 by 224
    and has that shape, whatever the shape of the frame was. *)
Theorem C4_resized_before_write t p img vp i :
  In (EvImwrite p img vp i) (trace (snd (run t))) ->
  exists frames f,
    FS.read_file vp t = Some (Video frames) /\
    nth_error frames i = Some f /\
    img = cv2_resize f (IMAGE_SIZE, IMAGE_SIZE) /\
    shape img = (224, 224).
Proof.
  intros Hin.
  pose proof (run_sampled t) as H. rewrite Forall_forall in H.
  destruct (H _ Hin) as (s & file & n & frames & f & -> & -> & Hr & Hf & ->).
  exists frames, f. repeat split; auto. apply cv2_resize_shape.
Qed.

(** C9. Error exits.  Without the video folder the run exits with
    status 1 and has done nothing.  With a video folder that holds no
    directory the run ends with status 1 after the single call that makes
    the output folder: the folder is added, empty, when it was missing, the
    tree is unchanged otherwise, no video was opened and no image
    written. *)
Theorem C9_error_exits t :
  (FS.exists_ [VIDEO_FOLDER] t = false ->
   run t = (Py.Exit 1, boot t)) /\
  (FS.exists_ [VIDEO_FOLDER] t = true -> letter_dirs t = [] ->
   Py.exit_status (fst (run t)) = 1 /\
   trace (snd (run t)) = [EvMakedirs [OUTPUT_FOLDER]] /\
   (FS.exists_ [OUTPUT_FOLDER] t = true -> fs (snd (run t)) = t) /\
   (FS.exists_ [OUTPUT_FOLDER] t = false ->
    exists es,
      t = FS.Dir es /\
      fs (snd (run t)) = FS.Dir (es ++ [(OUTPUT_FOLDER, FS.Dir [])]))).
Proof.
  rewrite run_unfold. split.
  - now intros ->.
  - intros Hv Hl. rewrite Hv, Hl. cbn [negb List.length Nat.eqb].
    destruct t as [c|es]; [discriminate|].
    rewrite FSFacts.makedirs_one.
    unfold FS.exists_. cbn [FS.lookup].
    destruct (FS.assoc OUTPUT_FOLDER es) as [[c|sub]|] eqn:Ha.
    + repeat split; auto. discriminate.
    + destruct (FS.iterdir [VIDEO_FOLDER] (FS.Dir es));
        repeat split; auto; discriminate.
    + destruct (FS.iterdir [VIDEO_FOLDER] (FS.Dir es));
        repeat split; try discriminate; eauto.
Qed.

(** C10, as amended.  A letter folder in which no name has a supported
    extension leaves the machine as it was.  A video that does not open
    adds its failed opening to the trace and nothing else:
    [frames_for_letter], the counters and the tree stay.  At the end of
    every run [total_videos] is the number of captures that opened and
    [total_frames] is the number of calls of [cv2.imwrite], which is the
    sum, over the captures that opened, of the images due for the video.
    When the letter folders have distinct names and no directory sits
    where an image would go, that is the number of images the run left on
    disk: the calls were on distinct paths and each image is in its
    file. *)
Theorem C10_skipping_leaves_state_unchanged :
  (forall s m,
     (forall ext, In ext VIDEO_EXTENSIONS ->
                  FS.glob [VIDEO_FOLDER; s] ext (fs m) = []) ->
     letter_body s m = (Py.Ok tt, m)) /\
  (forall name lf od ec ffl m,
     (forall frames,
        FS.read_file (lf ++ [name]) (fs m) <> Some (Video frames)) ->
     video_body name lf od ec ffl m
       = (Py.Ok ffl, log (EvOpen (lf ++ [name]) false) m)) /\
  (forall t,
     total_videos (snd (run t)) = opened (trace (snd (run t))) /\
     total_frames (snd (run t)) = saved (trace (snd (run t))) /\
     total_frames (snd (run t)) = due t (trace (snd (run t))) /\
     (NoDup (letter_dirs t) ->
      (forall s, free [OUTPUT_FOLDER; s] t) ->
      total_frames (snd (run t))
        = stored (fs (snd (run t))) (trace (snd (run t))) /\
      NoDup (imwrite_paths (trace (snd (run t)))) /\
      landed (fs (snd (run t))) (trace (snd (run t))))).
Proof.
  split; [|split].
  - intros s m Hnone. unfold letter_body. cbv zeta.
    run_with (glob_all_spec [VIDEO_FOLDER; s] VIDEO_EXTENSIONS m).
    rewrite flat_map_none; [reflexivity|].
    intros ext Hin. now rewrite Hnone.
  - intros name lf od ec ffl m Hno. unfold video_body. cbv zeta.
    destruct (VideoCapture_spec (lf ++ [name]) m)
      as [(frames & Hr & _)|(_ & E)]; [now apply Hno in Hr|].
    now run_with E.
  - intros t. destruct (run_totals t) as [F V].
    split; [exact V|]. split; [exact F|]. split; [now rewrite F, run_due|].
    intros Hnd Hfree. pose proof (run_lands t Hnd Hfree) as L.
    split; [now rewrite (stored_landed _ _ L)|]. split; [|exact L].
    destruct (run_naming t Hnd) as [so P]. rewrite P.
    apply numbered_NoDup. now apply NoDup_sorted.
Qed.

End Claims.

(** ** Concrete runs *)

Lemma studio_free s : free [OUTPUT_FOLDER; s] studio.
Proof.
  intros n sub.
  change (FS.lookup ([OUTPUT_FOLDER; s] ++ [img_name n]) studio)
    with (match (if String.eqb "B" s
                 then Some (FS.Dir [("img_0001.jpg",
                                     FS.File (Jpeg (frame 224 224)));
                                    ("old.jpg", FS.File Other);
                                    ("z.png", FS.File Other)])
                 else None)
          with
          | Some m => FS.lookup [img_name n] m
          | None => None
          end).
  destruct (String.eqb "B" s); [|discriminate].
  cbn [FS.lookup FS.assoc].
  repeat (destruct (String.eqb _ (img_name n)); [discriminate|]).
  discriminate.
Qed.

Lemma studio_NoDup : NoDup (letter_dirs studio).
Proof. repeat constructor; simpl; intuition discriminate. Qed.

Lemma C1_witness :
  FS.read_file (["Videos"; "B"] ++ ["b1.mp4"]) (fs (boot studio))
    = Some (Video (reel 11)) /\
  exists m' evs,
    video_body "b1.mp4" ["Videos"; "B"] ["trainingdata"; "B"] 2 0
               (boot studio) = (Py.Ok (0 + 3), m') /\
    trace m' = trace (boot studio)
               ++ EvOpen (["Videos"; "B"] ++ ["b1.mp4"]) true :: evs /\
    List.length evs = 3 /\
    stored (fs m') evs = 3.
Proof.
  split; [reflexivity|].
  destruct (C1_fixed_stride_sampling
              "b1.mp4" ["Videos"; "B"] ["trainingdata"; "B"] 2 0
              (boot studio) (reel 11)
              eq_refl)
    as (m' & evs & E & T & L & _ & _ & _ & D).
  exists m', evs. split; [exact E|]. split; [exact T|]. split; [exact L|].
  exact (proj1 (D _ eq_refl (studio_free "B"))).
Defined.

(** C1, as stated, fails: a directory has the name of the next image, the
    video opens and decodes to 6 frames, two frames are counted as saved,
    and one image is on disk. *)
Lemma C1_failed_write_counterexample :
  ~ (forall (t : Tree (cv := shape_only)) name lf od ec ffl frames,
       FS.read_file (lf ++ [name]) t = Some (Video frames) ->
       stored (fs (snd (video_body name lf od ec ffl (boot t))))
              (trace (snd (video_body name lf od ec ffl (boot t))))
       = (List.length frames + 4) / 5).
Proof.
  intros H.
  specialize (H jammed "a.mp4" ["Videos"; "A"] ["trainingdata"; "A"] 1 0
                (reel 6) eq_refl).
  vm_compute in H. discriminate H.
Qed.

Lemma C2_witness :
  NoDup (letter_dirs studio) /\
  exists saved_of : string -> nat,
    imwrite_paths (trace (snd (run studio))) =
      flat_map (fun s => numbered s (jpg_count studio s + 1) (saved_of s))
               (sorted (letter_dirs studio)) /\
    NoDup (imwrite_paths (trace (snd (run studio)))).
Proof.
  split; [exact studio_NoDup|].
  exact (C2_sequential_file_naming studio studio_NoDup).
Defined.

Lemma C3_witness :
  In (EvImwrite ["trainingdata"; "B"; "img_0004.jpg"] (frame 224 224)
                ["Videos"; "B"; "b1.mp4"] 5)
     (trace (snd (run studio))) /\
  label ["trainingdata"; "B"; "img_0004.jpg"] = Some "B" /\
  label ["Videos"; "B"; "b1.mp4"] = Some "B" /\
  FS.read_file ["trainingdata"; "B"; "img_0004.jpg"] (fs (snd (run studio)))
    = Some (Jpeg (frame 224 224)).
Proof.
  assert (H : In (EvImwrite ["trainingdata"; "B"; "img_0004.jpg"]
                            (frame 224 224) ["Videos"; "B"; "b1.mp4"] 5)
                 (trace (snd (run studio)))).
  { vm_compute. tauto. }
  split; [exact H|].
  destruct (C3_labeled_dataset studio _ _ _ _ H)
    as (s & file & n & frames & Hvp & _ & _ & Lp & Lvp & Hfile).
  injection Hvp as <- _.
  split; [exact Lp|]. split; [exact Lvp|].
  apply Hfile; [exact studio_NoDup|exact studio_free].
Defined.

Lemma C4_witness :
  In (EvImwrite ["trainingdata"; "B"; "img_0004.jpg"] (frame 224 224)
                ["Videos"; "B"; "b1.mp4"] 5)
     (trace (snd (run studio))) /\
  exists frames f,
    FS.read_file ["Videos"; "B"; "b1.mp4"] studio = Some (Video frames) /\
    nth_error frames 5 = Some f /\
    frame 224 224 = cv2_resize f (IMAGE_SIZE, IMAGE_SIZE) /\
    shape (frame 224 224) = (224, 224).
Proof.
  assert (H : In (EvImwrite ["trainingdata"; "B"; "img_0004.jpg"] (frame 224 224)
                            ["Videos"; "B"; "b1.mp4"] 5)
                 (trace (snd (run studio)))).
  { vm_compute. tauto. }
  split; [exact H|]. exact (C4_resized_before_write studio _ _ _ _ H).
Defined.

(** C4, as stated, fails: the frame of a 224 by 224 video is written at
    its original resolution. *)
Lemma C4_original_resolution_counterexample :
  ~ (forall p img vp i frames f,
       In (EvImwrite p img vp i) (trace (snd (run square))) ->
       FS.read_file vp square = Some (Video frames) ->
       nth_error frames i = Some f ->
       shape img <> shape f).
Proof.
  intros H.
  apply (H ["trainingdata"; "A"; "img_0001.jpg"] (frame 224 224)
           ["Videos"; "A"; "a.mp4"] 0 [frame 224 224] (frame 224 224)).
  - vm_compute. tauto.
  - reflexivity.
  - reflexivity.
  - reflexivity.
Qed.

Lemma C9_witness :
  (FS.exists_ [VIDEO_FOLDER] empty = false /\
   run empty = (Py.Exit 1, boot empty)) /\
  (FS.exists_ [VIDEO_FOLDER] bare = true /\ letter_dirs bare = [] /\
   Py.exit_status (fst (run bare)) = 1 /\
   trace (snd (run bare)) = [EvMakedirs [OUTPUT_FOLDER]]).
Proof.
  split.
  - split; [reflexivity|].
    exact (proj1 (C9_error_exits empty) eq_refl).
  - split; [reflexivity|]. split; [reflexivity|].
    destruct (proj2 (C9_error_exits bare) eq_refl eq_refl) as (E & T & _).
    now split.
Defined.

Lemma C10_witness :
  (forall ext, In ext VIDEO_EXTENSIONS ->
               FS.glob [VIDEO_FOLDER; "C"] ext (fs (boot studio)) = []) /\
  letter_body "C" (boot studio) = (Py.Ok tt, boot studio) /\
  (forall frames,
     FS.read_file (["Videos"; "B"] ++ ["bad.avi"]) (fs (boot studio))
       <> Some (Video frames)) /\
  video_body "bad.avi" ["Videos"; "B"] ["trainingdata"; "B"] 2 3
             (boot studio)
    = (Py.Ok 3, log (EvOpen (["Videos"; "B"] ++ ["bad.avi"]) false)
                    (boot studio)) /\
  total_frames (snd (run studio))
    = stored (fs (snd (run studio))) (trace (snd (run studio))).
Proof.
  assert (H1 : forall ext, In ext VIDEO_EXTENSIONS ->
                 FS.glob [VIDEO_FOLDER; "C"] ext (fs (boot studio)) = []).
  { intros ext Hin. simpl in Hin.
    repeat (destruct Hin as [<-|Hin]; [reflexivity|]). contradiction. }
  assert (H2 : forall frames,
             FS.read_file (["Videos"; "B"] ++ ["bad.avi"]) (fs (boot studio))
               <> Some (Video frames)) by (intros frames; discriminate).
  destruct (C10_skipping_leaves_state_unchanged (cv := shape_only))
    as (S1 & S2 & S3).
  split; [exact H1|]. split; [exact (S1 "C" (boot studio) H1)|].
  split; [exact H2|]. split.
  - exact (S2 "bad.avi" ["Videos"; "B"] ["trainingdata"; "B"] 2 3
              (boot studio) H2).
  - destruct (S3 studio) as (_ & _ & _ & D).
    exact (proj1 (D studio_NoDup studio_free)).
Defined.

(** C10, as stated, fails: with a directory at the name of the next
    image, the run reports two frames and leaves one image on disk. *)
Lemma C10_failed_write_counterexample :
  ~ (forall t : Tree (cv := shape_only),
       total_frames (snd (run t))
       = stored (fs (snd (run t))) (trace (snd (run t)))).
Proof.
  intros H. specialize (H jammed). vm_compute in H. discriminate H.
Qed.

End ExtractSpec.

(* ================================================================== *)
(** * Facts about the training script *)
(* ================================================================== *)

Module TrainFacts.
Import Train.

(** ** The reference library keeps the contract of [fit] *)

Lemma on_epoch_end_stop cb w lr l :
  snd (Reference.on_epoch_end cb w lr l) = true -> stops_training cb = true.
Proof.
  unfold Reference.on_epoch_end.
  destruct (match Reference.best w with
            | Some b => _
            | None => true
            end); [discriminate|].
  destruct cb as [mon factor patience verbose min_lr|]; [|reflexivity].
  now destruct (patience <=? Reference.wait w + 1).
Qed.

Lemma end_of_epoch_spec cbs : forall lr l,
  map fst (fst (fst (Reference.end_of_epoch cbs lr l))) = map fst cbs /\
  (forall cb, snd (Reference.end_of_epoch cbs lr l) = Some cb ->
              In cb (map fst cbs) /\ stops_training cb = true).
Proof.
  induction cbs as [|[cb w] cbs IH]; intros lr l; simpl.
  - split; [reflexivity|discriminate].
  - pose proof (on_epoch_end_stop cb w lr l) as Hcb.
    destruct (Reference.on_epoch_end cb w lr l) as [[w' lr'] stop].
    destruct (IH lr' l) as [Hm Hs].
    destruct (Reference.end_of_epoch cbs lr' l) as [[rest' lr''] stopper].
    simpl in *. split; [now rewrite Hm|].
    intros cb0 H. destruct stop.
    + injection H as <-. auto.
    + destruct (Hs cb0 H). auto.
Qed.

Section Curve.
Variable curve : nat -> Logs.

Lemma train_at_most todo : forall epoch cbs lr,
  List.length (fst (fst (Reference.train curve todo epoch cbs lr))) <= todo.
Proof.
  induction todo as [|todo IH]; intros epoch cbs lr; simpl; auto.
  destruct (Reference.end_of_epoch cbs lr (curve epoch))
    as [[cbs' lr'] stopper].
  destruct stopper; simpl; [lia|].
  specialize (IH (S epoch) cbs' lr').
  destruct (Reference.train curve todo (S epoch) cbs' lr')
    as [[h lr''] stopper'].
  simpl in *. lia.
Qed.

Lemma train_stopped todo : forall epoch cbs lr,
  List.length (fst (fst (Reference.train curve todo epoch cbs lr))) < todo ->
  exists cb,
    snd (Reference.train curve todo epoch cbs lr) = Some cb /\
    In cb (map fst cbs) /\ stops_training cb = true.
Proof.
  induction todo as [|todo IH]; intros epoch cbs lr; simpl; [lia|].
  destruct (end_of_epoch_spec cbs lr (curve epoch)) as [Hm Hs].
  destruct (Reference.end_of_epoch cbs lr (curve epoch))
    as [[cbs' lr'] stopper].
  simpl in Hm, Hs. destruct stopper as [cb|].
  - intros _. exists cb. destruct (Hs cb eq_refl). auto.
  - specialize (IH (S epoch) cbs' lr').
    destruct (Reference.train curve todo (S epoch) cbs' lr')
      as [[h lr''] stopper'].
    simpl in *. intros Hlt. rewrite <- Hm. apply IH. lia.
Qed.

Lemma reference_fit_at_most m x epochs v cbs m' h :
  Reference.fit curve m x epochs v cbs = inr (m', h) ->
  List.length h <= epochs.
Proof.
  unfold Reference.fit. destruct (Reference.net_compiled m); [|discriminate].
  pose proof (train_at_most epochs 0
                (map (fun cb => (cb, Reference.fresh)) cbs)
                (Reference.net_lr m)) as H.
  destruct (Reference.train curve epochs 0 _ _) as [[h0 lr] stopper].
  now intros [= _ <-].
Qed.

Lemma reference_fit_stopped m x epochs v cbs m' h :
  Reference.fit curve m x epochs v cbs = inr (m', h) ->
  List.length h < epochs ->
  exists cb,
    Reference.net_stopped m' = Some cb /\
    In cb cbs /\ stops_training cb = true.
Proof.
  unfold Reference.fit. destruct (Reference.net_compiled m); [|discriminate].
  pose proof (train_stopped epochs 0
                (map (fun cb => (cb, Reference.fresh)) cbs)
                (Reference.net_lr m)) as H.
  destruct (Reference.train curve epochs 0 _ _) as [[h0 lr] stopper].
  intros [= <- <-] Hlt. simpl in H |- *.
  rewrite map_map, map_id in H. auto.
Qed.

(** The reference library, for epochs that report [curve] *)
#[local] Instance reference : Keras := {|
  Generator := Reference.Gen;
  class_indices := Reference.class_indices;
  flow_from_directory := Reference.flow_from_directory;
  Model := Reference.Net;
  Sequential := Reference.Sequential;
  compile := Reference.compile;
  fit := Reference.fit curve;
  convert := Reference.convert;
  stopped_by := Reference.net_stopped;
  fit_at_most := reference_fit_at_most;
  fit_stopped := reference_fit_stopped
|}.

End Curve.

End TrainFacts.

(* ================================================================== *)
(** * The training script meets its specification *)
(* ================================================================== *)

Module TrainSpec.
Import Train TrainFacts.

(** Unfold the script down to the calls it makes. *)
Ltac unfold_script :=
  unfold run, main, flow, keras_Sequential, model_compile, model_fit,
    tflite_convert, open_write, shutil_copy, last_item, note,
    Py.try_except, Py.bind, Py.modify, Py.get, Py.call, Py.ret, Py.exit,
    Py.raise, boot, log, with_fs;
  cbn [fs calls fst snd app].

(** Decide the outcome of the next call. *)
Ltac next_call :=
  match goal with
  | |- context [match ?x with _ => _ end] =>
      lazymatch x with
      | context [match _ with _ => _ end] => fail
      | _ => destruct x eqn:?
      end
  end;
  cbn [fs calls fst snd app].

(** Find a call in the list of the calls made. *)
Ltac find_call H :=
  cbn [In] in H;
  repeat (destruct H as [H|H]; try discriminate H);
  try contradiction.

Section Claims.
Context {keras : Keras}.

(** C5. Mobile export.  A run that ends normally has trained the model,
    converted the trained model with the default optimizations, and left
    the converted bytes in the file [fine_tuned_model.tflite]. *)
Theorem C5_mobile_export t :
  fst (run t) = Py.Ok tt ->
  exists gen_t gen_v model compiled fitted history tflite,
    flow_from_directory datagen train_args t = inr gen_t /\
    flow_from_directory datagen validation_args t = inr gen_v /\
    Sequential (layers (List.length (class_indices gen_t))) = inr model /\
    compile model compile_args = inr compiled /\
    fit compiled gen_t EPOCHS gen_v callbacks = inr (fitted, history) /\
    convert fitted [DEFAULT] = inr tflite /\
    In (CallConvert fitted [DEFAULT]) (calls (snd (run t))) /\
    In (CallWrite ["fine_tuned_model.tflite"] tflite)
       (calls (snd (run t))) /\
    FS.read_file ["fine_tuned_model.tflite"] (fs (snd (run t)))
      = Some tflite.
Proof.
  unfold_script. repeat next_call; try discriminate; intros _.
  all: unfold output_file in *.
  all: match goal with
       | Hw : FS.write_file ["fine_tuned_model.tflite"] ?b ?t0 = Some ?t1
         |- _ =>
           pose proof (FSFacts.read_after_write _ _ _ _ _ Hw) as Hr
       end.
  all: try match goal with
       | Hc : FS.write_file ?target _ ?t1 = Some ?t2 |- context [?t2] =>
           assert (Hf : FS.read_file ["fine_tuned_model.tflite"] t2
                        = FS.read_file ["fine_tuned_model.tflite"] t1)
             by (unfold FS.read_file;
                 now rewrite (FSFacts.write_file_frame _ _ _ _ _
                                ["fine_tuned_model.tflite"] Hc eq_refl))
       end.
  all: destruct p as [fitted history]; cbn [fst snd] in *; do 7 eexists;
    repeat (split; [first [reflexivity | eassumption]|]);
    cbn [In]; (split; [auto 12|split; [auto 12|congruence]]).
Qed.

(** C6. Fixed topology.  When the data directory is there and the two
    flows return, the script builds a model; and whenever it does, it is
    by [keras.Sequential] on the same sixteen layers, of which only the
    width of the last varies: the number of classes of the training
    generator.  That call is the one the run depends on: when it raises,
    the run ends in its exception; when it returns a model, that model,
    and no other, is the one the script compiles. *)
Theorem C6_fixed_topology t :
  (forall gen_t gen_v,
     FS.exists_ [TRAINING_DATA_DIR] t = true ->
     flow_from_directory datagen train_args t = inr gen_t ->
     flow_from_directory datagen validation_args t = inr gen_v ->
     In (CallSequential (layers (List.length (class_indices gen_t))))
        (calls (snd (run t)))) /\
  (forall ls,
     In (CallSequential ls) (calls (snd (run t))) ->
     exists gen_t,
       flow_from_directory datagen train_args t = inr gen_t /\
       ls = [ Input (32, 32, 3);
              Conv2D 32 (3, 3) "relu" "same"; BatchNormalization;
              Conv2D 32 (3, 3) "relu" "same";
              MaxPooling2D (2, 2); Dropout 0.25;
              Conv2D 64 (3, 3) "relu" "same"; BatchNormalization;
              Conv2D 64 (3, 3) "relu" "same";
              MaxPooling2D (2, 2); Dropout 0.25;
              Flatten; Dense 256 "relu"; BatchNormalization; Dropout 0.5;
              Dense (List.length (class_indices gen_t)) "softmax" ] /\
       (forall e, Sequential ls = inl e -> fst (run t) = Py.Raise e) /\
       (forall model,
          Sequential ls = inr model ->
          In (CallCompile model compile_args) (calls (snd (run t))) /\
          forall model' args,
            In (CallCompile model' args) (calls (snd (run t))) ->
            model' = model)).
Proof.
  split.
  - intros gen_t gen_v He Ht Hv. unfold_script.
    rewrite He. cbn [negb fs calls fst snd app].
    rewrite Ht. cbn [fs calls fst snd app].
    rewrite Hv. cbn [fs calls fst snd app].
    repeat next_call; cbn [In]; auto 12.
  - intros ls. unfold_script. repeat next_call; intros H; find_call H.
    all: injection H as <-; eexists; split; [reflexivity|].
    all: split; [reflexivity|]; split.
    all: try (intros e0 He0; cbn [fst]; congruence).
    all: intros model0 Hm0.
    all: try congruence.
    all: assert (model0 = m) by congruence; subst model0.
    all: split; [cbn [In]; auto 12|].
    all: intros model' args H'; find_call H'; congruence.
Qed.

(** C7. Callbacks and epoch limit.  Whenever a run calls [fit], it passes
    [epochs = 50] and exactly the two callbacks of the script.  The run
    depends on that call: when it raises, the run ends in its exception;
    when it returns, the model it returned is the one the script converts.
    By the contract of [fit], the training then ran at most 50 epochs, and
    when it ran fewer, the callback that stopped it is the early-stopping
    callback on [val_accuracy], the other callback never stopping a
    training. *)
Theorem C7_callbacks_and_epoch_limit t model x epochs v cbs verbose :
  In (CallFit model x epochs v cbs verbose) (calls (snd (run t))) ->
  epochs = 50 /\
  cbs = [ ReduceLROnPlateau "val_loss" 0.5 3 1 0.00001;
          EarlyStopping "val_accuracy" 5 true 1 ] /\
  (0.5 == 1 # 2)%Q /\ (0.00001 == 1 # 100000)%Q /\
  (forall e,
     fit model x epochs v cbs = inl e -> fst (run t) = Py.Raise e) /\
  forall fitted history,
    fit model x epochs v cbs = inr (fitted, history) ->
    List.length history <= 50 /\
    (List.length history < 50 ->
     stopped_by fitted = Some (EarlyStopping "val_accuracy" 5 true 1)) /\
    (history <> [] ->
     In (CallConvert fitted [DEFAULT]) (calls (snd (run t)))).
Proof.
  intros H.
  assert (E : epochs = EPOCHS /\ cbs = callbacks /\
              (forall e, fit model x epochs v cbs = inl e ->
                         fst (run t) = Py.Raise e) /\
              (forall fitted history,
                 fit model x epochs v cbs = inr (fitted, history) ->
                 history <> [] ->
                 In (CallConvert fitted [DEFAULT]) (calls (snd (run t))))).
  { revert H. unfold_script. repeat next_call; intros H; find_call H.
    all: injection H as <- <- <- <- <- _.
    all: split; [reflexivity|]; split; [reflexivity|]; split.
    all: try (intros e0 He0; cbn [fst]; congruence).
    all: intros fitted history Hf Hne.
    all: try congruence.
    all: assert (p = (fitted, history)) by congruence; subst p.
    all: cbn [fst snd] in *.
    all: try (cbn [In]; auto 12; fail).
    all: exfalso; apply Hne.
    all: match goal with
         | Hr : List.rev (map _ ?h) = [] |- _ =>
             apply (f_equal (@List.length _)) in Hr;
             rewrite length_rev, length_map in Hr;
             now destruct h
         end. }
  destruct E as (-> & -> & Hraise & Hconv).
  do 4 (split; [reflexivity|]). split; [exact Hraise|].
  intros fitted history Hfit. split; [|split].
  - eapply fit_at_most; eauto.
  - intros Hlt.
    assert (Hcb : exists cb,
               stopped_by fitted = Some cb /\ In cb callbacks /\
               stops_training cb = true)
      by (eapply fit_stopped; eauto).
    destruct Hcb as (cb & Hs & Hin & Hst). rewrite Hs.
    destruct Hin as [<-|[<-|[]]]; [discriminate Hst|reflexivity].
  - now apply Hconv.
Qed.


End Claims.

(** ** A concrete run, over the reference library *)

Lemma C5_witness :
  fst (run (keras := reference plateau) dataset) = Py.Ok tt /\
  exists tflite,
    FS.read_file ["fine_tuned_model.tflite"]
                 (fs (snd (run (keras := reference plateau) dataset)))
      = Some tflite.
Proof.
  split; [reflexivity|].
  destruct (C5_mobile_export (keras := reference plateau) dataset eq_refl)
    as (gen_t & gen_v & model & compiled & fitted & history & tflite & H).
  exists tflite. apply H.
Defined.

Lemma C6_witness :
  In (CallSequential (layers 2))
     (calls (snd (run (keras := reference plateau) dataset))) /\
  exists gen_t model,
    flow_from_directory (Keras := reference plateau)
                        datagen train_args dataset = inr gen_t /\
    List.length (class_indices gen_t) = 2 /\
    Sequential (Keras := reference plateau) (layers 2) = inr model /\
    In (CallCompile model compile_args)
       (calls (snd (run (keras := reference plateau) dataset))).
Proof.
  assert (H : In (CallSequential (layers 2))
                 (calls (snd (run (keras := reference plateau) dataset)))).
  { apply nth_error_In with (n := 2). vm_compute. reflexivity. }
  split; [exact H|].
  destruct (proj2 (C6_fixed_topology (keras := reference plateau) dataset)
                  _ H)
    as (gen_t & Hg & Hl & _ & Hc).
  exists gen_t, {| Reference.net_layers := layers 2;
                   Reference.net_compiled := None;
                   Reference.net_lr := 0;
                   Reference.net_epochs := 0;
                   Reference.net_stopped := None |}.
  split; [exact Hg|]. split.
  - apply (f_equal (fun l => match List.last l Flatten with
                             | Dense n _ => n
                             | _ => 0
                             end)) in Hl.
    symmetry. exact Hl.
  - split; [reflexivity|]. exact (proj1 (Hc _ eq_refl)).
Defined.

Lemma C7_witness :
  exists model x v fitted history,
    In (CallFit model x 50 v callbacks 1)
       (calls (snd (run (keras := reference plateau) dataset))) /\
    fit (Keras := reference plateau) model x 50 v callbacks
      = inr (fitted, history) /\
    List.length history = 6 /\
    stopped_by (Keras := reference plateau) fitted
      = Some (EarlyStopping "val_accuracy" 5 true 1) /\
    In (CallConvert fitted [DEFAULT])
       (calls (snd (run (keras := reference plateau) dataset))).
Proof.
  assert (H : exists model x v fitted history,
             nth_error (calls (snd (run (keras := reference plateau)
                                        dataset))) 4
             = Some (CallFit model x 50 v callbacks 1) /\
             fit (Keras := reference plateau) model x 50 v callbacks
             = inr (fitted, history) /\
             List.length history = 6).
  { eexists _, _, _, _, _. split; [reflexivity|].
    split; [vm_compute; reflexivity|reflexivity]. }
  destruct H as (model & x & v & fitted & history & H & Hf & Hlen).
  apply nth_error_In in H.
  destruct (C7_callbacks_and_epoch_limit
              (keras := reference plateau) dataset _ _ _ _ _ _ H)
    as (_ & _ & _ & _ & _ & Hfit).
  destruct (Hfit fitted history Hf) as (_ & Hs & Hc).
  exists model, x, v, fitted, history.
  split; [exact H|]. split; [exact Hf|]. split; [exact Hlen|].
  split.
  - apply Hs. rewrite Hlen. repeat constructor.
  - apply Hc. intros ->. discriminate Hlen.
Defined.


End TrainSpec.

(* ================================================================== *)
(** * More about the frame extractor *)
(* ================================================================== *)

Module ExtractMore.
Import Extract ExtractFacts.

(** ** Decimal digits *)

Lemma of_uint_acc_bounds d : forall acc,
  acc * 10 ^ Decimal.nb_digits d <= Nat.of_uint_acc d acc /\
  Nat.of_uint_acc d acc < (acc + 1) * 10 ^ Decimal.nb_digits d.
Proof.
  induction d; intros acc; cbn [Nat.of_uint_acc Decimal.nb_digits];
    try (rewrite Nat.pow_0_r; lia).
  all: rewrite Nat.tail_mul_spec, Nat.pow_succ_r';
    match goal with
    | |- context [Nat.of_uint_acc _ ?a] => specialize (IHd a)
    end; nia.
Qed.

Lemma string_of_uint_length d :
  String.length (DecimalString.NilEmpty.string_of_uint d)
  = Decimal.nb_digits d.
Proof. induction d; cbn; congruence. Qed.

Lemma to_uint_normal n : Decimal.unorm (Nat.to_uint n) = Nat.to_uint n.
Proof.
  rewrite <- (DecimalNat.Unsigned.of_to n) at 2.
  now rewrite DecimalNat.Unsigned.to_of.
Qed.

Lemma str_length n : String.length (str n) = Decimal.nb_digits (Nat.to_uint n).
Proof.
  unfold str. pose proof (to_uint_normal n) as H.
  destruct (Nat.to_uint n) eqn:E; try apply string_of_uint_length.
  discriminate H.
Qed.

Lemma unorm_fixed d :
  Decimal.unorm d = d ->
  d = Decimal.zero \/ 10 ^ (Decimal.nb_digits d - 1) <= Nat.of_uint d.
Proof.
  intros H. destruct d; try discriminate H.
  1: { destruct d; [now left|..].
       all: exfalso; rewrite DecimalFacts.unorm_D0 in H;
         match type of H with
         | Decimal.unorm ?u = _ =>
             pose proof (DecimalFacts.nb_digits_unorm u ltac:(discriminate))
               as Hn
         end; rewrite H in Hn; cbn [Decimal.nb_digits] in Hn; lia. }
  all: right; unfold Nat.of_uint;
    cbn [Nat.of_uint_acc Decimal.nb_digits];
    rewrite Nat.tail_mul_spec, Nat.sub_succ, Nat.sub_0_r;
    match goal with
    | |- context [Nat.of_uint_acc _ ?a] =>
        pose proof (proj1 (of_uint_acc_bounds d a))
    end; nia.
Qed.

Lemma str_digits n :
  n < 10 ^ String.length (str n) /\
  (n <> 0 -> 10 ^ (String.length (str n) - 1) <= n).
Proof.
  rewrite str_length.
  pose proof (DecimalNat.Unsigned.of_to n) as Hn.
  split.
  - pose proof (proj2 (of_uint_acc_bounds (Nat.to_uint n) 0)) as H.
    unfold Nat.of_uint in Hn. rewrite Hn in H. lia.
  - intros H0. destruct (unorm_fixed _ (to_uint_normal n)) as [E|H].
    + rewrite E in Hn. cbn in Hn. congruence.
    + now rewrite Hn in H.
Qed.

Lemma zeros_length k : String.length (zeros k) = k.
Proof. induction k; cbn; congruence. Qed.

Lemma str_width n : String.length (str n) <= 4 <-> n < 10 ^ 4.
Proof.
  destruct (str_digits n) as [Hu Hl]. split; intros H.
  - pose proof (Nat.pow_le_mono_r 10 _ 4 ltac:(discriminate) H) as Hp.
    lia.
  - destruct (Nat.le_gt_cases (String.length (str n)) 4) as [|Hgt]; [easy|].
    assert (n <> 0) as Hn0.
    { intros ->. cbn in Hgt. lia. }
    specialize (Hl Hn0).
    pose proof (Nat.pow_le_mono_r 10 4 (String.length (str n) - 1)
                  ltac:(discriminate) ltac:(lia)) as Hp.
    lia.
Qed.

(** X1.  The number in the name of an image is padded with zeros to four
    digits; a number of 10000 or more is printed in full, with more than
    four digits, and never cut. *)
Theorem fmt04d_width n :
  (n < 10 ^ 4 -> String.length (fmt04d n) = 4) /\
  (10 ^ 4 <= n -> fmt04d n = str n /\ 4 < String.length (fmt04d n)).
Proof.
  unfold fmt04d. pose proof (str_width n) as Hw. split; intros H.
  - rewrite append_length, zeros_length. apply Hw in H. lia.
  - assert (Hlen : 4 < String.length (str n)) by lia.
    replace (4 - String.length (str n)) with 0 by lia.
    split; [reflexivity|exact Hlen].
Qed.

(** X2.  The four-digit field reads back as the number that was formatted,
    so two different numbers never give the same image name, also beyond
    9999. *)
Theorem img_name_round_trip n :
  parse (fmt04d n) = Some n /\
  forall n', img_name n = img_name n' -> n = n'.
Proof.
  split; [apply parse_fmt04d|]. intros n'. apply img_name_inj.
Qed.

(** ** Matching of extensions *)

Lemma substring_all s : substring 0 (String.length s) s = s.
Proof. induction s; cbn; congruence. Qed.

Lemma substring_skip stem s m :
  substring (String.length stem) m (stem ++ s) = substring 0 m s.
Proof. induction stem; cbn; auto. Qed.

Lemma ends_with_append stem ext : FS.ends_with (stem ++ ext) ext = true.
Proof.
  unfold FS.ends_with. rewrite append_length.
  replace (String.length stem + String.length ext - String.length ext)
    with (String.length stem) by lia.
  rewrite substring_skip, substring_all, String.eqb_refl.
  rewrite andb_true_r. apply Nat.leb_le. lia.
Qed.

Lemma ends_with_unique s e1 e2 :
  FS.ends_with s e1 = true -> FS.ends_with s e2 = true ->
  String.length e1 = String.length e2 -> e1 = e2.
Proof.
  unfold FS.ends_with. intros H1 H2 Hl.
  apply andb_true_iff in H1 as [_ H1], H2 as [_ H2].
  apply String.eqb_eq in H1, H2. rewrite Hl in H1. congruence.
Qed.


Section Runs.
Context {cv : OpenCV}.

Lemma kept_refl d n t : kept d n t t.
Proof. now intros q _. Qed.

Lemma kept_trans d n t1 t2 t3 :
  kept d n t1 t2 -> kept d n t2 t3 -> kept d n t1 t3.
Proof. intros H1 H2 q Hq. now rewrite H2, H1. Qed.

Lemma kept_weaken d n n' t t' : n <= n' -> kept d n' t t' -> kept d n t t'.
Proof. intros Hn H q Hq. apply H. intros k Hk. apply Hq. lia. Qed.

Lemma untouched_kept d n k t t' :
  n < k -> untouched (d ++ [img_name k]) t t' -> kept d n t t'.
Proof. intros Hk U q Hq. apply U. now apply Hq. Qed.

Lemma kept_untouched d n t t' : kept d n t t' -> untouched d t t'.
Proof.
  intros K q Hq. apply K. intros k _. now apply FSFacts.diverge_app_l.
Qed.

Lemma write_events_loop lf name od files sel : forall n,
  In name files ->
  Forall (loop_event lf files) (write_events (lf ++ [name]) od n sel).
Proof.
  induction sel as [|[i f] sel IH]; intros n Hin; cbn [write_events];
    constructor; auto.
  cbn. eauto.
Qed.

Lemma read_loop_log cap : forall vp od ec ffl fc sc m,
  exists m',
    read_loop cap vp od ec ffl fc sc m
      = (Py.Ok (sc + List.length (picks fc cap)), m') /\
    trace m' = trace m
               ++ write_events vp od (ec + ffl + sc + 1) (picks fc cap) /\
    kept od (ec + ffl + sc) (fs m) (fs m').
Proof.
  induction cap as [|f cap IH]; intros vp od ec ffl fc sc m.
  - exists m. simpl. unfold Py.ret.
    rewrite Nat.add_0_r, app_nil_r. auto using kept_refl.
  - cbn [read_loop]. rewrite picks_cons. change FRAME_INTERVAL with 5.
    destruct (fc mod 5 =? 0); cbv zeta.
    + destruct (imwrite_spec
                  (od ++ [img_name (ec + ffl + sc + 1)])
                  (cv2_resize f (IMAGE_SIZE, IMAGE_SIZE)) vp fc m)
        as (m1 & E1 & T1 & F1 & V1 & U1).
      run_with E1.
      destruct (IH vp od ec ffl (fc + 1) (sc + 1) m1) as (m' & E & T & K).
      exists m'. rewrite E, T, T1.
      replace (fc + 1) with (S fc) by lia.
      replace (ec + ffl + (sc + 1) + 1) with (S (ec + ffl + sc + 1)) by lia.
      cbn [List.length write_events]. rewrite <- app_assoc.
      repeat split; try (f_equal; f_equal; lia).
      eapply kept_trans.
      * eapply untouched_kept; [|exact U1]. lia.
      * eapply kept_weaken; [|exact K]. lia.
    + destruct (IH vp od ec ffl (fc + 1) sc m) as (m' & E & T & K).
      exists m'. rewrite E, T.
      replace (fc + 1) with (S fc) by lia. auto.
Qed.

Lemma video_body_log lf od ec name ffl m files :
  In name files ->
  exists n m' evs,
    video_body name lf od ec ffl m = (Py.Ok n, m') /\
    ffl <= n /\
    trace m' = trace m ++ evs /\
    Forall (loop_event lf files) evs /\
    kept od (ec + ffl) (fs m) (fs m').
Proof.
  intros Hin. unfold video_body. cbv zeta.
  set (vp := lf ++ [name]).
  destruct (VideoCapture_spec vp m) as [(frames & Hr & E)|(Hr & E)];
    run_with E.
  - destruct (read_loop_log frames vp od ec ffl 0 0 (log (EvOpen vp true) m))
      as (m1 & E1 & T1 & K1).
    run_with E1. unfold Py.bind, Py.modify, Py.ret.
    eexists _, _, (EvOpen vp true :: _).
    split; [reflexivity|]. split; [lia|].
    cbn [trace fs set_totals]. simpl in T1, K1.
    rewrite T1, <- app_assoc. split; [reflexivity|]. split.
    + constructor; [cbn; eauto|]. now apply write_events_loop.
    + eapply kept_weaken; [|exact K1]. lia.
  - exists ffl, (log (EvOpen vp false) m), [EvOpen vp false].
    unfold Py.ret. cbn [trace fs log].
    repeat split; auto using kept_refl.
    constructor; [cbn; eauto|constructor].
Qed.

Lemma video_loop_log lf od ec files0 files : forall ffl m,
  incl files files0 ->
  exists n m' evs,
    video_loop files lf od ec ffl m = (Py.Ok n, m') /\
    trace m' = trace m ++ evs /\
    Forall (loop_event lf files0) evs /\
    kept od ec (fs m) (fs m').
Proof.
  induction files as [|name rest IH]; intros ffl m Hincl.
  - exists ffl, m, []. cbn. unfold Py.ret.
    rewrite app_nil_r. auto using kept_refl.
  - cbn [video_loop].
    destruct (video_body_log lf od ec name ffl m files0)
      as (n1 & m1 & evs1 & E1 & L1 & T1 & P1 & K1).
    { apply Hincl. now left. }
    run_with E1.
    destruct (IH n1 m1) as (n & m' & evs2 & E2 & T2 & P2 & K2).
    { intros x Hx. apply Hincl. now right. }
    exists n, m', (evs1 ++ evs2).
    rewrite E2, T2, T1, <- app_assoc.
    repeat split; auto.
    + now apply Forall_app.
    + eapply kept_trans; [|exact K2].
      eapply kept_weaken; [|exact K1]. lia.
Qed.

(** The three ways the body of the loop over the letter folders goes *)
Lemma letter_body_cases s m :
  exists r m',
    letter_body s m = (r, m') /\
    ((videos_of (fs m) s = [] /\ r = Py.Ok tt /\ m' = m) \/
     (videos_of (fs m) s <> [] /\
      FS.makedirs [OUTPUT_FOLDER; s] (fs m) = None /\
      r = Py.Raise Py.FileExistsError /\
      m' = log (EvMakedirs [OUTPUT_FOLDER; s]) m) \/
     (exists t1 evs,
        videos_of (fs m) s <> [] /\
        FS.makedirs [OUTPUT_FOLDER; s] (fs m) = Some t1 /\
        r = Py.Ok tt /\
        trace m' = trace m ++ EvMakedirs [OUTPUT_FOLDER; s] :: evs /\
        Forall (loop_event [VIDEO_FOLDER; s] (videos_of (fs m) s)) evs /\
        kept [OUTPUT_FOLDER; s] (jpg_count (fs m) s) t1 (fs m'))).
Proof.
  unfold letter_body. cbv zeta.
  run_with (glob_all_spec [VIDEO_FOLDER; s] VIDEO_EXTENSIONS m).
  fold (videos_of (fs m) s).
  destruct (videos_of (fs m) s) as [|v files] eqn:Hv.
  { exists (Py.Ok tt), m. split; [reflexivity|]. now left. }
  cbn [List.length Nat.eqb].
  unfold Py.bind at 1, os_makedirs.
  destruct (FS.makedirs [OUTPUT_FOLDER; s] (fs m)) as [t1|] eqn:Hmk.
  - set (m1 := with_fs t1 _).
    unfold Py.bind at 1. unfold glob at 1.
    assert (Hec : List.length
                    (map fst (FS.glob [OUTPUT_FOLDER; s] ".jpg" (fs m1)))
                  = jpg_count (fs m) s).
    { rewrite length_map. unfold jpg_count. f_equal.
      exact (FSFacts.makedirs_below _ [OUTPUT_FOLDER; s] [] ".jpg"
                                    (fs m) t1 Hmk). }
    rewrite Hec.
    destruct (video_loop_log [VIDEO_FOLDER; s] [OUTPUT_FOLDER; s]
                (jpg_count (fs m) s) (v :: files) (v :: files) 0 m1
                (incl_refl _))
      as (n & m2 & evs & E & T & P & K).
    run_with E. unfold Py.modify.
    eexists (Py.Ok tt), _. split; [reflexivity|].
    right. right. exists t1, evs.
    split; [discriminate|]. split; [reflexivity|]. split; [reflexivity|].
    cbn [trace fs set_totals]. simpl in T, K.
    rewrite T, <- app_assoc. auto.
  - eexists (Py.Raise Py.FileExistsError), _. split; [reflexivity|].
    right. left. split; [discriminate|]. auto.
Qed.

(** ** The loop over the letter folders *)

Lemma diverge_head a c (p q : FS.Path) :
  a <> c -> FS.diverge (a :: p) (c :: q) = true.
Proof.
  intros H.
  change (FS.diverge (a :: p) (c :: q))
    with (if String.eqb a c then FS.diverge p q else true).
  now destruct (String.eqb_spec a c).
Qed.

Lemma videos_of_lookup t t' s :
  FS.lookup [VIDEO_FOLDER; s] t' = FS.lookup [VIDEO_FOLDER; s] t ->
  videos_of t' s = videos_of t s.
Proof.
  intros H. unfold videos_of. apply flat_map_same. intros ext _.
  f_equal. now apply FSFacts.glob_lookup.
Qed.

Lemma letter_body_untouched s m :
  untouched [OUTPUT_FOLDER; s] (fs m) (fs (snd (letter_body s m))).
Proof.
  destruct (letter_body_spec s m) as (r & m' & evs & E & _ & _ & _ & U & _).
  now rewrite E.
Qed.

Lemma letter_body_outside s m c q :
  c <> OUTPUT_FOLDER ->
  FS.lookup (c :: q) (fs (snd (letter_body s m))) = FS.lookup (c :: q) (fs m).
Proof.
  intros H. apply letter_body_untouched. apply diverge_head. congruence.
Qed.

Lemma letter_body_other s m s0 q :
  s <> s0 ->
  FS.lookup (OUTPUT_FOLDER :: s0 :: q) (fs (snd (letter_body s m)))
  = FS.lookup (OUTPUT_FOLDER :: s0 :: q) (fs m).
Proof.
  intros H. apply letter_body_untouched. now apply other_sign.
Qed.

(** A relation that the body keeps, the loop keeps. *)
Lemma for_each_inv (R : Machine -> Machine -> Prop) names :
  (forall m, R m m) ->
  (forall m1 m2 m3, R m1 m2 -> R m2 m3 -> R m1 m3) ->
  (forall s m, In s names -> R m (snd (letter_body s m))) ->
  forall m, R m (snd (for_each names letter_body m)).
Proof.
  intros Hrefl Htrans. induction names as [|s names IH]; intros Hbody m.
  - apply Hrefl.
  - cbn [for_each]. unfold Py.bind.
    pose proof (Hbody s m (or_introl eq_refl)) as H1.
    destruct (letter_body s m) as [[[]| |] m1]; cbn [snd] in *; auto.
    eapply Htrans; [exact H1|]. apply IH. intros s' m' Hin.
    apply Hbody. now right.
Qed.

Lemma letters_outside names m c q :
  c <> OUTPUT_FOLDER ->
  FS.lookup (c :: q) (fs (snd (for_each names letter_body m)))
  = FS.lookup (c :: q) (fs m).
Proof.
  intros H.
  apply (for_each_inv
           (fun m m' => FS.lookup (c :: q) (fs m') = FS.lookup (c :: q) (fs m))).
  - reflexivity.
  - intros m1 m2 m3 H1 H2. congruence.
  - intros s m0 _. now apply letter_body_outside.
Qed.

Lemma letters_other names m s0 q :
  ~ In s0 names ->
  FS.lookup (OUTPUT_FOLDER :: s0 :: q) (fs (snd (for_each names letter_body m)))
  = FS.lookup (OUTPUT_FOLDER :: s0 :: q) (fs m).
Proof.
  intros H.
  apply (for_each_inv
           (fun m m' => FS.lookup (OUTPUT_FOLDER :: s0 :: q) (fs m')
                        = FS.lookup (OUTPUT_FOLDER :: s0 :: q) (fs m))).
  - reflexivity.
  - intros m1 m2 m3 H1 H2. congruence.
  - intros s m0 Hin. apply letter_body_other. intros ->. contradiction.
Qed.

(** X3.  A run changes nothing outside the output folder: whatever its
    outcome, every path that does not start with [trainingdata] leads to
    what it led to before; the videos are only read. *)
Theorem run_outside_output t c q :
  c <> OUTPUT_FOLDER ->
  FS.lookup (c :: q) (fs (snd (run t))) = FS.lookup (c :: q) t.
Proof.
  intros H. rewrite run_unfold.
  destruct (negb _); [reflexivity|].
  destruct (FS.makedirs _ t) as [t1|] eqn:Hmk; [|reflexivity].
  assert (H1 : FS.lookup (c :: q) t1 = FS.lookup (c :: q) t).
  { eapply FSFacts.makedirs_frame; eauto. apply diverge_head. congruence. }
  destruct (FS.iterdir _ t); [|exact H1].
  destruct (_ =? 0); [exact H1|].
  rewrite letters_outside by exact H. exact H1.
Qed.

(** ** What is already in an output folder *)

Lemma letter_body_keeps s m x rest :
  (forall k, jpg_count (fs m) s < k -> x <> img_name k) ->
  FS.lookup (OUTPUT_FOLDER :: s :: x :: rest) (fs (snd (letter_body s m)))
  = FS.lookup (OUTPUT_FOLDER :: s :: x :: rest) (fs m).
Proof.
  intros Hx.
  destruct (letter_body_cases s m) as (r & m' & E & H). rewrite E. cbn [snd].
  destruct H as [(_ & _ & ->)|[(_ & _ & _ & ->)|H]]; try reflexivity.
  destruct H as (t1 & evs & _ & Hmk & _ & _ & _ & K).
  rewrite K.
  - exact (FSFacts.makedirs_lookup_below _ [OUTPUT_FOLDER; s] (x :: rest)
             (fs m) t1 Hmk ltac:(discriminate)).
  - intros k Hk.
    change (OUTPUT_FOLDER :: s :: x :: rest)
      with (([OUTPUT_FOLDER; s] ++ [x]) ++ rest).
    apply FSFacts.diverge_app_r, FSFacts.diverge_sibling.
    intros E'. now apply (Hx k Hk).
Qed.

Lemma letters_keep names : forall m,
  NoDup names ->
  forall s x rest,
    (forall k, jpg_count (fs m) s < k -> x <> img_name k) ->
    FS.lookup (OUTPUT_FOLDER :: s :: x :: rest)
              (fs (snd (for_each names letter_body m)))
    = FS.lookup (OUTPUT_FOLDER :: s :: x :: rest) (fs m).
Proof.
  induction names as [|s0 names IH]; intros m Hnd s x rest Hx;
    [reflexivity|].
  apply NoDup_cons_iff in Hnd as [Hnot Hnd].
  pose proof (letters_other names (snd (letter_body s0 m)) s0 (x :: rest) Hnot)
    as Hrest.
  pose proof (IH (snd (letter_body s0 m)) Hnd s x rest) as IHs.
  pose proof (letter_body_untouched s0 m) as U.
  cbn [for_each]. unfold Py.bind.
  destruct (String.eqb_spec s0 s) as [->|Hne].
  - pose proof (letter_body_keeps s m x rest Hx) as K.
    destruct (letter_body s m) as [[[]| |] m1]; cbn [snd] in *; congruence.
  - pose proof (letter_body_other s0 m s (x :: rest) Hne) as K.
    pose proof (jpg_count_untouched s0 s _ _ Hne U) as J.
    destruct (letter_body s0 m) as [[[]| |] m1]; cbn [snd] in *; auto.
    rewrite IHs; [exact K|]. intros k Hk. apply Hx. lia.
Qed.

(** X4.  When the letter folders have distinct names, an entry of an output
    folder is left as it is unless its name is that of an image with a
    number above the count of [*.jpg] entries the folder had: the run
    writes only to such names. *)
Theorem run_keeps_existing t s x rest :
  NoDup (letter_dirs t) ->
  (forall k, jpg_count t s < k -> x <> img_name k) ->
  FS.lookup (OUTPUT_FOLDER :: s :: x :: rest) (fs (snd (run t)))
  = FS.lookup (OUTPUT_FOLDER :: s :: x :: rest) t.
Proof.
  intros Hnd Hx. rewrite run_unfold.
  destruct (negb _); [reflexivity|].
  destruct (FS.makedirs _ t) as [t1|] eqn:Hmk; [|reflexivity].
  pose proof (FSFacts.makedirs_lookup_below _ [OUTPUT_FOLDER] (s :: x :: rest)
                t t1 Hmk ltac:(discriminate)) as H1.
  cbn [app] in H1.
  destruct (FS.iterdir _ t); [|exact H1].
  destruct (_ =? 0); [exact H1|].
  rewrite letters_keep; [exact H1|now apply NoDup_sorted|].
  cbn [fs set_totals prepared with_fs]. intros k Hk. apply Hx.
  replace (jpg_count t s) with (jpg_count t1 s); [exact Hk|].
  unfold jpg_count. f_equal.
  exact (FSFacts.makedirs_below _ [OUTPUT_FOLDER] [s] ".jpg" t t1 Hmk).
Qed.

(** ** How a run ends *)

Lemma letters_outcome names : forall m,
  fst (for_each names letter_body m) = Py.Ok tt \/
  (fst (for_each names letter_body m) = Py.Raise Py.FileExistsError /\
   exists evs s,
     trace (snd (for_each names letter_body m))
       = evs ++ [EvMakedirs [OUTPUT_FOLDER; s]] /\
     In s names /\
     FS.makedirs [OUTPUT_FOLDER; s]
                 (fs (snd (for_each names letter_body m))) = None).
Proof.
  induction names as [|s names IH]; intros m; [now left|].
  cbn [for_each]. unfold Py.bind.
  destruct (letter_body_cases s m) as (r & m' & E & H). rewrite E.
  destruct H as [(_ & -> & ->)|[(_ & Hmk & -> & ->)|H]].
  - destruct (IH m) as [H|(H & evs & s' & T & Hin & Hm)]; [now left|right].
    split; [exact H|]. exists evs, s'. auto with datatypes.
  - right. split; [reflexivity|]. exists (trace m), s. cbn.
    auto with datatypes.
  - destruct H as (t1 & evs1 & _ & _ & -> & _).
    destruct (IH m') as [H|(H & evs & s' & T & Hin & Hm)]; [now left|right].
    split; [exact H|]. exists evs, s'. auto with datatypes.
Qed.

(** X5.  A run ends normally, exits with status 1, or stops in one of two
    exceptions.  It ends normally only when there is a letter folder;
    [NotADirectoryError] means the video folder is a regular file; and
    [FileExistsError] is raised by the last [os.makedirs] made, on a path
    that cannot be made a directory. *)
Theorem run_outcomes t :
  (fst (run t) = Py.Ok tt \/ fst (run t) = Py.Exit 1 \/
   fst (run t) = Py.Raise Py.FileExistsError \/
   fst (run t) = Py.Raise Py.NotADirectoryError) /\
  (fst (run t) = Py.Ok tt -> letter_dirs t <> []) /\
  (fst (run t) = Py.Raise Py.NotADirectoryError ->
   exists c, FS.lookup [VIDEO_FOLDER] t = Some (FS.File c)) /\
  (fst (run t) = Py.Raise Py.FileExistsError ->
   exists evs p,
     trace (snd (run t)) = evs ++ [EvMakedirs p] /\
     FS.makedirs p (fs (snd (run t))) = None).
Proof.
  rewrite run_unfold.
  assert (Hfail : FS.makedirs [OUTPUT_FOLDER] t = None ->
    exists evs p,
      trace (log (EvMakedirs [OUTPUT_FOLDER]) (boot t))
        = evs ++ [EvMakedirs p] /\
      FS.makedirs p (fs (log (EvMakedirs [OUTPUT_FOLDER]) (boot t))) = None).
  { intros Hmk. exists [], [OUTPUT_FOLDER]. split; [reflexivity|exact Hmk]. }
  unfold FS.exists_, FS.iterdir.
  destruct (FS.lookup [VIDEO_FOLDER] t) as [[c|es]|] eqn:Hv; cbn [negb].
  - destruct (FS.makedirs [OUTPUT_FOLDER] t) as [t1|] eqn:Hmk; cbn [fst snd].
    + split; [auto|]. split; [discriminate|]. split; [eauto|discriminate].
    + split; [auto|]. split; [discriminate|]. split; [discriminate|auto].
  - destruct (FS.makedirs [OUTPUT_FOLDER] t) as [t1|] eqn:Hmk; cbn [fst snd].
    2: { split; [auto|]. split; [discriminate|]. split; [discriminate|auto]. }
    destruct (List.length (letter_dirs t) =? 0) eqn:Hlen; cbn [fst snd].
    { split; [auto|]. repeat split; discriminate. }
    destruct (letters_outcome (sorted (letter_dirs t))
                              (set_totals 0 0 (prepared t t1)))
      as [H|(H & evs & s & T & _ & Hm)]; rewrite H.
    + split; [auto|]. split; [|split; discriminate].
      intros _ E. rewrite E in Hlen. discriminate Hlen.
    + split; [auto|]. split; [discriminate|]. split; [discriminate|].
      intros _. eauto.
  - cbn [fst snd]. split; [auto|]. repeat split; discriminate.
Qed.

(** ** The order of the letter folders *)

Lemma ascii_compare_N a b :
  Ascii.compare a b = BinNat.N.compare (N_of_ascii a) (N_of_ascii b).
Proof. reflexivity. Qed.

Lemma compare_not_gt_trans a : forall b c,
  String.compare a b <> Gt -> String.compare b c <> Gt ->
  String.compare a c <> Gt.
Proof.
  induction a as [|x a IH]; intros [|y b] [|z c]; cbn [String.compare];
    try congruence.
  rewrite !ascii_compare_N.
  destruct (BinNat.N.compare_spec (N_of_ascii x) (N_of_ascii y)) as [Exy|Lxy|Gxy];
    destruct (BinNat.N.compare_spec (N_of_ascii y) (N_of_ascii z)) as [Eyz|Lyz|Gyz];
    try congruence; intros H1 H2.
  - rewrite Exy, Eyz. rewrite BinNat.N.compare_refl. eauto.
  - rewrite (proj2 (BinNat.N.compare_lt_iff _ _)); [discriminate|]. now rewrite Exy.
  - rewrite (proj2 (BinNat.N.compare_lt_iff _ _)); [discriminate|]. now rewrite <- Eyz.
  - rewrite (proj2 (BinNat.N.compare_lt_iff _ _)); [discriminate|].
    now apply BinNat.N.lt_trans with (N_of_ascii y).
Qed.

Lemma leb_trans a b c :
  String.leb a b = true -> String.leb b c = true -> String.leb a c = true.
Proof.
  unfold String.leb. intros H1 H2.
  pose proof (compare_not_gt_trans a b c) as H.
  destruct (String.compare a b); try discriminate;
    destruct (String.compare b c); try discriminate;
    destruct (String.compare a c); auto; exfalso; apply H; congruence.
Qed.

Lemma insert_sorted_ordered x l :
  Sorted.StronglySorted (fun a b => String.leb a b = true) l ->
  Sorted.StronglySorted (fun a b => String.leb a b = true) (insert_sorted x l).
Proof.
  induction 1 as [|y l Hs IH Hall]; cbn [insert_sorted].
  - repeat constructor.
  - destruct (String.leb x y) eqn:E.
    + constructor; [now constructor|].
      constructor; [exact E|].
      eapply Forall_impl; [|exact Hall]. intros z Hz.
      now apply leb_trans with y.
    + constructor; [exact IH|].
      apply Forall_forall. intros z Hz.
      apply in_insert_sorted in Hz as [->|Hz].
      * destruct (String.leb_total x y) as [H|H]; congruence.
      * rewrite Forall_forall in Hall. auto.
Qed.

Lemma sorted_ordered l :
  Sorted.StronglySorted (fun a b => String.leb a b = true) (sorted l).
Proof.
  induction l as [|x l IH]; [constructor|].
  now apply insert_sorted_ordered.
Qed.

Lemma created_app evs evs' : created (evs ++ evs') = created evs ++ created evs'.
Proof.
  induction evs as [|[[|a [|b [|c p]]]| |] evs IH]; cbn [created app];
    congruence.
Qed.

Lemma loop_created lf files evs :
  Forall (loop_event lf files) evs -> created evs = [].
Proof.
  induction 1 as [|[p| |] evs H _ IH]; cbn [created]; auto.
  destruct H.
Qed.

Lemma letters_created names : forall m,
  exists evs,
    trace (snd (for_each names letter_body m)) = trace m ++ evs /\
    (forall s, In s (created evs) ->
       In s names /\ videos_of (fs m) s <> []) /\
    (Sorted.StronglySorted (fun a b => String.leb a b = true) names ->
     Sorted.StronglySorted (fun a b => String.leb a b = true) (created evs)) /\
    (forall vp o, In (EvOpen vp o) evs ->
       exists s name,
         In s names /\ In name (videos_of (fs m) s) /\
         vp = [VIDEO_FOLDER; s; name]).
Proof.
  induction names as [|s names IH]; intros m.
  - exists []. cbn. rewrite app_nil_r.
    repeat split; try constructor; try contradiction.
  - cbn [for_each]. unfold Py.bind.
    pose proof (letter_body_outside s m VIDEO_FOLDER) as Hv.
    destruct (letter_body_cases s m) as (r & m' & E & H). rewrite E in *.
    cbn [snd] in Hv.
    assert (Hvid : forall s', videos_of (fs m') s' = videos_of (fs m) s').
    { intros s'. apply videos_of_lookup, Hv. discriminate. }
    destruct H as [(_ & -> & ->)|[(Hne & Hmk & -> & ->)|H]].
    + destruct (IH m) as (evs & T & C & O & P). exists evs.
      split; [exact T|]. split; [|split].
      * intros s' Hs'. destruct (C s' Hs'). auto with datatypes.
      * intros Hs. apply O. now inversion Hs.
      * intros vp o Hin. destruct (P vp o Hin) as (s' & name & H1 & H2).
        exists s', name. auto with datatypes.
    + exists [EvMakedirs [OUTPUT_FOLDER; s]]. cbn [snd trace log created].
      split; [reflexivity|]. split; [|split].
      * intros s' [<-|[]]. auto with datatypes.
      * intros _. repeat constructor.
      * intros vp o [H|[]]. discriminate H.
    + destruct H as (t1 & evs1 & Hne & Hmk & -> & T1 & L1 & _).
      destruct (IH m') as (evs & T & C & O & P).
      exists ((EvMakedirs [OUTPUT_FOLDER; s] :: evs1) ++ evs).
      rewrite T, T1, <- app_assoc. split; [reflexivity|].
      rewrite created_app. cbn [created].
      rewrite (loop_created _ _ _ L1). cbn [app].
      split; [|split].
      * intros s' [<-|Hs']; [auto with datatypes|].
        destruct (C s' Hs') as [H1 H2]. rewrite Hvid in H2.
        auto with datatypes.
      * intros Hs. inversion Hs as [|? ? Hs' Hall]; subst.
        constructor; [auto|].
        apply Forall_forall. intros s' Hs''.
        rewrite Forall_forall in Hall. apply Hall. now apply C.
      * intros vp o Hin. cbn [app] in Hin.
        destruct Hin as [Hin|Hin]; [discriminate Hin|].
        apply in_app_or in Hin as [Hin|Hin].
        -- rewrite Forall_forall in L1. specialize (L1 _ Hin).
           destruct L1 as (name & Hn & ->).
           exists s, name. auto with datatypes.
        -- destruct (P vp o Hin) as (s' & name & H1 & H2 & H3).
           rewrite Hvid in H2. exists s', name. auto with datatypes.
Qed.

Lemma run_created t :
  exists t' evs,
    trace (snd (run t)) = evs /\
    (forall s, videos_of t' s = videos_of t s) /\
    (forall s, In s (created evs) ->
       In s (letter_dirs t) /\ videos_of t' s <> []) /\
    Sorted.StronglySorted (fun a b => String.leb a b = true) (created evs) /\
    (forall vp o, In (EvOpen vp o) evs ->
       exists s name,
         In s (letter_dirs t) /\ In name (videos_of t' s) /\
         vp = [VIDEO_FOLDER; s; name]).
Proof.
  rewrite run_unfold.
  destruct (negb _).
  { exists t, []. repeat split; try constructor; contradiction. }
  destruct (FS.makedirs _ t) as [t1|] eqn:Hmk.
  2: { exists t, [EvMakedirs [OUTPUT_FOLDER]]. cbn [snd trace log boot app].
       repeat split; try constructor; try contradiction.
       intros vp o [H|[]]. discriminate H. }
  assert (Hvid : forall s, videos_of t1 s = videos_of t s).
  { intros s. apply videos_of_lookup.
    exact (makedirs_output_videos t t1 [s] Hmk). }
  assert (Hstop : forall m, trace m = [EvMakedirs [OUTPUT_FOLDER]] ->
    exists t' evs,
      trace m = evs /\
      (forall s, videos_of t' s = videos_of t s) /\
      (forall s, In s (created evs) ->
         In s (letter_dirs t) /\ videos_of t' s <> []) /\
      Sorted.StronglySorted (fun a b => String.leb a b = true) (created evs) /\
      (forall vp o, In (EvOpen vp o) evs ->
         exists s name,
           In s (letter_dirs t) /\ In name (videos_of t' s) /\
           vp = [VIDEO_FOLDER; s; name])).
  { intros m ->. exists t, [EvMakedirs [OUTPUT_FOLDER]].
    repeat split; try constructor; try contradiction.
    intros vp o [H|[]]. discriminate H. }
  destruct (FS.iterdir _ t); [|now apply Hstop].
  destruct (_ =? 0); [now apply Hstop|].
  destruct (letters_created (sorted (letter_dirs t))
                            (set_totals 0 0 (prepared t t1)))
    as (evs & T & C & O & P).
  cbn [fs trace set_totals prepared with_fs log boot app] in T, C, P.
  exists t1, (EvMakedirs [OUTPUT_FOLDER] :: evs).
  split; [exact T|]. split; [exact Hvid|]. cbn [created].
  split; [|split].
  - intros s Hs. destruct (C s Hs) as [H1 H2].
    apply (proj1 (in_sorted _ _)) in H1. auto.
  - apply O, sorted_ordered.
  - intros vp o [H|Hin]; [discriminate H|].
    destruct (P vp o Hin) as (s & name & H1 & H2 & H3).
    apply (proj1 (in_sorted _ _)) in H1. eauto.
Qed.

(** X6.  The output folders are made in ascending order of the names of
    the signs, and only for letter folders in which a video was found. *)
Theorem folders_in_sorted_order t :
  Sorted.StronglySorted (fun a b => String.leb a b = true)
                 (created (trace (snd (run t)))) /\
  forall s, In s (created (trace (snd (run t)))) ->
            In s (letter_dirs t) /\ videos_of t s <> [].
Proof.
  destruct (run_created t) as (t' & evs & -> & Hvid & C & O & _).
  split; [exact O|]. intros s Hs. rewrite <- Hvid. now apply C.
Qed.

(** ** The videos of a letter folder *)

Lemma NoDup_map_filter {A B} (f : A -> B) (p : A -> bool) l :
  NoDup (map f l) -> NoDup (map f (filter p l)).
Proof.
  induction l as [|a l IH]; cbn [map filter]; intros H; [constructor|].
  apply NoDup_cons_iff in H as [Hn H].
  destruct (p a); cbn [map]; auto.
  constructor; auto. intros Hin. apply Hn.
  apply in_map_iff in Hin as (x & <- & Hx).
  apply filter_In in Hx as [Hx _]. now apply in_map.
Qed.

Lemma in_matches name ext (es : list (string * Tree)) :
  In name (map fst (filter (fun e => FS.ends_with (fst e) ext) es)) <->
  In name (map fst es) /\ FS.ends_with name ext = true.
Proof.
  rewrite !in_map_iff. split.
  - intros (e & <- & He). apply filter_In in He as [He Hm]. eauto.
  - intros [(e & <- & He) Hm]. exists e. split; [reflexivity|].
    apply filter_In. auto.
Qed.

Lemma in_matches_all name exts (es : list (string * Tree)) :
  In name (flat_map
             (fun ext =>
                map fst (filter (fun e => FS.ends_with (fst e) ext) es))
             exts) <->
  In name (map fst es) /\ existsb (FS.ends_with name) exts = true.
Proof.
  rewrite in_flat_map, existsb_exists. split.
  - intros (ext & Hext & H). apply in_matches in H as [H1 H2]. eauto.
  - intros [H1 (ext & Hext & H2)]. exists ext. split; [exact Hext|].
    apply in_matches. auto.
Qed.

Lemma NoDup_matches_all exts (es : list (string * Tree)) :
  NoDup (map fst es) -> NoDup exts ->
  (forall e1 e2, In e1 exts -> In e2 exts ->
                 String.length e1 = String.length e2) ->
  NoDup (flat_map
           (fun ext =>
              map fst (filter (fun e => FS.ends_with (fst e) ext) es))
           exts).
Proof.
  intros Hes. induction exts as [|ext exts IH]; intros Hnd Hlen;
    cbn [flat_map]; [constructor|].
  apply NoDup_cons_iff in Hnd as [Hn Hnd].
  apply NoDup_app.
  - now apply NoDup_map_filter.
  - apply IH; auto with datatypes.
  - intros name H1 H2.
    apply in_matches in H1 as [_ H1].
    apply in_flat_map in H2 as (ext' & Hext' & H2).
    apply in_matches in H2 as [_ H2].
    apply Hn.
    rewrite (ends_with_unique name ext ext' H1 H2); auto with datatypes.
Qed.

Lemma videos_of_listing t s es :
  FS.iterdir [VIDEO_FOLDER; s] t = Some es ->
  videos_of t s =
  flat_map (fun ext =>
              map fst (filter (fun e => FS.ends_with (fst e) ext) es))
           VIDEO_EXTENSIONS.
Proof.
  intros H. unfold videos_of. apply flat_map_same. intros ext _.
  unfold FS.glob. now rewrite H.
Qed.

Lemma videos_of_no_listing t s :
  FS.iterdir [VIDEO_FOLDER; s] t = None -> videos_of t s = [].
Proof.
  intros H. unfold videos_of. apply flat_map_none. intros ext _.
  unfold FS.glob. now rewrite H.
Qed.

(** X7.  In a letter folder whose entries have distinct names, the videos
    found are exactly the entries with a name that ends, case sensitively,
    in one of the seven extensions, and none is found twice: no name
    matches two of the patterns. *)
Theorem glob_all_supported s m es :
  FS.iterdir [VIDEO_FOLDER; s] (fs m) = Some es ->
  NoDup (map fst es) ->
  exists files,
    glob_all [VIDEO_FOLDER; s] VIDEO_EXTENSIONS m = (Py.Ok files, m) /\
    NoDup files /\
    forall name,
      In name files <-> In name (map fst es) /\ supported name = true.
Proof.
  intros Hes Hnd. exists (videos_of (fs m) s).
  split; [apply glob_all_spec|].
  rewrite (videos_of_listing _ _ _ Hes). split.
  - apply NoDup_matches_all; [exact Hnd|..].
    + unfold VIDEO_EXTENSIONS.
      repeat (constructor;
              [cbn [In]; intros H;
               repeat (destruct H as [H|H]; [discriminate H|]); exact H|]).
      constructor.
    + unfold VIDEO_EXTENSIONS. cbn [In]. intros e1 e2 H1 H2.
      repeat (destruct H1 as [<-|H1]; [|]); try contradiction;
        repeat (destruct H2 as [<-|H2]; [|]); try contradiction;
        reflexivity.
  - intros name. apply in_matches_all.
Qed.

(** X8.  A capture is opened only on an entry of a letter folder with a
    name that ends in one of the seven extensions: never on a file that
    lies in the video folder itself, and never on another kind of file. *)
Theorem opens_only_supported t vp o :
  In (EvOpen vp o) (trace (snd (run t))) ->
  exists s name es,
    vp = [VIDEO_FOLDER; s; name] /\
    In s (letter_dirs t) /\
    FS.iterdir [VIDEO_FOLDER; s] t = Some es /\
    In name (map fst es) /\
    supported name = true.
Proof.
  intros Hin.
  destruct (run_created t) as (t' & evs & E & Hvid & _ & _ & P).
  rewrite E in Hin.
  destruct (P vp o Hin) as (s & name & Hs & Hn & ->).
  rewrite Hvid in Hn.
  destruct (FS.iterdir [VIDEO_FOLDER; s] t) as [es|] eqn:Hes.
  - exists s, name, es. rewrite (videos_of_listing _ _ _ Hes) in Hn.
    apply in_matches_all in Hn as [H1 H2]. auto.
  - rewrite (videos_of_no_listing _ _ Hes) in Hn. contradiction.
Qed.

(** X9.  The extensions are matched by case: [.mkv] and the upper-case
    [.MP4] are listed, the upper-case [.MKV] is not, and a letter folder
    that holds only [.MKV] files is passed over without any effect. *)
Theorem upper_case_mkv_not_found :
  (forall stem, supported (stem ++ ".mkv")%string = true /\
                supported (stem ++ ".MP4")%string = true /\
                supported (stem ++ ".MKV")%string = false) /\
  (forall s m es,
     FS.iterdir [VIDEO_FOLDER; s] (fs m) = Some es ->
     (forall name, In name (map fst es) ->
                   exists stem, name = (stem ++ ".MKV")%string) ->
     letter_body s m = (Py.Ok tt, m)).
Proof.
  assert (Hmkv : forall stem, supported (stem ++ ".MKV")%string = false).
  { intros stem. apply not_true_iff_false. intros H.
    apply existsb_exists in H as (ext & Hext & H).
    pose proof (ends_with_unique _ _ _ H (ends_with_append stem ".MKV"))
      as Hu.
    unfold VIDEO_EXTENSIONS in Hext. cbn [In] in Hext.
    repeat (destruct Hext as [<-|Hext];
            [specialize (Hu eq_refl); discriminate Hu|]).
    exact Hext. }
  split.
  - intros stem. split; [|split; [|apply Hmkv]].
    + apply existsb_exists. exists ".mkv".
      split; [unfold VIDEO_EXTENSIONS; auto 10 with datatypes|].
      apply ends_with_append.
    + apply existsb_exists. exists ".MP4".
      split; [unfold VIDEO_EXTENSIONS; auto 10 with datatypes|].
      apply ends_with_append.
  - intros s m es Hes Hall.
    destruct (letter_body_cases s m) as (r & m' & E & H). rewrite E.
    assert (Hnone : videos_of (fs m) s = []).
    { destruct (videos_of (fs m) s) as [|name l] eqn:Hv; [reflexivity|].
      assert (Hin : In name (videos_of (fs m) s))
        by (rewrite Hv; now left).
      rewrite (videos_of_listing _ _ _ Hes) in Hin.
      apply in_matches_all in Hin as [H1 H2].
      destruct (Hall name H1) as (stem & ->).
      fold (supported (stem ++ ".MKV")%string) in H2.
      rewrite Hmkv in H2. discriminate H2. }
    destruct H as [(_ & -> & ->)|[(Hne & _)|(t1 & evs & Hne & _)]];
      [reflexivity|contradiction|contradiction].
Qed.

(** ** The count of an output folder *)

Lemma append_assoc (a b c : string) :
  ((a ++ b) ++ c = a ++ (b ++ c))%string.
Proof. induction a; cbn; congruence. Qed.

Lemma img_name_jpg n : FS.ends_with (img_name n) ".jpg" = true.
Proof.
  unfold img_name. rewrite <- append_assoc. apply ends_with_append.
Qed.

Lemma count_listing d (t : Tree) es :
  FS.lookup d t = Some (FS.Dir es) ->
  List.length (FS.glob d ".jpg" t)
  = List.length (filter (fun e => FS.ends_with (fst e) ".jpg") es).
Proof. intros H. unfold FS.glob, FS.iterdir. now rewrite H. Qed.

Lemma vacant_weaken d n n' t : n <= n' -> vacant d n t -> vacant d n' t.
Proof. intros Hn H k Hk. apply H. lia. Qed.

Lemma imwrite_fresh d n img vp i m es :
  FS.lookup d (fs m) = Some (FS.Dir es) ->
  FS.lookup (d ++ [img_name n]) (fs m) = None ->
  exists m',
    cv2_imwrite (d ++ [img_name n]) img vp i m = (Py.Ok tt, m') /\
    FS.lookup d (fs m')
      = Some (FS.Dir (es ++ [(img_name n, FS.File (Jpeg img))])) /\
    total_frames m' = total_frames m /\
    untouched (d ++ [img_name n]) (fs m) (fs m').
Proof.
  intros Hd Hn.
  assert (Ha : FS.assoc (img_name n) es = None).
  { rewrite FSFacts.lookup_app, Hd in Hn. cbn [FS.lookup] in Hn.
    now destruct (FS.assoc (img_name n) es). }
  destruct (FSFacts.write_file_ok _ d (img_name n) (Jpeg img) (fs m) es Hd)
    as (t' & Hw & Hd').
  { intros sub. rewrite Ha. discriminate. }
  rewrite (FSFacts.set_absent _ _ _ _ Ha) in Hd'.
  unfold cv2_imwrite. rewrite Hw. eexists. split; [reflexivity|].
  cbn [fs with_fs log total_frames]. repeat split; auto.
  intros q Hq. eapply FSFacts.write_file_frame; eauto.
Qed.

Lemma read_loop_fresh cap : forall vp d ec ffl fc sc m es,
  FS.lookup d (fs m) = Some (FS.Dir es) ->
  vacant d (ec + ffl + sc) (fs m) ->
  exists n m' es',
    read_loop cap vp d ec ffl fc sc m = (Py.Ok n, m') /\
    sc <= n /\
    FS.lookup d (fs m') = Some (FS.Dir es') /\
    List.length (filter (fun e => FS.ends_with (fst e) ".jpg") es') + sc
    = List.length (filter (fun e => FS.ends_with (fst e) ".jpg") es) + n /\
    total_frames m' = total_frames m /\
    vacant d (ec + ffl + n) (fs m').
Proof.
  induction cap as [|f cap IH]; intros vp d ec ffl fc sc m es Hd Hv.
  - exists sc, m, es. cbn [read_loop]. unfold Py.ret. repeat split; auto.
  - cbn [read_loop]. change FRAME_INTERVAL with 5.
    destruct (fc mod 5 =? 0); cbv zeta.
    + destruct (imwrite_fresh d (ec + ffl + sc + 1)
                  (cv2_resize f (IMAGE_SIZE, IMAGE_SIZE)) vp fc m es Hd)
        as (m1 & E1 & Hd1 & F1 & U1).
      { apply Hv. lia. }
      run_with E1.
      destruct (IH vp d ec ffl (fc + 1) (sc + 1) m1 _ Hd1)
        as (n & m' & es' & E & Hn & Hd' & Hc & F & Hv').
      { intros k Hk. rewrite U1; [apply Hv; lia|].
        apply FSFacts.diverge_sibling. intros Heq.
        apply img_name_inj in Heq. lia. }
      exists n, m', es'. rewrite E.
      rewrite filter_app, length_app in Hc. cbn [filter fst] in Hc.
      rewrite img_name_jpg in Hc. cbn [List.length] in Hc.
      repeat split; auto; try lia; congruence.
    + destruct (IH vp d ec ffl (fc + 1) sc m es Hd Hv)
        as (n & m' & es' & E & Hn & Hd' & Hc & F & Hv').
      exists n, m', es'. repeat split; auto.
Qed.

Lemma video_body_fresh lf d ec name ffl m es :
  FS.lookup d (fs m) = Some (FS.Dir es) ->
  vacant d (ec + ffl) (fs m) ->
  exists n m' es',
    video_body name lf d ec ffl m = (Py.Ok n, m') /\
    ffl <= n /\
    FS.lookup d (fs m') = Some (FS.Dir es') /\
    List.length (filter (fun e => FS.ends_with (fst e) ".jpg") es') + ffl
    = List.length (filter (fun e => FS.ends_with (fst e) ".jpg") es) + n /\
    total_frames m' = total_frames m /\
    vacant d (ec + n) (fs m').
Proof.
  intros Hd Hv. unfold video_body. cbv zeta.
  set (vp := lf ++ [name]).
  destruct (VideoCapture_spec vp m) as [(frames & Hr & E)|(Hr & E)];
    run_with E.
  - destruct (read_loop_fresh frames vp d ec ffl 0 0
                (log (EvOpen vp true) m) es Hd)
      as (n & m1 & es' & E1 & _ & Hd' & Hc & F & Hv').
    { now rewrite Nat.add_0_r. }
    run_with E1. unfold Py.bind, Py.modify, Py.ret.
    exists (ffl + n), (set_totals (total_frames m1) (total_videos m1 + 1) m1),
      es'.
    cbn [fs set_totals total_frames]. simpl in F.
    repeat split; auto; try lia.
    now rewrite Nat.add_assoc.
  - exists ffl, (log (EvOpen vp false) m), es. unfold Py.ret.
    cbn [fs log total_frames]. repeat split; auto.
Qed.

Lemma video_loop_fresh lf d ec files : forall ffl m es,
  FS.lookup d (fs m) = Some (FS.Dir es) ->
  vacant d (ec + ffl) (fs m) ->
  exists n m' es',
    video_loop files lf d ec ffl m = (Py.Ok n, m') /\
    FS.lookup d (fs m') = Some (FS.Dir es') /\
    List.length (filter (fun e => FS.ends_with (fst e) ".jpg") es') + ffl
    = List.length (filter (fun e => FS.ends_with (fst e) ".jpg") es) + n /\
    total_frames m' = total_frames m.
Proof.
  induction files as [|name rest IH]; intros ffl m es Hd Hv.
  - exists ffl, m, es. cbn [video_loop]. unfold Py.ret. repeat split; auto.
  - cbn [video_loop].
    destruct (video_body_fresh lf d ec name ffl m es Hd Hv)
      as (n1 & m1 & es1 & E1 & L1 & Hd1 & Hc1 & F1 & Hv1).
    run_with E1.
    destruct (IH n1 m1 es1 Hd1 Hv1) as (n & m' & es' & E & Hd' & Hc & F).
    exists n, m', es'. rewrite E. repeat split; auto; lia.
Qed.

Lemma letter_body_count s m :
  vacant [OUTPUT_FOLDER; s] (jpg_count (fs m) s) (fs m) ->
  exists r m',
    letter_body s m = (r, m') /\
    jpg_count (fs m') s + total_frames m
    = jpg_count (fs m) s + total_frames m'.
Proof.
  intros Hv. unfold letter_body. cbv zeta.
  run_with (glob_all_spec [VIDEO_FOLDER; s] VIDEO_EXTENSIONS m).
  set (files := flat_map _ VIDEO_EXTENSIONS).
  destruct (List.length files =? 0).
  { exists (Py.Ok tt), m. split; reflexivity. }
  unfold Py.bind at 1, os_makedirs.
  destruct (FS.makedirs [OUTPUT_FOLDER; s] (fs m)) as [t1|] eqn:Hmk.
  2: { eexists _, _. split; reflexivity. }
  set (m1 := with_fs t1 _).
  unfold Py.bind at 1. unfold glob at 1.
  assert (Hec : List.length
                  (map fst (FS.glob [OUTPUT_FOLDER; s] ".jpg" (fs m1)))
                = jpg_count (fs m) s).
  { rewrite length_map. unfold jpg_count. f_equal.
    exact (FSFacts.makedirs_below _ [OUTPUT_FOLDER; s] [] ".jpg"
                                  (fs m) t1 Hmk). }
  destruct (FSFacts.makedirs_is_dir _ _ _ _ Hmk) as (es & Hd).
  assert (Hj : jpg_count (fs m) s
               = List.length
                   (filter (fun e => FS.ends_with (fst e) ".jpg") es)).
  { rewrite <- Hec, length_map. now apply count_listing. }
  rewrite Hec.
  destruct (video_loop_fresh [VIDEO_FOLDER; s] [OUTPUT_FOLDER; s]
              (jpg_count (fs m) s) files 0 m1 es Hd)
    as (n & m2 & es' & E & Hd' & Hc & F).
  { rewrite Nat.add_0_r. intros k Hk. cbn [fs m1 with_fs].
    rewrite (FSFacts.makedirs_lookup_below _ [OUTPUT_FOLDER; s]
               [img_name k] (fs m) t1 Hmk) by discriminate.
    now apply Hv. }
  run_with E. unfold Py.modify. eexists _, _. split; [reflexivity|].
  cbn [fs set_totals total_frames].
  unfold jpg_count at 1. rewrite (count_listing _ _ _ Hd').
  simpl in F. lia.
Qed.

Lemma letter_body_fresh s m :
  vacant [OUTPUT_FOLDER; s] (jpg_count (fs m) s) (fs m) ->
  jpg_count (fs (snd (letter_body s m))) s + total_frames m
  = jpg_count (fs m) s + total_frames (snd (letter_body s m)).
Proof.
  intros Hv. destruct (letter_body_count s m Hv) as (r & m' & E & H).
  now rewrite E.
Qed.

Lemma jpg_count_lookup t t' s :
  FS.lookup [OUTPUT_FOLDER; s] t' = FS.lookup [OUTPUT_FOLDER; s] t ->
  jpg_count t' s = jpg_count t s.
Proof. intros H. unfold jpg_count. f_equal. now apply FSFacts.glob_lookup. Qed.

Lemma letters_fresh names : forall m,
  NoDup names ->
  (forall s, In s names ->
             vacant [OUTPUT_FOLDER; s] (jpg_count (fs m) s) (fs m)) ->
  list_sum (map (jpg_count (fs (snd (for_each names letter_body m)))) names)
  + total_frames m
  = list_sum (map (jpg_count (fs m)) names)
    + total_frames (snd (for_each names letter_body m)).
Proof.
  induction names as [|s names IH]; intros m Hnd Hv; [reflexivity|].
  apply NoDup_cons_iff in Hnd as [Hnot Hnd].
  pose proof (letter_body_fresh s m (Hv s (or_introl eq_refl))) as H1.
  pose proof (letter_body_untouched s m) as U.
  pose proof (letters_other names (snd (letter_body s m)) s [] Hnot) as Hs.
  apply jpg_count_lookup in Hs.
  assert (Hsame : forall s', In s' names ->
            jpg_count (fs (snd (letter_body s m))) s' = jpg_count (fs m) s').
  { intros s' Hin. eapply jpg_count_untouched; [|exact U].
    intros ->. contradiction. }
  assert (Hmap : map (jpg_count (fs (snd (letter_body s m)))) names
                 = map (jpg_count (fs m)) names).
  { apply map_ext_in. exact Hsame. }
  specialize (IH (snd (letter_body s m)) Hnd).
  unfold list_sum in *. cbn [for_each map fold_right] in *.
  unfold Py.bind in *.
  destruct (letter_body s m) as [[[]| |] m1]; cbn [snd] in *.
  - rewrite Hs, <- Hmap.
    assert (IH' : fold_right Nat.add 0
                    (map (jpg_count (fs (snd (for_each names letter_body m1))))
                       names) + total_frames m1
                  = fold_right Nat.add 0 (map (jpg_count (fs m1)) names)
                    + total_frames (snd (for_each names letter_body m1))).
    { apply IH. intros s' Hin k Hk.
      rewrite U by (apply (other_sign s s' [img_name k]);
                    intros ->; contradiction).
      apply (Hv s' (or_intror Hin)). rewrite <- (Hsame s' Hin). exact Hk. }
    lia.
  - rewrite Hmap. lia.
  - rewrite Hmap. lia.
Qed.

Lemma insert_sorted_perm x l :
  Permutation.Permutation (insert_sorted x l) (x :: l).
Proof.
  induction l as [|y l IH]; cbn [insert_sorted];
    [apply Permutation.Permutation_refl|].
  destruct (String.leb x y); [apply Permutation.Permutation_refl|].
  eapply Permutation.perm_trans;
    [apply Permutation.perm_skip, IH|apply Permutation.perm_swap].
Qed.

Lemma sorted_perm l : Permutation.Permutation (sorted l) l.
Proof.
  induction l as [|x l IH]; [apply Permutation.Permutation_refl|].
  cbn [sorted fold_right].
  eapply Permutation.perm_trans;
    [apply insert_sorted_perm|apply Permutation.perm_skip, IH].
Qed.

(** X10.  When the letter folders have distinct names and no output folder
    holds an entry named like an image numbered above its count of
    [*.jpg] entries, the counts of the output folders grow, together, by
    exactly [total_frames]: every frame reported is one more image. *)
Theorem counts_grow_by_total_frames t :
  NoDup (letter_dirs t) ->
  (forall s, In s (letter_dirs t) ->
             vacant [OUTPUT_FOLDER; s] (jpg_count t s) t) ->
  list_sum (map (jpg_count (fs (snd (run t)))) (letter_dirs t))
  = list_sum (map (jpg_count t) (letter_dirs t))
    + total_frames (snd (run t)).
Proof.
  intros Hnd Hv. rewrite run_unfold.
  destruct (negb _); [cbn; lia|].
  destruct (FS.makedirs _ t) as [t1|] eqn:Hmk; [|cbn; lia].
  assert (Hj : forall s, jpg_count t1 s = jpg_count t s).
  { intros s. unfold jpg_count. f_equal.
    exact (FSFacts.makedirs_below _ [OUTPUT_FOLDER] [s] ".jpg" t t1 Hmk). }
  assert (Hm : map (jpg_count t1) (letter_dirs t)
               = map (jpg_count t) (letter_dirs t)).
  { apply map_ext. exact Hj. }
  destruct (FS.iterdir _ t);
    [|cbn [snd fs prepared with_fs total_frames log boot]; rewrite Hm; lia].
  destruct (_ =? 0);
    [cbn [snd fs prepared with_fs total_frames log boot]; rewrite Hm; lia|].
  pose proof (letters_fresh (sorted (letter_dirs t))
                (set_totals 0 0 (prepared t t1))
                (NoDup_sorted _ Hnd)) as H.
  cbn [fs total_frames set_totals prepared with_fs] in H.
  assert (Hp : forall f : string -> nat,
             list_sum (map f (sorted (letter_dirs t)))
             = list_sum (map f (letter_dirs t))).
  { intros f. apply Permutation.Permutation_list_sum, Permutation.Permutation_map,
      sorted_perm. }
  rewrite !Hp, Nat.add_0_r in H. rewrite <- Hm. apply H.
  intros s Hin k Hk. apply (proj1 (in_sorted _ _)) in Hin.
  change ([OUTPUT_FOLDER; s] ++ [img_name k])
    with ([OUTPUT_FOLDER] ++ [s; img_name k]).
  rewrite (FSFacts.makedirs_lookup_below _ [OUTPUT_FOLDER]
             [s; img_name k] t t1 Hmk) by discriminate.
  apply (Hv s Hin). now rewrite <- Hj.
Qed.

End Runs.

(** ** Concrete runs *)

Lemma fmt04d_width_witness :
  String.length (fmt04d 7) = 4 /\ fmt04d (10 ^ 4) = str (10 ^ 4).
Proof.
  split.
  - apply (proj1 (fmt04d_width 7)). apply Nat.ltb_lt. reflexivity.
  - apply (proj2 (fmt04d_width (10 ^ 4))). apply Nat.le_refl.
Defined.

Lemma img_name_round_trip_witness :
  parse (fmt04d 12) = Some 12 /\
  (img_name 12 = img_name (7 + 5) -> 12 = 7 + 5).
Proof.
  split.
  - exact (proj1 (img_name_round_trip 12)).
  - exact (proj2 (img_name_round_trip 12) (7 + 5)).
Defined.

Lemma run_outside_output_witness :
  FS.lookup ["Videos"; "B"; "b1.mp4"]
            (fs (snd (run (cv := shape_only) studio)))
  = FS.lookup ["Videos"; "B"; "b1.mp4"] studio.
Proof.
  apply (run_outside_output (cv := shape_only) studio "Videos"
           ["B"; "b1.mp4"]).
  discriminate.
Defined.

Lemma studio_letters : NoDup (letter_dirs studio).
Proof. repeat constructor; simpl; intuition discriminate. Qed.

Lemma run_keeps_existing_witness :
  jpg_count studio "B" = 2 /\
  FS.lookup ["trainingdata"; "B"; "img_0001.jpg"]
            (fs (snd (run (cv := shape_only) studio)))
  = FS.lookup ["trainingdata"; "B"; "img_0001.jpg"] studio.
Proof.
  assert (J : jpg_count studio "B" = 2) by reflexivity.
  split; [exact J|].
  apply (run_keeps_existing (cv := shape_only) studio "B" "img_0001.jpg" []
           studio_letters).
  intros k Hk Heq. rewrite J in Hk.
  change "img_0001.jpg" with (img_name 1) in Heq.
  apply img_name_inj in Heq. lia.
Defined.

Lemma run_outcomes_witness :
  fst (run (cv := shape_only) misplaced) = Py.Raise Py.NotADirectoryError /\
  exists c, FS.lookup ["Videos"] misplaced = Some (FS.File c).
Proof.
  assert (H : fst (run (cv := shape_only) misplaced)
              = Py.Raise Py.NotADirectoryError) by reflexivity.
  split; [exact H|].
  exact (proj1 (proj2 (proj2 (run_outcomes (cv := shape_only) misplaced))) H).
Defined.

Lemma folders_in_sorted_order_witness :
  In "B" (created (trace (snd (run (cv := shape_only) studio)))) /\
  In "B" (letter_dirs studio) /\ videos_of studio "B" <> [].
Proof.
  assert (H : In "B" (created (trace (snd (run (cv := shape_only) studio))))).
  { apply nth_error_In with (n := 1). vm_compute. reflexivity. }
  split; [exact H|].
  exact (proj2 (folders_in_sorted_order (cv := shape_only) studio) "B" H).
Defined.

Lemma glob_all_supported_witness :
  exists files,
    glob_all (cv := shape_only) ["Videos"; "B"] VIDEO_EXTENSIONS
             (boot studio) = (Py.Ok files, boot studio) /\
    NoDup files.
Proof.
  destruct (glob_all_supported (cv := shape_only) "B" (boot studio)
              [("b1.mp4", clip 11); ("notes.txt", FS.File Other);
               ("b2.MOV", clip 3); ("bad.avi", FS.File Other)] eq_refl)
    as (files & E & Hnd & _).
  - repeat constructor; simpl; intuition discriminate.
  - exists files. split; [exact E|exact Hnd].
Defined.

Lemma opens_only_supported_witness :
  In (EvOpen ["Videos"; "A"; "a.mkv"] true)
     (trace (snd (run (cv := shape_only) studio))) /\
  exists s name,
    ["Videos"; "A"; "a.mkv"] = [VIDEO_FOLDER; s; name] /\
    supported name = true.
Proof.
  assert (H : In (EvOpen ["Videos"; "A"; "a.mkv"] true)
                 (trace (snd (run (cv := shape_only) studio)))).
  { apply nth_error_In with (n := 2). vm_compute. reflexivity. }
  split; [exact H|].
  destruct (opens_only_supported (cv := shape_only) studio _ _ H)
    as (s & name & es & E & _ & _ & _ & Hs).
  exists s, name. split; [exact E|exact Hs].
Defined.

Lemma upper_case_mkv_not_found_witness :
  FS.iterdir ["Videos"; "A"] shouting = Some [("a.MKV", clip 6)] /\
  letter_body (cv := shape_only) "A" (boot shouting)
    = (Py.Ok tt, boot shouting).
Proof.
  split; [reflexivity|].
  apply (proj2 (upper_case_mkv_not_found (cv := shape_only)) "A"
               (boot shouting) [("a.MKV", clip 6)] eq_refl).
  intros name [<-|[]]. exists "a". reflexivity.
Defined.

Lemma counts_grow_by_total_frames_witness :
  list_sum (map (jpg_count (fs (snd (run (cv := shape_only) square))))
                (letter_dirs square))
  = list_sum (map (jpg_count square) (letter_dirs square))
    + total_frames (snd (run (cv := shape_only) square)).
Proof.
  apply (counts_grow_by_total_frames (cv := shape_only) square).
  - repeat constructor; simpl; intuition.
  - intros s _ k _. reflexivity.
Defined.

End ExtractMore.

(* ================================================================== *)
(** * More about the training script *)
(* ================================================================== *)

Module TrainMore.
Import Train TrainFacts.

Ltac unfold_script := TrainSpec.unfold_script.
Ltac next_call := TrainSpec.next_call.
Ltac find_call H := TrainSpec.find_call H.

Section Properties.
Context {keras : Keras}.

(** X11.  Without the directory [trainingdata] the script exits with status
    1 before any library call and leaves the file tree alone; and it exits
    in no other case. *)
Theorem exit_only_without_data t :
  (FS.exists_ [TRAINING_DATA_DIR] t = false -> run t = (Py.Exit 1, boot t)) /\
  (forall c, fst (run t) = Py.Exit c ->
             c = 1 /\ FS.exists_ [TRAINING_DATA_DIR] t = false).
Proof.
  split.
  - intros H. unfold_script. now rewrite H.
  - intros c. unfold_script. repeat next_call; try discriminate.
    all: intros [= <-]; split; [reflexivity|].
    all: now apply negb_true_iff.
Qed.

(** X12.  Whenever [fit] is called, it is called on the model that
    [compile] returned for the model that [keras.Sequential] built from
    the sixteen layers, sized by the classes of the training generator,
    and compiled with Adam at learning rate 0.001, the loss
    [sparse_categorical_crossentropy] and the metric [accuracy].  The run
    depends on each of these calls: an exception of [fit] ends the run,
    and what [fit] returns is what the script converts. *)
Theorem fit_trains_the_compiled_model t model x epochs v cbs verbose :
  In (CallFit model x epochs v cbs verbose) (calls (snd (run t))) ->
  (exists built args,
     In (CallSequential (layers (List.length (class_indices x))))
        (calls (snd (run t))) /\
     Sequential (layers (List.length (class_indices x))) = inr built /\
     In (CallCompile built args) (calls (snd (run t))) /\
     compile built args = inr model /\
     optimizer args = Adam 0.001 /\ (0.001 == 1 # 1000)%Q /\
     loss_name args = "sparse_categorical_crossentropy" /\
     metrics args = ["accuracy"]) /\
  (forall e,
     fit model x epochs v cbs = inl e -> fst (run t) = Py.Raise e) /\
  (forall fitted history,
     fit model x epochs v cbs = inr (fitted, history) ->
     history <> [] ->
     In (CallConvert fitted [DEFAULT]) (calls (snd (run t))) /\
     forall model' opts,
       In (CallConvert model' opts) (calls (snd (run t))) ->
       model' = fitted).
Proof.
  unfold_script. repeat next_call; intros H; find_call H.
  all: injection H as <- <- <- <- <- _.
  all: split; [do 2 eexists; cbn [In];
               repeat (split; [first [reflexivity | eassumption | auto 12]|]);
               reflexivity|].
  all: split.
  all: try (intros e0 He0; cbn [fst]; congruence).
  all: intros fitted history Hf Hne.
  all: try congruence.
  all: assert (p = (fitted, history)) by congruence; subst p.
  all: cbn [fst snd] in *.
  all: try (split; [cbn [In]; auto 12|];
            intros model' opts H'; find_call H'; congruence).
  all: exfalso; apply Hne.
  all: match goal with
       | Hr : List.rev (map _ ?h) = [] |- _ =>
           apply (f_equal (@List.length _)) in Hr;
           rewrite length_rev, length_map in Hr;
           now destruct h
       end.
Qed.

(** X14.  A run that does not end normally has written nothing: the file
    tree is the one it started from. *)
Theorem failure_leaves_tree t :
  fst (run t) <> Py.Ok tt -> fs (snd (run t)) = t.
Proof.
  unfold_script. repeat next_call; intros H; try reflexivity.
  all: now destruct H.
Qed.

(** X15.  Once the copy to [assets/model.tflite] is attempted the run ends
    normally, whether the copy works or not, and the exported model is in
    [fine_tuned_model.tflite]. *)
Theorem copy_failure_is_swallowed t src dst :
  In (CallCopy src dst) (calls (snd (run t))) ->
  src = ["fine_tuned_model.tflite"] /\ dst = ["assets"; "model.tflite"] /\
  fst (run t) = Py.Ok tt /\
  exists tflite,
    FS.read_file ["fine_tuned_model.tflite"] (fs (snd (run t))) = Some tflite.
Proof.
  unfold_script. repeat next_call; intros H; find_call H.
  all: injection H as <- <-; do 3 (split; [reflexivity|]).
  all: unfold output_file in *.
  all: match goal with
       | Hw : FS.write_file ["fine_tuned_model.tflite"] ?b ?t0 = Some ?t1
         |- _ =>
           pose proof (FSFacts.read_after_write _ _ _ _ _ Hw) as Hr
       end.
  all: try match goal with
       | Hc : FS.write_file ?target _ ?t1 = Some ?t2 |- context [?t2] =>
           assert (Hf : FS.read_file ["fine_tuned_model.tflite"] t2
                        = FS.read_file ["fine_tuned_model.tflite"] t1)
             by (unfold FS.read_file;
                 now rewrite (FSFacts.write_file_frame _ _ _ _ _
                                ["fine_tuned_model.tflite"] Hc eq_refl))
       end.
  all: try rewrite Hf; eexists; exact Hr.
Qed.

Lemma write_file_no_parent c q (data : Bytes) t :
  FS.lookup [c] t = None -> q <> [] -> FS.write_file (c :: q) data t = None.
Proof.
  intros H Hq. destruct t as [|es]; [reflexivity|].
  destruct q as [|x q]; [contradiction|]. cbn in *.
  destruct (FS.assoc c es); [discriminate|reflexivity].
Qed.

(** X16.  When [assets] is a directory and [assets/model.tflite] is not
    one, a run that ends normally leaves in [assets/model.tflite] the same
    bytes as in [fine_tuned_model.tflite]. *)
Theorem model_deployed_to_assets t es :
  fst (run t) = Py.Ok tt ->
  FS.lookup ["assets"] t = Some (FS.Dir es) ->
  (forall sub, FS.assoc "model.tflite" es <> Some (FS.Dir sub)) ->
  exists tflite,
    FS.read_file ["fine_tuned_model.tflite"] (fs (snd (run t)))
      = Some tflite /\
    FS.read_file ["assets"; "model.tflite"] (fs (snd (run t)))
      = Some tflite.
Proof.
  intros Hok Ha Hfree. revert Hok.
  unfold_script. repeat next_call; try discriminate; intros _.
  all: unfold output_file in *.
  all: match goal with
       | Hw : FS.write_file ["fine_tuned_model.tflite"] ?b _ = Some ?t1
         |- _ =>
           pose proof (FSFacts.read_after_write _ _ _ _ _ Hw) as Hr;
           pose proof (FSFacts.write_file_frame _ _ _ _ _ ["assets"]
                         Hw eq_refl) as Ha1;
           rewrite Ha in Ha1;
           destruct (FSFacts.write_file_ok _ ["assets"] "model.tflite" b
                       _ _ Ha1 Hfree) as (t2 & Hw2 & _)
       end.
  all: try congruence.
  all: match goal with
       | Hl : FS.lookup ["assets"; "model.tflite"] ?t1 = _ |- _ =>
           rewrite (FSFacts.lookup_app _ ["assets"] ["model.tflite"]) in Hl;
           rewrite Ha1 in Hl; cbn in Hl
       end.
  all: try (destruct (FS.assoc "model.tflite" es) as [[|sub]|] eqn:E;
            try discriminate; exfalso; apply (Hfree sub); congruence).
  all: cbn [app] in *.
  all: match goal with
       | Hd : FS.read_file ["fine_tuned_model.tflite"] ?t1 = Some ?d |- _ =>
           assert (d = b) by congruence; subst d
       end.
  all: try congruence.
  all: match goal with
       | Hc : FS.write_file ["assets"; "model.tflite"] ?b ?t1 = Some ?t3
         |- _ =>
           exists b; split;
           [ unfold FS.read_file;
             rewrite (FSFacts.write_file_frame _ _ _ _ _
                        ["fine_tuned_model.tflite"] Hc eq_refl);
             exact Hr
           | exact (FSFacts.read_after_write _ _ _ _ _ Hc) ]
       end.
Qed.

(** X17.  When there is no [assets], a run that ends normally does not
    create it: the only change to the file tree is the file
    [fine_tuned_model.tflite]. *)
Theorem no_assets_nothing_deployed t :
  fst (run t) = Py.Ok tt ->
  FS.lookup ["assets"] t = None ->
  FS.lookup ["assets"] (fs (snd (run t))) = None /\
  exists tflite,
    FS.write_file ["fine_tuned_model.tflite"] tflite t
      = Some (fs (snd (run t))).
Proof.
  intros Hok Ha. revert Hok.
  unfold_script. repeat next_call; try discriminate; intros _.
  all: unfold output_file in *.
  all: match goal with
       | Hw : FS.write_file ["fine_tuned_model.tflite"] ?b _ = Some ?t1
         |- _ =>
           pose proof (FSFacts.write_file_frame _ _ _ _ _ ["assets"]
                         Hw eq_refl) as Ha1;
           rewrite Ha in Ha1
       end.
  all: try match goal with
       | Hl : FS.lookup ["assets"; "model.tflite"] ?t1 = Some _ |- _ =>
           rewrite (FSFacts.lookup_app _ ["assets"] ["model.tflite"]) in Hl;
           rewrite Ha1 in Hl; discriminate Hl
       end.
  all: try match goal with
       | Hc : FS.write_file ["assets"; "model.tflite"] _ ?t1 = Some _ |- _ =>
           rewrite (write_file_no_parent "assets" ["model.tflite"] _ t1 Ha1)
             in Hc by discriminate; discriminate Hc
       end.
  all: split; [exact Ha1|eexists; eassumption].
Qed.

(** X18.  A run changes nothing outside [fine_tuned_model.tflite] and
    [assets]; the training data in particular is only read. *)
Theorem only_the_model_files_change t c q :
  c <> "fine_tuned_model.tflite" -> c <> "assets" ->
  FS.lookup (c :: q) (fs (snd (run t))) = FS.lookup (c :: q) t.
Proof.
  intros H1 H2.
  assert (D1 : FS.diverge ["fine_tuned_model.tflite"] (c :: q) = true).
  { change (FS.diverge ["fine_tuned_model.tflite"] (c :: q))
      with (if String.eqb "fine_tuned_model.tflite" c
            then FS.diverge [] q else true).
    destruct (String.eqb_spec "fine_tuned_model.tflite" c); congruence. }
  assert (D2 : forall x, FS.diverge ("assets" :: x) (c :: q) = true).
  { intros x.
    change (FS.diverge ("assets" :: x) (c :: q))
      with (if String.eqb "assets" c then FS.diverge x q else true).
    destruct (String.eqb_spec "assets" c); congruence. }
  unfold_script. repeat next_call; try reflexivity.
  all: unfold output_file in *.
  all: repeat match goal with
       | Hc : FS.write_file ?p _ ?t1 = Some ?t2 |- context [?t2] =>
           rewrite (FSFacts.write_file_frame _ _ _ _ _ (c :: q) Hc)
             by first [exact D1 | apply D2]
       end.
  all: reflexivity.
Qed.

End Properties.

Lemma exit_only_without_data_witness :
  FS.exists_ [TRAINING_DATA_DIR] nothing = false /\
  run (keras := reference plateau) nothing = (Py.Exit 1, boot nothing).
Proof.
  split; [reflexivity|].
  exact (proj1 (exit_only_without_data (keras := reference plateau) nothing)
               eq_refl).
Defined.

Lemma fit_trains_the_compiled_model_witness :
  exists model x v built args,
    In (CallFit model x 50 v callbacks 1)
       (calls (snd (run (keras := reference plateau) dataset))) /\
    In (CallCompile built args)
       (calls (snd (run (keras := reference plateau) dataset))) /\
    compile (Keras := reference plateau) built args = inr model /\
    optimizer args = Adam 0.001.
Proof.
  assert (H : exists model x v,
             nth_error (calls (snd (run (keras := reference plateau)
                                        dataset))) 4
             = Some (CallFit model x 50 v callbacks 1))
    by (eexists _, _, _; reflexivity).
  destruct H as (model & x & v & H). apply nth_error_In in H.
  destruct (proj1 (fit_trains_the_compiled_model
                     (keras := reference plateau) dataset _ _ _ _ _ _ H))
    as (built & args & _ & _ & Hi & Hc & Ho & _).
  exists model, x, v, built, args. split; [exact H|].
  split; [exact Hi|]. split; [exact Hc|exact Ho].
Defined.

Lemma failure_leaves_tree_witness :
  fst (run (keras := reference plateau) blocked) <> Py.Ok tt /\
  fs (snd (run (keras := reference plateau) blocked)) = blocked.
Proof.
  assert (E : fst (run (keras := reference plateau) blocked)
              = Py.Raise Py.OSError) by (vm_compute; reflexivity).
  assert (H : fst (run (keras := reference plateau) blocked) <> Py.Ok tt)
    by (rewrite E; discriminate).
  split; [exact H|].
  exact (failure_leaves_tree (keras := reference plateau) blocked H).
Defined.

Lemma copy_failure_is_swallowed_witness :
  In (CallCopy ["fine_tuned_model.tflite"] ["assets"; "model.tflite"])
     (calls (snd (run (keras := reference plateau) dataset))) /\
  FS.read_file ["fine_tuned_model.tflite"; "model.tflite"]
               (fs (snd (run (keras := reference plateau) dataset))) = None /\
  fst (run (keras := reference plateau) dataset) = Py.Ok tt.
Proof.
  assert (H : In (CallCopy ["fine_tuned_model.tflite"]
                           ["assets"; "model.tflite"])
                 (calls (snd (run (keras := reference plateau) dataset)))).
  { apply nth_error_In with (n := 7). vm_compute. reflexivity. }
  split; [exact H|]. split; [vm_compute; reflexivity|].
  exact (proj1 (proj2 (proj2 (copy_failure_is_swallowed
                                (keras := reference plateau) dataset _ _ H)))).
Defined.

Lemma model_deployed_to_assets_witness :
  fst (run (keras := reference plateau) checkout) = Py.Ok tt /\
  exists tflite,
    FS.read_file ["assets"; "model.tflite"]
                 (fs (snd (run (keras := reference plateau) checkout)))
      = Some tflite.
Proof.
  split; [reflexivity|].
  destruct (model_deployed_to_assets (keras := reference plateau) checkout
              [("model.tflite", FS.File [Byte.x00]);
               ("labels.txt", FS.File [Byte.x41])] eq_refl eq_refl)
    as (tflite & _ & H).
  - intros sub. discriminate.
  - exists tflite. exact H.
Defined.

Lemma no_assets_nothing_deployed_witness :
  fst (run (keras := reference plateau) dataset) = Py.Ok tt /\
  FS.lookup ["assets"] dataset = None /\
  FS.lookup ["assets"]
            (fs (snd (run (keras := reference plateau) dataset))) = None.
Proof.
  split; [reflexivity|]. split; [reflexivity|].
  exact (proj1 (no_assets_nothing_deployed (keras := reference plateau)
                  dataset eq_refl eq_refl)).
Defined.

Lemma only_the_model_files_change_witness :
  FS.lookup ["trainingdata"; "A"]
            (fs (snd (run (keras := reference plateau) dataset)))
  = FS.lookup ["trainingdata"; "A"] dataset.
Proof.
  apply (only_the_model_files_change (keras := reference plateau) dataset
           "trainingdata" ["A"]); discriminate.
Defined.

End TrainMore.
